(** * Ph-event-server: the request handlers over a model of their runtime

    The repository is an Express application in three revisions:
    [src/unnamed/part_000] (all routes, guarded by a "collection not yet
    connected" check), [src/unnamed/part_001] (all routes, no guard) and
    [src/index.js] (the authentication routes of [part_001], verbatim).

    The handlers are embedded as functions from a request and the state of
    the two MongoDB collections to a response and the next state.  What the
    handlers call but do not define is modelled as follows.

    - JavaScript values are the scalars a JSON body can carry (absent,
      null, booleans, integer-valued numbers, strings) together with the
      two object kinds the handlers create themselves, [ObjectId] and
      [Date].  Nested objects, arrays and fractional numbers in a request
      body are outside the model; [req.body] is always an object, as
      [express.json()] leaves it.  A string is held as the bytes of its
      UTF-8 text.
    - [parseInt], truthiness, [||] and [String.prototype.split] follow
      ECMAScript on those values.
    - A collection is the list of its documents in insertion order; a
      document maps field names to values.  [findOne], [find], [sort],
      [insertOne], [updateOne] ([$inc], [$set]) and [deleteOne] follow
      the MongoDB manual (server 5.0 and later) for equality filters on
      these fields.  The names of a [$set] are field paths: one that
      cannot be written to is a write error, and an embedded document
      that a dotted name creates is held as the fields below its path.
      The limits of the store (16 MB to a document, 100 levels of
      nesting) and of the body parser (100 kB) are not modelled.  The
      connection never fails once established.
    - [bcrypt], [jsonwebtoken] and the [ObjectId] constructor are
      parameters ([Platform]): the theorems hold for every implementation
      of them, and the closed examples run on the instance [demo]. *)

From Stdlib Require Import ZArith Lia Ascii String.
From stdpp Require Import gmap strings list fin_maps sorting.

Open Scope Z_scope.

(** ** JavaScript numbers

    A Number is an IEEE-754 double.  The model keeps the integer-valued
    ones: [Fin z] stands for the double whose value is [z]. *)

Inductive Number :=
| NaN
| Infinity (negative : bool)
| Fin (z : Z).

#[global] Instance Number_eq_dec : EqDecision Number.
Proof. solve_decision. Defined.

(** [to_double z] is the Number value of the mathematical integer [z]:
    round to nearest, ties to even, on a 53-bit significand; overflow gives
    an infinity. *)
Definition to_double (z : Z) : Number :=
  let a := Z.abs z in
  if a <? 2 ^ 53 then Fin z
  else
    let e := Z.log2 a - 52 in
    let q := Z.shiftr a e in
    let r := a - Z.shiftl q e in
    let half := Z.shiftl 1 (e - 1) in
    let q' := if (half <? r) || ((r =? half) && Z.odd q) then q + 1 else q in
    let v := Z.shiftl q' e in
    if 2 ^ 1024 <=? v then Infinity (z <? 0) else Fin (Z.sgn z * v).

(** [Number.isSafeInteger]: on these, [+ 1] is exact. *)
Definition safe_integer (z : Z) : Prop := Z.abs z < 2 ^ 53.

(** ** JavaScript values *)

Record ObjectId := Oid { toHexString : string }.

#[global] Instance ObjectId_eq_dec : EqDecision ObjectId.
Proof. solve_decision. Defined.

(** Milliseconds since the epoch. *)
Definition Time := Z.

Inductive Value :=
| VUndefined
| VNull
| VBool (b : bool)
| VNum (n : Number)
| VStr (s : string)
| VObjectId (o : ObjectId)
| VDate (t : Time).

#[global] Instance Value_eq_dec : EqDecision Value.
Proof. solve_decision. Defined.

#[global] Instance Value_inhabited : Inhabited Value := populate VUndefined.

(** ToBoolean. *)
Definition truthy (v : Value) : bool :=
  match v with
  | VUndefined | VNull => false
  | VBool b => b
  | VNum NaN => false
  | VNum (Fin z) => negb (z =? 0)
  | VNum (Infinity _) => true
  | VStr s => negb (String.eqb s "")
  | VObjectId _ | VDate _ => true
  end.

(** [a || b]. *)
Definition js_or (a b : Value) : Value := if truthy a then a else b.

(** *** Decimal text of an integer *)

Definition digit_char (d : Z) : ascii := ascii_of_nat (Z.to_nat (48 + d)).

Fixpoint digits_of (fuel : nat) (z : Z) (acc : string) : string :=
  match fuel with
  | O => acc
  | S fuel' =>
      let acc' := String (digit_char (z mod 10)) acc in
      if z <? 10 then acc' else digits_of fuel' (z / 10) acc'
  end.

(** Decimal digits of a natural number [z]. *)
Definition decimal (z : Z) : string :=
  digits_of (S (Z.to_nat (Z.log2 z))) z "".

(** *** parseInt on strings *)

(** A string is held as the bytes of its UTF-8 text.  [parseInt] skips
    the WhiteSpace and LineTerminator code points at the start: those of
    one byte (U+0009 to U+000D, U+0020), of two (U+00A0) and of three
    (U+1680, U+2000 to U+200A, U+2028, U+2029, U+202F, U+205F, U+3000,
    U+FEFF). *)
Definition byte (c : ascii) : Z := Z.of_nat (nat_of_ascii c).

Definition is_space (c : ascii) : bool :=
  let n := byte c in
  (n =? 9) || (n =? 10) || (n =? 11) || (n =? 12) || (n =? 13) || (n =? 32).

Definition is_space2 (c1 c2 : ascii) : bool :=
  (byte c1 =? 194) && (byte c2 =? 160).

Definition is_space3 (c1 c2 c3 : ascii) : bool :=
  let a := byte c1 in
  let b := byte c2 in
  let c := byte c3 in
  ((a =? 225) && (b =? 154) && (c =? 128))
  || ((a =? 226) && (b =? 128)
      && (((128 <=? c) && (c <=? 138)) || (c =? 168) || (c =? 169) || (c =? 175)))
  || ((a =? 226) && (b =? 129) && (c =? 159))
  || ((a =? 227) && (b =? 128) && (c =? 128))
  || ((a =? 239) && (b =? 187) && (c =? 191)).

Fixpoint trim_start (s : string) : string :=
  match s with
  | String c1 s1 =>
      if is_space c1 then trim_start s1
      else if byte c1 <? 128 then s
      else
        match s1 with
        | String c2 s2 =>
            if is_space2 c1 c2 then trim_start s2
            else
              match s2 with
              | String c3 s3 => if is_space3 c1 c2 c3 then trim_start s3 else s
              | EmptyString => s
              end
        | EmptyString => s
        end
  | EmptyString => s
  end.

(** The value of [c] as a digit in the given radix, if it is one. *)
Definition digit_value (radix : Z) (c : ascii) : option Z :=
  let n := Z.of_nat (nat_of_ascii c) in
  let d :=
    if (48 <=? n) && (n <=? 57) then Some (n - 48)
    else if (97 <=? n) && (n <=? 122) then Some (n - 87)
    else if (65 <=? n) && (n <=? 90) then Some (n - 55)
    else None in
  match d with
  | Some k => if k <? radix then Some k else None
  | None => None
  end.

(** Reads the longest prefix of digits; [None] when it is empty. *)
Fixpoint read_digits (radix : Z) (s : string) (acc : option Z) : option Z :=
  match s with
  | String c s' =>
      match digit_value radix c with
      | Some d => read_digits radix s' (Some (radix * default 0 acc + d))
      | None => acc
      end
  | EmptyString => acc
  end.

(** [parseInt(s)] with the radix left out. *)
Definition parseInt_string (s : string) : Number :=
  let s := trim_start s in
  let '(negative, s) :=
    match s with
    | String "-" s' => (true, s')
    | String "+" s' => (false, s')
    | _ => (false, s)
    end in
  let '(radix, s) :=
    match s with
    | String "0" (String "x" s') => (16, s')
    | String "0" (String "X" s') => (16, s')
    | _ => (10, s)
    end in
  match read_digits radix s None with
  | None => NaN
  | Some m => to_double (if negative then - m else m)
  end.

(** *** Number::toString

    The text of a finite Number is made of the fewest decimal digits that
    read back as the same double, followed by zeros, or by an exponent
    from [10 ^ 21] on. *)

Definition digit_count (z : Z) : Z := Z.of_nat (String.length (decimal z)).

(** The least [k] (from [k] upwards) and the [k]-digit [s] with
    [to_double (s * 10 ^ (n - k)) = Fin a]; of two such [s] the nearer. *)
Fixpoint shortest_digits (fuel : nat) (k n a : Z) : Z * Z :=
  match fuel with
  | O => (a, 0)
  | S fuel' =>
      let p := Z.max 0 (n - k) in
      let lo := a / 10 ^ p in
      let hi := lo + 1 in
      let lo_ok := bool_decide (to_double (lo * 10 ^ p) = Fin a) in
      let hi_ok := bool_decide (to_double (hi * 10 ^ p) = Fin a) in
      if lo_ok && hi_ok then
        (if a - lo * 10 ^ p <=? hi * 10 ^ p - a then lo else hi, p)
      else if lo_ok then (lo, p)
      else if hi_ok then (hi, p)
      else shortest_digits fuel' (k + 1) n a
  end.

Fixpoint strip_zeros (fuel : nat) (s p : Z) : Z * Z :=
  match fuel with
  | O => (s, p)
  | S fuel' =>
      if (0 <? s) && (s mod 10 =? 0) then strip_zeros fuel' (s / 10) (p + 1)
      else (s, p)
  end.

Fixpoint zeros (n : nat) : string :=
  match n with
  | O => ""
  | S n' => String "0" (zeros n')
  end.

Definition Number_toString (x : Number) : string :=
  match x with
  | NaN => "NaN"
  | Infinity false => "Infinity"
  | Infinity true => "-Infinity"
  | Fin z =>
      let sign := if z <? 0 then "-" else "" in
      let a := Z.abs z in
      if a =? 0 then "0"
      else
        let n := digit_count a in
        let '(s, p) := shortest_digits (Z.to_nat n) 1 n a in
        let '(s, p) := strip_zeros (Z.to_nat n) s p in
        let digits := decimal s in
        let n := digit_count s + p in
        if n <=? 21 then sign +:+ digits +:+ zeros (Z.to_nat p)
        else
          match digits with
          | String d "" => sign +:+ String d "" +:+ "e+" +:+ decimal (n - 1)
          | String d rest =>
              sign +:+ String d "" +:+ "." +:+ rest +:+ "e+" +:+ decimal (n - 1)
          | EmptyString => sign
          end
  end.

(** ToString.  [String(date)] starts with the English name of a weekday;
    the model keeps that first letter only, which is all [parseInt] can
    see of it. *)
Definition ToString (v : Value) : string :=
  match v with
  | VUndefined => "undefined"
  | VNull => "null"
  | VBool true => "true"
  | VBool false => "false"
  | VNum n => Number_toString n
  | VStr s => s
  | VObjectId o => toHexString o
  | VDate _ => "D"
  end.

(** [parseInt(v)]. *)
Definition parseInt (v : Value) : Number := parseInt_string (ToString v).

(** *** String.prototype.split on a one-character separator *)

Fixpoint split_on (sep : ascii) (s : string) : list string :=
  match s with
  | EmptyString => [""]
  | String c s' =>
      if Ascii.eqb c sep then "" :: split_on sep s'
      else
        match split_on sep s' with
        | w :: ws => String c w :: ws
        | [] => [String c ""]
        end
  end.

(** ** JSON bodies and responses *)

#[local] Unset Elimination Schemes.
Inductive Json :=
| JVal (v : Value)
| JObj (fields : list (string * Json))
| JArr (items : list Json).
#[local] Set Elimination Schemes.

(** [res.status(status).json(body)]; the body is the value handed to
    [res.json] or [res.send]. *)
Record Response := { status : Z; body : Json }.

Definition json (status : Z) (body : Json) : Response :=
  {| status := status; body := body |}.

(** The object [{ message: m }]. *)
Definition message (m : string) : Json := JObj [("message", JVal (VStr m))].

(** [o.k] on an object literal; [None] when the object has no such key. *)
Definition member (k : string) (o : Json) : option Json :=
  match o with
  | JObj fields => snd <$> List.find (λ kv, String.eqb (fst kv) k) fields
  | _ => None
  end.

(** The keys of an object, in the order written. *)
Definition keys (o : Json) : list string :=
  match o with
  | JObj fields => fst <$> fields
  | _ => []
  end.

(** ** The document store *)

Abbreviation Document := (gmap string Value).
Definition Collection := list Document.

(** [d.k]: [undefined] when the field is absent. *)
Definition get (d : Document) (k : string) : Value := default VUndefined (d !! k).

(** What the driver writes for a value: [undefined] is sent as null. *)
Definition bson (v : Value) : Value :=
  match v with
  | VUndefined => VNull
  | _ => v
  end.

Definition doc_json (d : Document) : Json :=
  JObj ((λ kv, (fst kv, JVal (snd kv))) <$> map_to_list d).

(** A call either returns or throws an error with a message. *)
Inductive Result (A : Type) :=
| Returns (a : A)
| Throws (error : string).
Arguments Returns {A} a.
Arguments Throws {A} error.

(** *** Filters: equality on fields; null also matches an absent field *)

Definition Filter := list (string * Value).

Definition matches (q : Filter) (d : Document) : bool :=
  forallb (λ kv, bool_decide (bson (snd kv) = bson (get d (fst kv)))) q.

Definition findOne (q : Filter) (c : Collection) : option Document :=
  List.find (matches q) c.

Definition find (q : Filter) (c : Collection) : list Document :=
  List.filter (matches q) c.

(** *** The BSON comparison order used by [sort] *)

Fixpoint lex_leb (l1 l2 : list Z) : bool :=
  match l1, l2 with
  | [], _ => true
  | _ :: _, [] => false
  | x :: l1', y :: l2' => (x <? y) || ((x =? y) && lex_leb l1' l2')
  end.

Definition string_codes (s : string) : list Z :=
  (λ c, Z.of_nat (nat_of_ascii c)) <$> list_ascii_of_string s.

(** The type bracket (null, numbers, strings, ObjectId, booleans, dates),
    then the value inside the bracket; NaN sorts below every number. *)
Definition bson_key (v : Value) : list Z :=
  match v with
  | VUndefined | VNull => [2]
  | VNum NaN => [3; 0]
  | VNum (Infinity true) => [3; 1]
  | VNum (Fin z) => [3; 2; z]
  | VNum (Infinity false) => [3; 3]
  | VStr s => 4 :: string_codes s
  | VObjectId o => 8 :: string_codes (toHexString o)
  | VBool b => [9; if b then 1 else 0]
  | VDate t => [10; t]
  end.

Definition bson_le (v w : Value) : Prop := lex_leb (bson_key v) (bson_key w) = true.

#[global] Instance bson_le_dec v w : Decision (bson_le v w).
Proof. unfold bson_le. apply _. Defined.

(** [k] descending: [a] comes before [b] when [b.k <= a.k]; an absent
    field sorts as null. *)
Definition descending (k : string) (a b : Document) : Prop :=
  bson_le (get b k) (get a k).

#[global] Instance descending_dec k a b : Decision (descending k a b).
Proof. unfold descending. apply _. Defined.

(** [cursor.sort({ k: -1 })]. *)
Definition sort_descending (k : string) (c : list Document) : list Document :=
  merge_sort (descending k) c.

(** *** Writes *)

(** [insertOne(doc)]: the driver gives the document the fresh [_id], the
    server refuses an [_id] already in the collection. *)
Definition insertOne (fresh : ObjectId) (doc : Document) (c : Collection)
  : Result (ObjectId * Collection) :=
  if existsb (λ d, bool_decide (get d "_id" = VObjectId fresh)) c
  then Throws "DuplicateKey"
  else Returns (fresh, c ++ [<["_id" := VObjectId fresh]> (bson <$> doc)]).

Inductive Update :=
| Inc (field : string) (amount : Z)      (* { $inc: { field: amount } } *)
| Set_ (fields : Document).              (* { $set: fields } *)

Definition Number_add (n : Number) (k : Z) : Number :=
  match n with
  | NaN => NaN
  | Infinity s => Infinity s
  | Fin z => to_double (z + k)
  end.

(** **** Field paths

    The name of a field in an update is a path, names joined by dots,
    into embedded documents.  A document holds an embedded document as
    the fields below its path: [{ a: { b: 1 } }] is the document whose
    one field is [a.b]. *)

Definition path (k : string) : list string := split_on "." k.

(** [k'] lies below [k]: its path goes on after that of [k]. *)
Definition below (k k' : string) : bool := String.prefix (k +:+ ".") k'.

(** [$] and [$[...]], the positional operators. *)
Definition positional (name : string) : bool :=
  String.eqb name "$"
  || (String.prefix "$[" name
      && if last (list_ascii_of_string name) is Some "]"%char then true else false).

(** A path [$set] can write to: no empty name on it, no [$] at its start
    and no positional operator (the filter of the routes matches no
    array), and no NUL, which the driver refuses to serialise. *)
Definition updatable (k : string) : bool :=
  forallb (λ name, negb (String.eqb name "") && negb (positional name)) (path k)
  && negb (String.prefix "$" k)
  && forallb (λ c, negb (Ascii.eqb c "000")) (list_ascii_of_string k).

(** What [{ $set: fields }] needs on the document [d]: every name can be
    written to, no name lies below another, no path runs through a field
    in which [d] holds a value, and [_id] keeps the value it has. *)
Definition set_allowed (fields d : Document) : Prop :=
  map_Forall (λ k v,
    updatable k = true
    ∧ map_Forall (λ k' _, below k k' = false) fields
    ∧ map_Forall (λ p _, below p k = false) d
    ∧ (k = "_id" → d !! "_id" = Some v)) fields.

#[global] Instance set_allowed_dec fields d : Decision (set_allowed fields d).
Proof. unfold set_allowed. apply _. Defined.

(** [d] holds an embedded document at [k]. *)
Definition embedded (d : Document) (k : string) : Prop :=
  d !! k = None ∧ map_Exists (λ k' _, below k k' = true) d.

#[global] Instance embedded_dec d k : Decision (embedded d k).
Proof. unfold embedded. apply _. Defined.

(** The fields of [d] that [$set] drops: those of an embedded document
    whose place a field of the update takes. *)
Definition replaced (fields d : Document) (k' : string) : Prop :=
  map_Exists (λ k _, d !! k = None ∧ below k k' = true) fields.

#[global] Instance replaced_dec fields d k' : Decision (replaced fields d k').
Proof. unfold replaced. apply _. Defined.

(** The document after the update, or the write error: [$inc] of a field
    that holds something other than a number, [$set] that is not allowed
    (MongoDB 5.0 and later, which the stable API of the client asks
    for). *)
Definition apply_update (u : Update) (d : Document) : Result Document :=
  match u with
  | Inc k amount =>
      match d !! k with
      | None =>
          if decide (embedded d k) then Throws "TypeMismatch"
          else Returns (<[k := VNum (to_double amount)]> d)
      | Some (VNum n) => Returns (<[k := VNum (Number_add n amount)]> d)
      | Some _ => Throws "TypeMismatch"
      end
  | Set_ fields =>
      let fields := bson <$> fields in
      if decide (set_allowed fields d)
      then Returns (fields ∪ filter (λ kv, ¬ replaced fields d kv.1) d)
      else Throws "WriteError"
  end.

Record UpdateResult := { matchedCount : Z; modifiedCount : Z }.

(** [updateOne(q, u)]: the first document that matches is updated in
    place; it counts as modified when the update changed it. *)
Fixpoint updateOne (q : Filter) (u : Update) (c : Collection)
  : Result (UpdateResult * Collection) :=
  match c with
  | [] => Returns ({| matchedCount := 0; modifiedCount := 0 |}, [])
  | d :: c' =>
      if matches q d then
        match apply_update u d with
        | Returns d' =>
            Returns ({| matchedCount := 1;
                        modifiedCount := if bool_decide (d' = d) then 0 else 1 |},
                     d' :: c')
        | Throws e => Throws e
        end
      else
        match updateOne q u c' with
        | Returns (r, c'') => Returns (r, d :: c'')
        | Throws e => Throws e
        end
  end.

Record DeleteResult := { deletedCount : Z }.

(** [deleteOne(q)]: the first document that matches is removed. *)
Fixpoint deleteOne (q : Filter) (c : Collection) : DeleteResult * Collection :=
  match c with
  | [] => ({| deletedCount := 0 |}, [])
  | d :: c' =>
      if matches q d then ({| deletedCount := 1 |}, c')
      else (fst (deleteOne q c'), d :: snd (deleteOne q c'))
  end.

(** ** The libraries the handlers call *)

Class Platform := {
  (** [new ObjectId(v)]: throws when [v] is not a valid id. *)
  new_ObjectId : Value → Result ObjectId;
  (** [bcrypt.hash(data, rounds)], with the salt it draws. *)
  bcrypt_hash : Value → Z → string → Result string;
  (** [bcrypt.compare(data, hash)]. *)
  bcrypt_compare : Value → Value → Result bool;
  (** [jwt.sign(payload, secret, { expiresIn: '7d' })] at a given time. *)
  jwt_sign : Document → Value → Time → Result string;
  (** [jwt.verify(token, secret)] at a given time: throws on a malformed
      token, a bad signature, an expired token. *)
  jwt_verify : string → Value → Time → Result Document;
}.

(** ** Requests, server state and the handler monad *)

Record Request := {
  authorization : option string;   (* req.headers.authorization *)
  params_id : string;              (* req.params.id *)
  req_body : Document;             (* req.body *)
  user : Json;                     (* req.user *)
}.

(** The module-level variables: the collections are [undefined] until the
    connection is made. *)
Record Server := {
  env_JWT_SECRET : Value;                   (* process.env.JWT_SECRET *)
  usersCollection : option Collection;
  eventsCollection : option Collection;
}.

(** What a request draws from outside: the clock, the id and the salt
    generated for it. *)
Record Env := { now : Time; fresh : ObjectId; salt : string }.

Inductive Outcome (A : Type) :=
| Next (a : A)              (* the block goes on *)
| Sent (r : Response)       (* [return res. ...] *)
| Thrown (error : string).  (* an exception *)
Arguments Next {A} a.
Arguments Sent {A} r.
Arguments Thrown {A} error.

Definition Handler (A : Type) : Type := Server → Outcome A * Server.

#[global] Instance Handler_ret : MRet Handler := λ A a σ, (Next a, σ).

#[global] Instance Handler_bind : MBind Handler := λ A B f m σ,
  match m σ with
  | (Next a, σ') => f a σ'
  | (Sent r, σ') => (Sent r, σ')
  | (Thrown e, σ') => (Thrown e, σ')
  end.

Definition send {A} (r : Response) : Handler A := λ σ, (Sent r, σ).

Definition call {A} (r : Result A) : Handler A := λ σ,
  match r with
  | Returns a => (Next a, σ)
  | Throws e => (Thrown e, σ)
  end.

(** [try { block } catch (err) { handler }], where every path of the block
    ends in a response. *)
Definition try_catch (block : Handler Response) (handler : string → Response)
  : Server → Response * Server := λ σ,
  match block σ with
  | (Next r, σ') | (Sent r, σ') => (r, σ')
  | (Thrown e, σ') => (handler e, σ')
  end.

(** Reading a method of a collection variable that is still [undefined]
    is a TypeError. *)
Definition users : Handler Collection := λ σ,
  match usersCollection σ with
  | Some c => (Next c, σ)
  | None => (Thrown "TypeError", σ)
  end.

Definition events : Handler Collection := λ σ,
  match eventsCollection σ with
  | Some c => (Next c, σ)
  | None => (Thrown "TypeError", σ)
  end.

Definition set_users (c : Collection) : Handler () := λ σ,
  (Next (), {| env_JWT_SECRET := env_JWT_SECRET σ;
               usersCollection := Some c;
               eventsCollection := eventsCollection σ |}).

Definition set_events (c : Collection) : Handler () := λ σ,
  (Next (), {| env_JWT_SECRET := env_JWT_SECRET σ;
               usersCollection := usersCollection σ;
               eventsCollection := Some c |}).

(** [usersCollection.findOne(q)]; the argument is evaluated after the
    method is read. *)
Definition users_findOne (q : Handler Filter) : Handler (option Document) :=
  c ← users; q ← q; mret (findOne q c).

(** [usersCollection.insertOne(doc)]. *)
Definition users_insertOne (fresh : ObjectId) (doc : Document) : Handler ObjectId :=
  c ← users;
  r ← call (insertOne fresh doc c);
  set_users (snd r);; mret (fst r).

(** [eventsCollection.insertOne(doc)]. *)
Definition events_insertOne (fresh : ObjectId) (doc : Document) : Handler ObjectId :=
  c ← events;
  r ← call (insertOne fresh doc c);
  set_events (snd r);; mret (fst r).

(** [eventsCollection.updateOne(q, u)]. *)
Definition events_updateOne (q : Handler Filter) (u : Update) : Handler UpdateResult :=
  c ← events;
  q ← q;
  r ← call (updateOne q u c);
  set_events (snd r);; mret (fst r).

(** [eventsCollection.deleteOne(q)]. *)
Definition events_deleteOne (q : Handler Filter) : Handler DeleteResult :=
  c ← events;
  q ← q;
  set_events (snd (deleteOne q c));; mret (fst (deleteOne q c)).

(** ** The authentication middleware (the same text in the three files) *)

Section middleware.
Context {lib : Platform}.

(** [authenticateJWT(req, res, next)], over the file's [JWT_SECRET];
    [next] is the route behind the middleware and runs inside the
    [try] block. *)
Definition authenticateJWT (JWT_SECRET : Value) (next : Request → Handler Response)
    (env : Env) (req : Request) : Server → Response * Server := λ σ,
  match authorization req with
  | None | Some "" => (json 401 (message "Authorization header missing"), σ)
  | Some authHeader =>
      match split_on " " authHeader !! 1%nat with
      | None | Some "" => (json 401 (message "Token missing"), σ)
      | Some token =>
          try_catch
            (decoded ← call (jwt_verify token JWT_SECRET (now env));
             user ← users_findOne
               (oid ← call (new_ObjectId (get decoded "userId"));
                mret [("_id", VObjectId oid)]);
             match user with
             | None => send (json 401 (message "User not found"))
             | Some user =>
                 next {| authorization := authorization req;
                         params_id := params_id req;
                         req_body := req_body req;
                         user := JObj [("id", JVal (get user "_id"));
                                       ("username", JVal (get user "username"));
                                       ("email", JVal (get user "email"));
                                       ("photoUrl", JVal (get user "photoUrl"))] |}
             end)
            (λ err, json 403 (message "Invalid or expired token")) σ
      end
  end.

(** [(req, res) => { res.json(req.user) }]. *)
Definition send_user (req : Request) : Handler Response :=
  mret (json 200 (user req)).
End middleware.

(** [id.toString()]. *)
Definition toString_method (v : Value) : Result string :=
  match v with
  | VUndefined | VNull => Throws "TypeError"
  | _ => Returns (ToString v)
  end.

(** ** [src/unnamed/part_000] *)

Module Part000.
Section routes.
Context {lib : Platform}.

(** [const JWT_SECRET = process.env.JWT_SECRET]. *)
Definition JWT_SECRET (σ : Server) : Value := env_JWT_SECRET σ.

(** [POST /signup]. *)
Definition signup (env : Env) (req : Request) : Server → Response * Server := λ σ,
  if usersCollection σ is None then (json 503 (message "Server not ready"), σ)
  else
    let username := get (req_body req) "username" in
    let email := get (req_body req) "email" in
    let photoUrl := get (req_body req) "photoUrl" in
    let password := get (req_body req) "password" in
    try_catch
      (existingUser ← users_findOne (mret [("email", email)]);
       if existingUser is Some _ then send (json 409 (message "Email already in use"))
       else
         hashedPassword ← call (bcrypt_hash password 10 (salt env));
         insertedId ← users_insertOne (fresh env)
           {[ "username" := username;
              "email" := email;
              "photoUrl" := photoUrl;
              "password" := VStr hashedPassword;
              "createdAt" := VDate (now env) ]};
         token ← call (jwt_sign {[ "userId" := VObjectId insertedId; "email" := email ]}
                                (JWT_SECRET σ) (now env));
         mret (json 201
           (JObj [("message", JVal (VStr "Signup successful"));
                  ("token", JVal (VStr token));
                  ("user", JObj [("id", JVal (VObjectId insertedId));
                                 ("username", JVal username);
                                 ("email", JVal email);
                                 ("photoUrl", JVal photoUrl)])])))
      (λ err, json 500 (message "Internal server error")) σ.

(** [POST /login]. *)
Definition login (env : Env) (req : Request) : Server → Response * Server := λ σ,
  if usersCollection σ is None then (json 503 (message "Try again or reload"), σ)
  else
    let email := get (req_body req) "email" in
    let password := get (req_body req) "password" in
    try_catch
      (user ← users_findOne (mret [("email", email)]);
       match user with
       | None => send (json 401 (message "User not found"))
       | Some user =>
           isMatch ← call (bcrypt_compare password (get user "password"));
           if negb isMatch then send (json 401 (message "Invalid password"))
           else
             userId ← call (toString_method (get user "_id"));
             token ← call (jwt_sign {[ "userId" := VStr userId;
                                       "email" := get user "email" ]}
                                    (JWT_SECRET σ) (now env));
             mret (json 200
               (JObj [("message", JVal (VStr "Login successful"));
                      ("token", JVal (VStr token));
                      ("user", JObj [("id", JVal (get user "_id"));
                                     ("username", JVal (get user "username"));
                                     ("email", JVal (get user "email"));
                                     ("photoUrl", JVal (js_or (get user "photoUrl") VNull))])]))
       end)
      (λ err, json 500 (JObj [("message", JVal (VStr "Internal server error"));
                              ("error", JVal (VStr err))])) σ.

(** [GET /api/user/me]. *)
Definition user_me (env : Env) (req : Request) : Server → Response * Server := λ σ,
  authenticateJWT (JWT_SECRET σ) send_user env req σ.

(** [POST /api/events]. *)
Definition add_event (env : Env) (req : Request) : Server → Response * Server := λ σ,
  if eventsCollection σ is None then (json 503 (message "Server not ready"), σ)
  else
    let title := get (req_body req) "title" in
    let name := get (req_body req) "name" in
    let dateTime := get (req_body req) "dateTime" in
    let location := get (req_body req) "location" in
    let description := get (req_body req) "description" in
    let attendeeCount := get (req_body req) "attendeeCount" in
    let email := get (req_body req) "email" in
    if negb (truthy title) || negb (truthy name) || negb (truthy dateTime)
       || negb (truthy location) || negb (truthy description) || negb (truthy email)
    then (json 400 (message "All fields including email are required"), σ)
    else
      try_catch
        (insertedId ← events_insertOne (fresh env)
           {[ "title" := title;
              "name" := name;
              "dateTime" := dateTime;
              "location" := location;
              "description" := description;
              "attendeeCount" := js_or (VNum (parseInt attendeeCount)) (VNum (Fin 0));
              "email" := email;
              "createdAt" := VDate (now env) ]};
         mret (json 201 (JObj [("message", JVal (VStr "Event added successfully"));
                               ("eventId", JVal (VObjectId insertedId))])))
        (λ err, json 500 (message "Internal server error")) σ.

(** [GET /api/events]. *)
Definition get_events (env : Env) (req : Request) : Server → Response * Server := λ σ,
  if eventsCollection σ is None then (json 503 (message "Server not ready"), σ)
  else
    try_catch
      (c ← events;
       mret (json 200 (JArr (doc_json <$> sort_descending "createdAt" (find [] c)))))
      (λ err, json 500 (message "Internal server error")) σ.

(** [PATCH /api/events/join/:id]. *)
Definition join_event (env : Env) (req : Request) : Server → Response * Server := λ σ,
  if eventsCollection σ is None then (json 503 (message "Server not ready"), σ)
  else
    let id := params_id req in
    try_catch
      (result ← events_updateOne
         (oid ← call (new_ObjectId (VStr id)); mret [("_id", VObjectId oid)])
         (Inc "attendeeCount" 1);
       if modifiedCount result =? 0 then send (json 404 (message "Event not found"))
       else mret (json 200 (message "Joined event successfully")))
      (λ err, json 500 (message "Internal server error")) σ.

(** [PUT /api/events/:id]. *)
Definition update_event (env : Env) (req : Request) : Server → Response * Server := λ σ,
  if eventsCollection σ is None then (json 503 (message "Server not ready"), σ)
  else
    let id := params_id req in
    let updatedData := req_body req in
    try_catch
      (result ← events_updateOne
         (oid ← call (new_ObjectId (VStr id)); mret [("_id", VObjectId oid)])
         (Set_ updatedData);
       if 0 <? modifiedCount result
       then mret (json 200 (message "Event updated successfully"))
       else mret (json 404 (message "Event not found or already up to date")))
      (λ error, json 500 (message "Failed to update event")) σ.

(** [GET /api/events/:email]; [email] is [req.params.email]. *)
Definition my_events (env : Env) (email : string) (req : Request)
  : Server → Response * Server := λ σ,
  if eventsCollection σ is None then (json 503 (message "Server not ready"), σ)
  else
    try_catch
      (c ← events;
       mret (json 200 (JArr (doc_json <$> find [("email", VStr email)] c))))
      (λ err, json 500 (message "Internal server error")) σ.

(** [DELETE /api/events/:id]. *)
Definition delete_event (env : Env) (req : Request) : Server → Response * Server := λ σ,
  if eventsCollection σ is None then (json 503 (message "Server not ready"), σ)
  else
    let id := params_id req in
    try_catch
      (result ← events_deleteOne
         (oid ← call (new_ObjectId (VStr id)); mret [("_id", VObjectId oid)]);
       if 0 <? deletedCount result
       then mret (json 200 (message "Event deleted successfully"))
       else mret (json 404 (message "Event not found")))
      (λ error, json 500 (message "Failed to delete event")) σ.
End routes.
End Part000.

(** ** [src/unnamed/part_001]; its [authenticateJWT], [/signup], [/login]
    and [/api/user/me] are also the whole of [src/index.js] *)

Module Part001.
Section routes.
Context {lib : Platform}.

(** [const JWT_SECRET = process.env.JWT_SECRET || 'supersecret']. *)
Definition JWT_SECRET (σ : Server) : Value :=
  js_or (env_JWT_SECRET σ) (VStr "supersecret").

(** [POST /signup]. *)
Definition signup (env : Env) (req : Request) : Server → Response * Server := λ σ,
  let username := get (req_body req) "username" in
  let email := get (req_body req) "email" in
  let photoUrl := get (req_body req) "photoUrl" in
  let password := get (req_body req) "password" in
  try_catch
    (existingUser ← users_findOne (mret [("email", email)]);
     if existingUser is Some _ then send (json 409 (message "Email already in use"))
     else
       hashedPassword ← call (bcrypt_hash password 10 (salt env));
       insertedId ← users_insertOne (fresh env)
         {[ "username" := username;
            "email" := email;
            "photoUrl" := photoUrl;
            "password" := VStr hashedPassword;
            "createdAt" := VDate (now env) ]};
       mret (json 201 (JObj [("message", JVal (VStr "User registered successfully"));
                             ("userId", JVal (VObjectId insertedId))])))
    (λ err, json 500 (message "Internal server error")) σ.

(** [POST /login]. *)
Definition login (env : Env) (req : Request) : Server → Response * Server := λ σ,
  let username := get (req_body req) "username" in
  let password := get (req_body req) "password" in
  try_catch
    (user ← users_findOne (mret [("username", username)]);
     match user with
     | None => send (json 401 (message "User not found"))
     | Some user =>
         isMatch ← call (bcrypt_compare password (get user "password"));
         if negb isMatch then send (json 401 (message "Invalid password"))
         else
           token ← call (jwt_sign {[ "userId" := get user "_id";
                                     "username" := get user "username" ]}
                                  (JWT_SECRET σ) (now env));
           mret (json 200
             (JObj [("message", JVal (VStr "Login successful"));
                    ("token", JVal (VStr token));
                    ("user", JObj [("id", JVal (get user "_id"));
                                   ("username", JVal (get user "username"));
                                   ("email", JVal (get user "email"));
                                   ("photoUrl", JVal (get user "photoUrl"))])]))
     end)
    (λ err, json 500 (message "Internal server error")) σ.

(** [GET /api/user/me]. *)
Definition user_me (env : Env) (req : Request) : Server → Response * Server := λ σ,
  authenticateJWT (JWT_SECRET σ) send_user env req σ.

(** [POST /api/events]. *)
Definition add_event (env : Env) (req : Request) : Server → Response * Server := λ σ,
  let title := get (req_body req) "title" in
  let name := get (req_body req) "name" in
  let dateTime := get (req_body req) "dateTime" in
  let location := get (req_body req) "location" in
  let description := get (req_body req) "description" in
  let attendeeCount := get (req_body req) "attendeeCount" in
  let email := get (req_body req) "email" in
  if negb (truthy title) || negb (truthy name) || negb (truthy dateTime)
     || negb (truthy location) || negb (truthy description) || negb (truthy email)
  then (json 400 (message "All fields including email are required"), σ)
  else
    try_catch
      (insertedId ← events_insertOne (fresh env)
         {[ "title" := title;
            "name" := name;
            "dateTime" := dateTime;
            "location" := location;
            "description" := description;
            "attendeeCount" := js_or (VNum (parseInt attendeeCount)) (VNum (Fin 0));
            "email" := email;
            "createdAt" := VDate (now env) ]};
       mret (json 201 (JObj [("message", JVal (VStr "Event added successfully"));
                             ("eventId", JVal (VObjectId insertedId))])))
      (λ err, json 500 (message "Internal server error")) σ.

(** [GET /api/events]. *)
Definition get_events (env : Env) (req : Request) : Server → Response * Server := λ σ,
  try_catch
    (c ← events;
     mret (json 200 (JArr (doc_json <$> sort_descending "createdAt" (find [] c)))))
    (λ err, json 500 (message "Internal server error")) σ.

(** [PATCH /api/events/join/:id]. *)
Definition join_event (env : Env) (req : Request) : Server → Response * Server := λ σ,
  let id := params_id req in
  try_catch
    (result ← events_updateOne
       (oid ← call (new_ObjectId (VStr id)); mret [("_id", VObjectId oid)])
       (Inc "attendeeCount" 1);
     if modifiedCount result =? 0 then send (json 404 (message "Event not found"))
     else mret (json 200 (message "Joined event successfully")))
    (λ err, json 500 (message "Internal server error")) σ.

(** [PUT /api/events/:id]. *)
Definition update_event (env : Env) (req : Request) : Server → Response * Server := λ σ,
  let id := params_id req in
  let updatedData := req_body req in
  try_catch
    (result ← events_updateOne
       (oid ← call (new_ObjectId (VStr id)); mret [("_id", VObjectId oid)])
       (Set_ updatedData);
     if 0 <? modifiedCount result
     then mret (json 200 (message "Event updated successfully"))
     else mret (json 404 (message "Event not found or already up to date")))
    (λ error, json 500 (message "Failed to update event")) σ.

(** [GET /api/events/:email]; [email] is [req.params.email].  The route
    has no [try]: what the body throws leaves the handler. *)
Definition my_events (env : Env) (email : string) (req : Request) : Handler Response :=
  let params := if truthy (VStr email) then [("email", VStr email)] else [] in
  result ← (c ← events; mret (find params c));
  mret (json 200 (JArr (doc_json <$> result))).

(** [DELETE /api/events/:id]. *)
Definition delete_event (env : Env) (req : Request) : Server → Response * Server := λ σ,
  let id := params_id req in
  try_catch
    (result ← events_deleteOne
       (oid ← call (new_ObjectId (VStr id)); mret [("_id", VObjectId oid)]);
     if 0 <? deletedCount result
     then mret (json 200 (message "Event deleted successfully"))
     else mret (json 404 (message "Event not found")))
    (λ error, json 500 (message "Failed to delete event")) σ.
End routes.
End Part001.

(** ** The two revisions side by side *)

(** [part_001] also stands for [src/index.js], whose four routes are
    those of [part_001]. *)
Inductive Revision := part_000 | part_001.

Section by_revision.
Context {lib : Platform}.

Definition JWT_SECRET (rev : Revision) : Server → Value :=
  match rev with
  | part_000 => Part000.JWT_SECRET
  | part_001 => Part001.JWT_SECRET
  end.

Definition signup (rev : Revision) : Env → Request → Server → Response * Server :=
  match rev with
  | part_000 => Part000.signup
  | part_001 => Part001.signup
  end.

Definition login (rev : Revision) : Env → Request → Server → Response * Server :=
  match rev with
  | part_000 => Part000.login
  | part_001 => Part001.login
  end.

Definition user_me (rev : Revision) : Env → Request → Server → Response * Server :=
  match rev with
  | part_000 => Part000.user_me
  | part_001 => Part001.user_me
  end.
End by_revision.

(** ** The vocabulary of the statements *)

Definition required_fields : list string :=
  ["title"; "name"; "dateTime"; "location"; "description"; "email"].

(** A field the body does not have, or has as the empty string. *)
Definition absent_or_empty (b : Document) (k : string) : Prop :=
  b !! k = None ∨ b !! k = Some (VStr "").

Definition ValidationError : Response :=
  json 400 (message "All fields including email are required").

(** The document [POST /api/events] inserts. *)
Definition new_event (env : Env) (req : Request) : Document :=
  <["_id" := VObjectId (fresh env)]>
    (bson <$> ({[ "title" := get (req_body req) "title";
                  "name" := get (req_body req) "name";
                  "dateTime" := get (req_body req) "dateTime";
                  "location" := get (req_body req) "location";
                  "description" := get (req_body req) "description";
                  "attendeeCount" :=
                    js_or (VNum (parseInt (get (req_body req) "attendeeCount")))
                          (VNum (Fin 0));
                  "email" := get (req_body req) "email";
                  "createdAt" := VDate (now env) ]} : Document)).

Definition with_events (σ : Server) (c : Collection) : Server :=
  {| env_JWT_SECRET := env_JWT_SECRET σ;
     usersCollection := usersCollection σ;
     eventsCollection := Some c |}.

(** The decimal text of an integer, as [String(z)] writes it. *)
Definition integer_text (z : Z) : string :=
  if z <? 0 then String "-" (decimal (- z)) else decimal z.

(** What [parseInt(attendeeCount) || 0] stores. *)
Definition stored_count (attendeeCount : Value) : Number :=
  match parseInt attendeeCount with
  | NaN => Fin 0
  | n => n
  end.

(** [{ _id: new ObjectId(id) }]. *)
Definition by_id (oid : ObjectId) : Filter := [("_id", VObjectId oid)].

Definition NotFoundOrUpToDate : Response :=
  json 404 (message "Event not found or already up to date").

(** What [$set] makes of a document: the fields of the body, then those
    of the document that the body does not replace. *)
Definition merged (updatedData d : Document) : Document :=
  (bson <$> updatedData) ∪ filter (λ kv, ¬ replaced (bson <$> updatedData) d kv.1) d.

(** The requested content equals the current content: every field of
    the body is in the document with that value. *)
Definition up_to_date (updatedData d : Document) : Prop :=
  ∀ k v, updatedData !! k = Some v → d !! k = Some (bson v).

(** The body does not ask for another [_id] than the document has. *)
Definition keeps_id (updatedData d : Document) : Prop :=
  ∀ v, updatedData !! "_id" = Some v → d !! "_id" = Some (bson v).

(** The body is one that MongoDB lets [$set] apply to the document:
    every name of the body is a path that can be written to, no name of
    the body lies below another, no name lies below a field in which the
    document holds a value, and the [_id] is kept. *)
Definition settable (updatedData d : Document) : Prop :=
  (∀ k, is_Some (updatedData !! k) →
     updatable k = true
     ∧ (∀ k', is_Some (updatedData !! k') → below k k' = false)
     ∧ (∀ p, is_Some (d !! p) → below p k = false))
  ∧ keeps_id updatedData d.

(** The field [/login] looks the account up by. *)
Definition login_key (rev : Revision) : string :=
  match rev with
  | part_000 => "email"
  | part_001 => "username"
  end.

(** The filter of the lookup in [/login]. *)
Definition account_of (rev : Revision) (req : Request) : Filter :=
  [(login_key rev, get (req_body req) (login_key rev))].

(** The token of the [Authorization] header, when the middleware finds
    one: the second of the pieces between single spaces, not empty. *)
Definition bearer (req : Request) (token : string) : Prop :=
  ∃ authHeader,
    authorization req = Some authHeader
    ∧ split_on " " authHeader !! 1%nat = Some token
    ∧ token ≠ "".

(** The object the middleware builds from the user's document. *)
Definition identity (u : Document) : Json :=
  JObj [("id", JVal (get u "_id"));
        ("username", JVal (get u "username"));
        ("email", JVal (get u "email"));
        ("photoUrl", JVal (get u "photoUrl"))].

Definition InvalidToken : Response := json 403 (message "Invalid or expired token").

(** The filter of the lookup in [/signup]. *)
Definition by_email (req : Request) : Filter := [("email", get (req_body req) "email")].

(** The document [/signup] inserts. *)
Definition new_user (env : Env) (req : Request) (hashedPassword : string) : Document :=
  <["_id" := VObjectId (fresh env)]>
    (bson <$> ({[ "username" := get (req_body req) "username";
                  "email" := get (req_body req) "email";
                  "photoUrl" := get (req_body req) "photoUrl";
                  "password" := VStr hashedPassword;
                  "createdAt" := VDate (now env) ]} : Document)).

Definition with_users (σ : Server) (c : Collection) : Server :=
  {| env_JWT_SECRET := env_JWT_SECRET σ;
     usersCollection := Some c;
     eventsCollection := eventsCollection σ |}.

Definition DuplicateEmail : Response := json 409 (message "Email already in use").


(** The text of an ObjectId: 24 hexadecimal digits. *)
Definition is_hex (c : ascii) : bool :=
  if digit_value 16 c is Some _ then true else false.

Definition hex24 (s : string) : bool :=
  (Z.of_nat (String.length s) =? 24) && forallb is_hex (list_ascii_of_string s).

(** What every version of the [bson] library does with a string that is
    neither 24 hexadecimal digits nor 12 bytes long: the constructor
    throws.  (Before version 6 it takes a string of 12 bytes for the
    bytes of the id.) *)
Definition rejects_malformed_strings (lib : Platform) : Prop :=
  ∀ s, hex24 s = false → String.length s ≠ 12%nat →
       ∃ e, new_ObjectId (VStr s) = Throws e.

(** ** An implementation of the libraries to run the examples on

    The constructor follows [bson]: the text of an id is 24 hexadecimal
    digits, of either case; without an argument, with [null] or with a
    number, it generates an id; anything else is refused.  The hash of a
    password is the salt, a [$] and the password.  A token is ["jwt:"]
    followed by the user id, or ["jwt"] alone for a payload that names no
    user, and needs a secret to be signed or verified. *)

Definition to_lower (c : ascii) : ascii :=
  if (65 <=? byte c) && (byte c <=? 90) then ascii_of_nat (Z.to_nat (byte c + 32)) else c.

Fixpoint lowercase (s : string) : string :=
  match s with
  | String c s' => String (to_lower c) (lowercase s')
  | EmptyString => ""
  end.

(** The id the constructor generates when it is given none. *)
Definition demo_generated : ObjectId := Oid "ffffffffffffffffffffffff".

Definition demo_new_ObjectId (v : Value) : Result ObjectId :=
  match v with
  | VStr s => if hex24 s then Returns (Oid (lowercase s)) else Throws "BSONError"
  | VObjectId o => Returns o
  | VUndefined | VNull | VNum _ => Returns demo_generated
  | VBool _ | VDate _ => Throws "BSONError"
  end.

Definition demo_hash (data : Value) (rounds : Z) (salt : string) : Result string :=
  match data with
  | VStr p => Returns (salt +:+ "$" +:+ p)
  | _ => Throws "data and salt arguments required"
  end.

Fixpoint after_dollar (s : string) : string :=
  match s with
  | String "$" s' => s'
  | String _ s' => after_dollar s'
  | EmptyString => ""
  end.

Definition demo_compare (data hash : Value) : Result bool :=
  match data, hash with
  | VStr p, VStr h => Returns (String.eqb (after_dollar h) p)
  | _, _ => Throws "data and hash arguments required"
  end.

Definition demo_sign (payload : Document) (secret : Value) (t : Time) : Result string :=
  if truthy secret then Returns ("jwt:" +:+ ToString (get payload "userId"))
  else Throws "secretOrPrivateKey must have a value".

Definition demo_verify (token : string) (secret : Value) (t : Time) : Result Document :=
  match token with
  | String "j" (String "w" (String "t" (String ":" id))) =>
      if truthy secret then Returns {[ "userId" := VStr id ]}
      else Throws "secret or public key must be provided"
  | String "j" (String "w" (String "t" EmptyString)) =>
      if truthy secret then Returns ∅
      else Throws "secret or public key must be provided"
  | _ => Throws "jwt malformed"
  end.

Definition demo : Platform := {|
  new_ObjectId := demo_new_ObjectId;
  bcrypt_hash := demo_hash;
  bcrypt_compare := demo_compare;
  jwt_sign := demo_sign;
  jwt_verify := demo_verify;
|}.

(** A connected server with no documents, and a request to fill in. *)
Definition empty_server : Server :=
  {| env_JWT_SECRET := VStr "s3cret";
     usersCollection := Some [];
     eventsCollection := Some [] |}.

Definition request (authorization : option string) (id : string) (body : Document) : Request :=
  {| authorization := authorization; params_id := id; req_body := body;
     user := JVal VUndefined |}.

Definition env_at (t : Time) (id : string) : Env :=
  {| now := t; fresh := Oid id; salt := "salt" |}.

(** A stored account, whose password is [wonderland], and two events. *)
Definition alice : Document :=
  {[ "_id" := VObjectId (Oid "0123456789abcdef01234567");
     "username" := VStr "alice";
     "email" := VStr "alice@example.org";
     "photoUrl" := VNull;
     "password" := VStr "salt$wonderland";
     "createdAt" := VDate 1000 ]}.

Definition picnic : Document :=
  {[ "_id" := VObjectId (Oid "aaaaaaaaaaaaaaaaaaaaaaaa");
     "title" := VStr "Picnic"; "name" := VStr "Asha";
     "dateTime" := VStr "2025-07-01T10:00"; "location" := VStr "Park";
     "description" := VStr "Bring food"; "attendeeCount" := VNum (Fin 3);
     "email" := VStr "asha@example.org"; "createdAt" := VDate 2000 ]}.

Definition concert : Document :=
  {[ "_id" := VObjectId (Oid "bbbbbbbbbbbbbbbbbbbbbbbb");
     "title" := VStr "Concert"; "name" := VStr "Bo";
     "dateTime" := VStr "2025-08-01T20:00"; "location" := VStr "Hall";
     "description" := VStr "Strings"; "attendeeCount" := VNum (Fin 0);
     "email" := VStr "bo@example.org"; "createdAt" := VDate 3000 ]}.

Definition sample_server : Server :=
  {| env_JWT_SECRET := VStr "s3cret";
     usersCollection := Some [alice];
     eventsCollection := Some [picnic; concert] |}.

Definition credentials (key identifier password : string) : Document :=
  {[ key := VStr identifier; "password" := VStr password ]}.

(** Further samples: requests about the picnic, a newcomer, a server
    without a secret and one that is not connected. *)
Definition about_picnic (body : Document) : Request :=
  request None "aaaaaaaaaaaaaaaaaaaaaaaa" body.

Definition later : Env := env_at 5000 "cccccccccccccccccccccccc".

Definition newcomer (username email password : string) : Document :=
  {[ "username" := VStr username; "email" := VStr email; "password" := VStr password ]}.

Definition no_secret : Server :=
  {| env_JWT_SECRET := VUndefined;
     usersCollection := Some [alice];
     eventsCollection := Some [picnic; concert] |}.

Definition unconnected : Server :=
  {| env_JWT_SECRET := VStr "s3cret";
     usersCollection := None;
     eventsCollection := None |}.

(** ** The claims the code departs from, as the specification words them *)

(** The claim as the specification words it: join succeeds on an event
    that exists and is answered 404 whenever no document matches the id,
    a malformed id included. *)
Definition join_not_found_when_unmatched : Prop :=
  ∀ (lib : Platform) env req σ c,
    eventsCollection σ = Some c →
    (∀ oid d,
       new_ObjectId (VStr (params_id req)) = Returns oid →
       findOne (by_id oid) c = Some d →
       status (fst (Part001.join_event env req σ)) = 200)
    ∧ ((∀ oid,
          new_ObjectId (VStr (params_id req)) = Returns oid →
          findOne (by_id oid) c = None) →
       status (fst (Part001.join_event env req σ)) = 404).

(** The claim as the specification words it: the two failures of a login
    have the same status and the same message. *)
Definition login_failures_indistinguishable : Prop :=
  ∀ (lib : Platform) rev env req1 req2 σ c u,
    usersCollection σ = Some c →
    findOne (account_of rev req1) c = None →
    findOne (account_of rev req2) c = Some u →
    bcrypt_compare (get (req_body req2) "password") (get u "password") = Returns false →
    status (fst (login rev env req1 σ)) = 401
    ∧ status (fst (login rev env req2 σ)) = 401
    ∧ body (fst (login rev env req1 σ)) = body (fst (login rev env req2 σ)).

(** The claim as the specification words it: the stored attendeeCount is
    a non-negative integer. *)
Definition attendeeCount_never_negative : Prop :=
  ∀ env req σ r σ',
    Part001.add_event env req σ = (r, σ') → status r = 201 →
    ∃ c d z, eventsCollection σ' = Some (c ++ [d])
             ∧ d !! "attendeeCount" = Some (VNum (Fin z)) ∧ 0 <= z.


(** The claim as the specification words it: an update with a well-formed
    id succeeds exactly when the document exists and the merged fields
    change its content. *)
Definition update_succeeds_when_content_changes : Prop :=
  ∀ (lib : Platform) env req σ c oid,
    eventsCollection σ = Some c →
    new_ObjectId (VStr (params_id req)) = Returns oid →
    (status (fst (Part001.update_event env req σ)) = 200
     ↔ ∃ d, findOne (by_id oid) c = Some d ∧ merged (req_body req) d ≠ d).

(** The claim as the specification words it: a token that verifies and
    whose userId is not the text of an ObjectId is answered 403. *)
Definition invalid_userId_always_forbidden : Prop :=
  ∀ (lib : Platform) rev env req σ token decoded,
    bearer req token →
    jwt_verify token (JWT_SECRET rev σ) (now env) = Returns decoded →
    (∀ s, get decoded "userId" = VStr s → hex24 s = false) →
    user_me rev env req σ = (InvalidToken, σ).

(** A body whose attendeeCount is the text [-5]. *)
Definition shrinking_party : Document :=
  {[ "title" := VStr "Picnic"; "name" := VStr "Asha"; "dateTime" := VStr "2025-07-01T10:00";
     "location" := VStr "Park"; "description" := VStr "Bring food";
     "email" := VStr "asha@example.org"; "attendeeCount" := VStr "-5" ]}.

(** ** The routes of the application, and runs of requests *)

Inductive Route :=
| Signup                      (* POST /signup *)
| Login                       (* POST /login *)
| UserMe                      (* GET /api/user/me *)
| AddEvent                    (* POST /api/events *)
| GetEvents                   (* GET /api/events *)
| MyEvents (email : string)   (* GET /api/events/:email *)
| JoinEvent                   (* PATCH /api/events/join/:id *)
| UpdateEvent                 (* PUT /api/events/:id *)
| DeleteEvent.                (* DELETE /api/events/:id *)

(** A route that always answers. *)
Definition answered (x : Response * Server) : option Response * Server :=
  (Some (fst x), snd x).

(** A route without [try]: no answer when its body throws. *)
Definition unless_thrown (x : Outcome Response * Server) : option Response * Server :=
  (match fst x with
   | Next r | Sent r => Some r
   | Thrown _ => None
   end, snd x).

Section serving.
Context {lib : Platform}.

(** The handler a revision registers for a route. *)
Definition serve (rev : Revision) (route : Route) (env : Env) (req : Request)
  : Server → option Response * Server := λ σ,
  match rev, route with
  | part_000, Signup => answered (Part000.signup env req σ)
  | part_000, Login => answered (Part000.login env req σ)
  | part_000, UserMe => answered (Part000.user_me env req σ)
  | part_000, AddEvent => answered (Part000.add_event env req σ)
  | part_000, GetEvents => answered (Part000.get_events env req σ)
  | part_000, MyEvents email => answered (Part000.my_events env email req σ)
  | part_000, JoinEvent => answered (Part000.join_event env req σ)
  | part_000, UpdateEvent => answered (Part000.update_event env req σ)
  | part_000, DeleteEvent => answered (Part000.delete_event env req σ)
  | part_001, Signup => answered (Part001.signup env req σ)
  | part_001, Login => answered (Part001.login env req σ)
  | part_001, UserMe => answered (Part001.user_me env req σ)
  | part_001, AddEvent => answered (Part001.add_event env req σ)
  | part_001, GetEvents => answered (Part001.get_events env req σ)
  | part_001, MyEvents email => unless_thrown (Part001.my_events env email req σ)
  | part_001, JoinEvent => answered (Part001.join_event env req σ)
  | part_001, UpdateEvent => answered (Part001.update_event env req σ)
  | part_001, DeleteEvent => answered (Part001.delete_event env req σ)
  end.

(** The state after a sequence of requests, one at a time. *)
Definition serve_all (rev : Revision) (requests : list (Route * Env * Request))
  : Server → Server :=
  λ σ, foldl (λ σ x, snd (serve rev (fst (fst x)) (snd (fst x)) (snd x) σ)) σ requests.
End serving.

(** The answers and the last state of one handler run on a sequence of
    requests. *)
Fixpoint replay (handler : Env → Request → Server → Response * Server)
    (requests : list (Env * Request)) (σ : Server) : list Response * Server :=
  match requests with
  | [] => ([], σ)
  | x :: requests' =>
      let r := handler (fst x) (snd x) σ in
      (fst r :: fst (replay handler requests' (snd r)),
       snd (replay handler requests' (snd r)))
  end.

(** The [_id]s of a collection, and no two documents sharing one. *)
Definition ids (c : Collection) : list Value := (λ d, get d "_id") <$> c.

Definition unique_ids (c : option Collection) : Prop := NoDup (ids (default [] c)).

(** At most one document for an email. *)
Definition unique_emails (c : option Collection) : Prop :=
  ∀ email, (length (find [("email", email)] (default [] c)) <= 1)%nat.

(** No space among the characters of [s]. *)
Definition no_space (s : string) : Prop := " "%char ∉ list_ascii_of_string s.

(** A call that returns. *)
Definition returns {A} (r : Result A) : Prop := ∃ a, r = Returns a.

(** The routes that write to the events collection, and the one that
    writes to the users collection. *)
Definition writes_events (route : Route) : Prop :=
  route = AddEvent ∨ route = JoinEvent ∨ route = UpdateEvent ∨ route = DeleteEvent.

(** The writes of the events collection, in either revision. *)
Definition events_write (route : Route) (env : Env) (req : Request) (σ σ' : Server) : Prop :=
  (route = AddEvent
   ∧ ∃ c, eventsCollection σ = Some c ∧ (VObjectId (fresh env) ∉ ids c)
          ∧ σ' = with_events σ (c ++ [new_event env req]))
  ∨ ((route = JoinEvent ∨ route = UpdateEvent)
     ∧ ∃ c1 d c2 d',
         eventsCollection σ = Some (c1 ++ d :: c2)
         ∧ get d' "_id" = get d "_id"
         ∧ σ' = with_events σ (c1 ++ d' :: c2))
  ∨ (route = DeleteEvent
     ∧ ∃ c1 d c2,
         eventsCollection σ = Some (c1 ++ d :: c2) ∧ σ' = with_events σ (c1 ++ c2)).

(** The write of the users collection. *)
Definition users_write (env : Env) (req : Request) (σ σ' : Server) : Prop :=
  ∃ c h,
    usersCollection σ = Some c
    ∧ findOne (by_email req) c = None
    ∧ (VObjectId (fresh env) ∉ ids c)
    ∧ σ' = with_users σ (c ++ [new_user env req h]).

(** The six required fields of a body are all truthy. *)
Definition complete (b : Document) : bool :=
  forallb (λ k, truthy (get b k)) required_fields.

(** What a route of [part_001] answers while the collections are still
    [undefined]; [None] when it sends no answer. *)
Definition unconnected_answer (route : Route) (b : Document) : option Response :=
  match route with
  | MyEvents _ => None
  | AddEvent =>
      Some (if complete b then json 500 (message "Internal server error")
            else ValidationError)
  | UpdateEvent => Some (json 500 (message "Failed to update event"))
  | DeleteEvent => Some (json 500 (message "Failed to delete event"))
  | _ => Some (json 500 (message "Internal server error"))
  end.

(** * Properties *)

(** ** Running the handler monad *)

Ltac run :=
  repeat (progress (unfold try_catch, users_findOne, users_insertOne,
                      events_insertOne, events_updateOne, users, events,
                      set_users, set_events, send, call,
                      mbind, mret, Handler_bind, Handler_ret in *; cbn beta iota)).

Ltac in_list := cbn; rewrite !elem_of_cons; tauto.

(** A decidable fact about closed terms. *)
Ltac by_decision := apply (bool_decide_unpack _); vm_compute; exact I.

Lemma server_eta σ :
  {| env_JWT_SECRET := env_JWT_SECRET σ;
     usersCollection := usersCollection σ;
     eventsCollection := eventsCollection σ |} = σ.
Proof. by destruct σ. Qed.

(** ** JavaScript helpers *)

(** The helpers on a few inputs. *)
Example parseInt_examples :
  parseInt (VStr "42") = Fin 42
  ∧ parseInt (VStr "-5") = Fin (-5)
  ∧ parseInt (VStr "12abc") = Fin 12
  ∧ parseInt (VStr "  0x1F") = Fin 31
  ∧ parseInt (VStr "abc") = NaN
  ∧ parseInt (VStr "") = NaN
  ∧ parseInt (VNum (Fin 7)) = Fin 7
  ∧ parseInt (VNum (Fin (10 ^ 21))) = Fin 1
  ∧ parseInt (VBool true) = NaN
  ∧ parseInt VNull = NaN.
Proof. by vm_compute. Qed.

(** White space beyond ASCII is skipped too: a no-break space (U+00A0),
    a line separator (U+2028) and a byte order mark (U+FEFF) before the
    digits; a byte that starts no white space is not. *)
Example parseInt_white_space :
  parseInt (VStr (String "194" (String "160" "7"))) = Fin 7
  ∧ parseInt (VStr (String "226" (String "128" (String "168" " -12")))) = Fin (-12)
  ∧ parseInt (VStr (String "239" (String "187" (String "191" "0x10")))) = Fin 16
  ∧ parseInt (VStr (String "194" (String "161" "7"))) = NaN.
Proof. by vm_compute. Qed.

Example to_double_examples :
  to_double (2 ^ 53 + 1) = Fin (2 ^ 53)
  ∧ to_double (2 ^ 53 + 3) = Fin (2 ^ 53 + 4)
  ∧ to_double (- (2 ^ 54 + 6)) = Fin (- (2 ^ 54 + 8))
  ∧ to_double (2 ^ 1024) = Infinity false.
Proof. by vm_compute. Qed.

Example Number_toString_examples :
  Number_toString (Fin (-1500)) = "-1500"
  ∧ Number_toString (Fin (2 ^ 69)) = "590295810358705700000"
  ∧ Number_toString (Fin (2 ^ 70)) = "1.1805916207174113e+21"
  ∧ Number_toString (Fin (10 ^ 21)) = "1e+21".
Proof. by vm_compute. Qed.

Example split_on_examples :
  split_on " " "Bearer abc.def" = ["Bearer"; "abc.def"]
  ∧ split_on " " "Bearer" = ["Bearer"]
  ∧ split_on " " "a  b" = ["a"; ""; "b"]
  ∧ split_on " " "" = [""].
Proof. by vm_compute. Qed.

Lemma truthy_undefined : truthy VUndefined = false.
Proof. done. Qed.

Lemma truthy_empty : truthy (VStr "") = false.
Proof. done. Qed.

Lemma parseInt_undefined : parseInt VUndefined = NaN.
Proof. done. Qed.

Lemma get_absent (d : Document) k : d !! k = None → get d k = VUndefined.
Proof. unfold get. by intros ->. Qed.

Lemma get_present (d : Document) k v : d !! k = Some v → get d k = v.
Proof. unfold get. by intros ->. Qed.

(** On the safe integers the Number of an integer is that integer. *)
Lemma to_double_exact z : Z.abs z < 2 ^ 53 → to_double z = Fin z.
Proof.
  intros Hz. unfold to_double.
  destruct (Z.ltb_spec (Z.abs z) (2 ^ 53)); [done | lia].
Qed.

Lemma Number_add_safe z : safe_integer z → Number_add (Fin z) 1 = Fin (z + 1).
Proof.
  unfold safe_integer. intros Hz. cbn [Number_add].
  destruct (Z.eq_dec (z + 1) (2 ^ 53)) as [->|Hne]; [by vm_compute|].
  apply to_double_exact. lia.
Qed.

(** *** [parseInt] reads back the decimal text of an integer *)

Lemma digit_cases d : 0 <= d <= 9 →
  d = 0 ∨ d = 1 ∨ d = 2 ∨ d = 3 ∨ d = 4 ∨ d = 5 ∨ d = 6 ∨ d = 7 ∨ d = 8 ∨ d = 9.
Proof. lia. Qed.

Ltac each_digit d H :=
  destruct (digit_cases d H) as [->|[->|[->|[->|[->|[->|[->|[->|[->| ->]]]]]]]]].

Lemma mod10_digit z : 0 <= z mod 10 <= 9.
Proof. pose proof (Z.mod_pos_bound z 10). lia. Qed.

Lemma digit_value_char d : 0 <= d <= 9 → digit_value 10 (digit_char d) = Some d.
Proof. intros H. each_digit d H; reflexivity. Qed.

Lemma digits_of_S fuel z acc :
  digits_of (S fuel) z acc
  = if z <? 10 then String (digit_char (z mod 10)) acc
    else digits_of fuel (z / 10) (String (digit_char (z mod 10)) acc).
Proof. reflexivity. Qed.

Lemma read_digits_of n : ∀ z acc a,
  default 0 a = 0 → 0 <= z < 10 ^ Z.of_nat (S n) →
  read_digits 10 (digits_of (S n) z acc) a = read_digits 10 acc (Some z).
Proof.
  induction n as [|n IH]; intros z acc a Ha Hz.
  - rewrite digits_of_S. change (10 ^ Z.of_nat 1) with 10 in Hz.
    destruct (Z.ltb_spec z 10); [|lia]. cbn [read_digits].
    rewrite Z.mod_small by lia. rewrite digit_value_char by lia. by rewrite Ha.
  - rewrite digits_of_S. destruct (Z.ltb_spec z 10).
    + cbn [read_digits]. rewrite Z.mod_small by lia.
      rewrite digit_value_char by lia. by rewrite Ha.
    + rewrite IH; [|done|].
      * cbn [read_digits]. rewrite digit_value_char by (apply mod10_digit).
        cbn [default from_option id]. by rewrite <- (Z.div_mod z 10) by lia.
      * split; [apply Z.div_pos; lia|]. apply Z.div_lt_upper_bound; [lia|].
        rewrite Nat2Z.inj_succ, Z.pow_succ_r in Hz by lia. lia.
Qed.

Lemma decimal_fuel z : 0 <= z → z < 10 ^ Z.of_nat (S (Z.to_nat (Z.log2 z))).
Proof.
  intros Hz. rewrite Nat2Z.inj_succ, Z2Nat.id by apply Z.log2_nonneg.
  destruct (Z.eq_dec z 0) as [->|Hne]; [done|].
  apply Z.lt_le_trans with (2 ^ Z.succ (Z.log2 z)).
  - apply Z.log2_spec. lia.
  - apply Z.pow_le_mono_l. lia.
Qed.

Lemma read_decimal z : 0 <= z → read_digits 10 (decimal z) None = Some z.
Proof.
  intros Hz. unfold decimal. rewrite read_digits_of; [done..|]. split; [done|].
  by apply decimal_fuel.
Qed.

(** The first characters of a decimal text. *)
Lemma digits_of_head n : ∀ z acc,
  0 <= z →
  ∃ d s, 0 <= d <= 9 ∧ digits_of (S n) z acc = String (digit_char d) s
         ∧ (s = acc ∨ ∃ d' s', 0 <= d' <= 9 ∧ s = String (digit_char d') s').
Proof.
  induction n as [|n IH]; intros z acc Hz; rewrite digits_of_S.
  - cbn [digits_of]. destruct (z <? 10); exists (z mod 10), acc;
      (split; [apply mod10_digit | split; [done | by left]]).
  - destruct (z <? 10).
    + exists (z mod 10), acc. split; [apply mod10_digit | split; [done | by left]].
    + destruct (IH (z / 10) (String (digit_char (z mod 10)) acc)) as (d & s & Hd & -> & Hs).
      { apply Z.div_pos; lia. }
      exists d, s. split; [done|]. split; [done|]. right. destruct Hs as [->|Hs]; [|done].
      exists (z mod 10), acc. split; [apply mod10_digit | done].
Qed.

Lemma parseInt_string_digits s :
  (∃ d s', 0 <= d <= 9 ∧ s = String (digit_char d) s'
           ∧ (s' = "" ∨ ∃ d' s'', 0 <= d' <= 9 ∧ s' = String (digit_char d') s'')) →
  parseInt_string s
  = match read_digits 10 s None with Some m => to_double m | None => NaN end
  ∧ parseInt_string (String "-" s)
    = match read_digits 10 s None with Some m => to_double (- m) | None => NaN end.
Proof.
  intros (d & s' & Hd & -> & [->|(d' & s'' & Hd' & ->)]).
  - each_digit d Hd; split; reflexivity.
  - each_digit d Hd; try (split; reflexivity).
    each_digit d' Hd'; split; reflexivity.
Qed.

Lemma parseInt_integer_text z : parseInt (VStr (integer_text z)) = to_double z.
Proof.
  unfold parseInt, integer_text. cbn [ToString].
  assert (∀ n, 0 <= n →
            ∃ d s', 0 <= d <= 9 ∧ decimal n = String (digit_char d) s'
              ∧ (s' = "" ∨ ∃ d' s'', 0 <= d' <= 9 ∧ s' = String (digit_char d') s''))
    as Hhead.
  { intros n Hn. unfold decimal. by apply digits_of_head. }
  destruct (Z.ltb_spec z 0).
  - destruct (parseInt_string_digits _ (Hhead (- z) ltac:(lia))) as [_ ->].
    rewrite read_decimal by lia. f_equal. lia.
  - destruct (parseInt_string_digits _ (Hhead z ltac:(lia))) as [-> _].
    by rewrite read_decimal.
Qed.

(** ** The store *)

Lemma findOne_None_find q c : findOne q c = None ↔ find q c = [].
Proof.
  unfold findOne, find. induction c as [|d c IH]; cbn; [done|].
  destruct (matches q d); [split; discriminate | done].
Qed.

Lemma findOne_Some_matches q c d : findOne q c = Some d → matches q d = true.
Proof. unfold findOne. intros Hf. by apply List.find_some in Hf as [_ ?]. Qed.

(** The document found is the first that matches. *)
Lemma findOne_split q c d :
  findOne q c = Some d →
  ∃ c1 c2, c = c1 ++ d :: c2 ∧ findOne q c1 = None ∧ matches q d = true.
Proof.
  unfold findOne. induction c as [|d' c IH]; cbn; [done|].
  destruct (matches q d') eqn:Hm.
  - intros [= <-]. by exists [], c.
  - intros (c1 & c2 & -> & Hn & Hd)%IH.
    exists (d' :: c1), c2. cbn. by rewrite Hm.
Qed.

Lemma updateOne_no_match q u c :
  findOne q c = None →
  updateOne q u c = Returns ({| matchedCount := 0; modifiedCount := 0 |}, c).
Proof.
  unfold findOne. induction c as [|d c IH]; cbn; [done|].
  destruct (matches q d); [done|]. intros Hn. by rewrite IH.
Qed.

Lemma updateOne_first q u c1 d c2 :
  findOne q c1 = None → matches q d = true →
  updateOne q u (c1 ++ d :: c2) =
    match apply_update u d with
    | Returns d' =>
        Returns ({| matchedCount := 1;
                    modifiedCount := if bool_decide (d' = d) then 0 else 1 |},
                 c1 ++ d' :: c2)
    | Throws e => Throws e
    end.
Proof.
  unfold findOne. intros Hn Hd. induction c1 as [|d1 c1 IH]; cbn in *.
  - by rewrite Hd.
  - destruct (matches q d1); [done|]. rewrite IH; [|done].
    by destruct (apply_update u d).
Qed.

(** ** Event creation: validation *)

(** A required field that is falsy (absent, empty, null, 0, false) stops
    the request before the store is touched. *)
Lemma add_event_falsy env req σ k :
  k ∈ required_fields → truthy (get (req_body req) k) = false →
  Part001.add_event env req σ = (ValidationError, σ).
Proof.
  intros Hk Hf. unfold Part001.add_event.
  repeat (apply elem_of_cons in Hk as [->|Hk]); [..|by apply elem_of_nil in Hk];
    rewrite Hf; cbn [negb orb];
    repeat rewrite orb_true_r; done.
Qed.

Lemma add_event_connected env req σ :
  is_Some (eventsCollection σ) →
  Part000.add_event env req σ = Part001.add_event env req σ.
Proof. intros [c Hc]. unfold Part000.add_event, Part001.add_event. by rewrite Hc. Qed.

Lemma absent_or_empty_falsy b k : absent_or_empty b k → truthy (get b k) = false.
Proof. by intros [H|H]; [rewrite (get_absent _ _ H) | rewrite (get_present _ _ _ H)]. Qed.

(** C6. An event-creation request in which one of title, name, dateTime,
    location, description, email is absent or empty is answered 400 and
    leaves the store as it was: in [part_001] always, in [part_000] once
    the events collection is connected (before that the answer is 503,
    and the store is as it was too). *)
Theorem missing_field_rejected env req σ k :
  k ∈ required_fields → absent_or_empty (req_body req) k →
  Part001.add_event env req σ = (ValidationError, σ)
  ∧ (is_Some (eventsCollection σ) → Part000.add_event env req σ = (ValidationError, σ))
  ∧ snd (Part000.add_event env req σ) = σ.
Proof.
  intros Hk Ha%absent_or_empty_falsy.
  pose proof (add_event_falsy env req σ k Hk Ha) as H1.
  split_and!; [done | |].
  - intros Hc. by rewrite add_event_connected.
  - destruct (eventsCollection σ) as [c|] eqn:Hc.
    + by rewrite add_event_connected, H1.
    + unfold Part000.add_event. by rewrite Hc.
Qed.

(** ** Event creation: the stored document *)

Lemma with_events_same σ c : eventsCollection σ = Some c → with_events σ c = σ.
Proof. intros H. unfold with_events. rewrite <- H. apply server_eta. Qed.

(** A creation answered 201 has appended exactly that document. *)
Lemma add_event_created env req σ r σ' :
  Part001.add_event env req σ = (r, σ') → status r = 201 →
  ∃ c, eventsCollection σ = Some c
       ∧ σ' = with_events σ (c ++ [new_event env req]).
Proof.
  unfold Part001.add_event.
  destruct (_ || _); [by intros [= <- <-]|].
  run. destruct (eventsCollection σ) as [c|]; [|by intros [= <- <-]].
  unfold insertOne. destruct (existsb _ c); [by intros [= <- <-]|].
  cbn. intros [= <- <-] _. by exists c.
Qed.

Lemma js_or_parseInt v :
  js_or (VNum (parseInt v)) (VNum (Fin 0)) = VNum (stored_count v).
Proof.
  unfold js_or, stored_count. destruct (parseInt v) as [|s|z]; cbn; [done..|].
  destruct (Z.eqb_spec z 0) as [->|]; done.
Qed.

Lemma new_event_attendeeCount env req :
  new_event env req !! "attendeeCount"
  = Some (VNum (stored_count (get (req_body req) "attendeeCount"))).
Proof.
  unfold new_event. rewrite lookup_insert_ne by done. rewrite lookup_fmap.
  rewrite js_or_parseInt. by simplify_map_eq.
Qed.

Lemma add_event_created_000 env req σ r σ' :
  Part000.add_event env req σ = (r, σ') → status r = 201 →
  ∃ c, eventsCollection σ = Some c
       ∧ σ' = with_events σ (c ++ [new_event env req]).
Proof.
  destruct (eventsCollection σ) as [c|] eqn:Hc.
  - rewrite add_event_connected by (by rewrite Hc). rewrite <- Hc.
    apply add_event_created.
  - unfold Part000.add_event. rewrite Hc. by intros [= <- <-].
Qed.

(** C7, as amended. After a creation answered 201 the collection has
    one more document, whose attendeeCount is the Number
    [parseInt(attendeeCount) || 0]: 0 when the input is absent or
    [parseInt] reads no integer from it, and otherwise what [parseInt]
    reads, an integer of either sign (an infinity when the digits overflow
    a double); in particular the safe integer [z] when the input is the
    decimal text of [z]. *)
Theorem created_attendeeCount env req σ r σ' :
  Part000.add_event env req σ = (r, σ') ∨ Part001.add_event env req σ = (r, σ') →
  status r = 201 →
  ∃ c d,
    eventsCollection σ = Some c
    ∧ eventsCollection σ' = Some (c ++ [d])
    ∧ d !! "attendeeCount" = Some (VNum (stored_count (get (req_body req) "attendeeCount")))
    ∧ (req_body req !! "attendeeCount" = None → d !! "attendeeCount" = Some (VNum (Fin 0)))
    ∧ (parseInt (get (req_body req) "attendeeCount") = NaN →
       d !! "attendeeCount" = Some (VNum (Fin 0)))
    ∧ (∀ z, parseInt (get (req_body req) "attendeeCount") = Fin z →
       d !! "attendeeCount" = Some (VNum (Fin z)))
    ∧ (∀ s, parseInt (get (req_body req) "attendeeCount") = Infinity s →
       d !! "attendeeCount" = Some (VNum (Infinity s)))
    ∧ (∀ z, req_body req !! "attendeeCount" = Some (VStr (integer_text z)) →
       Z.abs z < 2 ^ 53 →
       d !! "attendeeCount" = Some (VNum (Fin z))).
Proof.
  intros Hrun Hr.
  assert (∃ c, eventsCollection σ = Some c
               ∧ σ' = with_events σ (c ++ [new_event env req])) as (c & Hc & ->).
  { destruct Hrun; eauto using add_event_created, add_event_created_000. }
  exists c, (new_event env req). rewrite new_event_attendeeCount.
  split_and!; [done..| | | | |].
  - intros Ha. by rewrite (get_absent _ _ Ha).
  - unfold stored_count. by intros ->.
  - unfold stored_count. by intros z ->.
  - unfold stored_count. by intros s ->.
  - intros z Ha Hz. rewrite (get_present _ _ _ Ha). unfold stored_count.
    by rewrite parseInt_integer_text, to_double_exact.
Qed.

(** C7, counterexample: [parseInt("-5") || 0] is -5, and -5 is stored. *)
Lemma attendeeCount_negative_stored : ¬ attendeeCount_never_negative.
Proof.
  intros Hclaim.
  set (env := env_at 1000 "aaaaaaaaaaaaaaaaaaaaaaaa").
  set (req := request None "" shrinking_party).
  destruct (Part001.add_event env req empty_server) as [r σ'] eqn:Hrun.
  assert (status r = 201) as Hr by (by vm_compute in Hrun; injection Hrun as <- _).
  destruct (Hclaim _ _ _ _ _ Hrun Hr) as (c & d & z & Hc & Hd & Hz).
  destruct (add_event_created _ _ _ _ _ Hrun Hr) as (c' & _ & ->).
  cbn in Hc. injection Hc as Heq. apply app_inj_tail in Heq as [_ <-].
  rewrite new_event_attendeeCount in Hd. vm_compute in Hd. injection Hd as <-. lia.
Qed.

(** ** Listing: the order of [sort({ createdAt: -1 })] *)

Lemma lex_leb_total l1 l2 : lex_leb l1 l2 = true ∨ lex_leb l2 l1 = true.
Proof.
  revert l2. induction l1 as [|x l1 IH]; intros [|y l2]; cbn; auto.
  destruct (Z.ltb_spec x y), (Z.ltb_spec y x), (Z.eqb_spec x y), (Z.eqb_spec y x);
    cbn; auto; lia.
Qed.

Lemma lex_leb_trans l1 l2 l3 :
  lex_leb l1 l2 = true → lex_leb l2 l3 = true → lex_leb l1 l3 = true.
Proof.
  revert l2 l3. induction l1 as [|x l1 IH]; intros [|y l2] [|z l3]; cbn; try done.
  destruct (Z.ltb_spec x y), (Z.ltb_spec y z), (Z.ltb_spec x z),
    (Z.eqb_spec x y), (Z.eqb_spec y z), (Z.eqb_spec x z); cbn; try done; try lia.
  apply IH.
Qed.

#[global] Instance descending_total k : Total (descending k).
Proof. intros a b. unfold descending, bson_le. apply lex_leb_total. Qed.

#[global] Instance descending_trans k : Transitive (descending k).
Proof. intros a b c Hab Hbc. unfold descending, bson_le in *. by eapply lex_leb_trans. Qed.

(** Between two dates the order is the order of time. *)
Lemma bson_le_dates t1 t2 : bson_le (VDate t1) (VDate t2) ↔ t1 <= t2.
Proof.
  unfold bson_le. cbn.
  destruct (Z.ltb_spec t1 t2), (Z.eqb_spec t1 t2); cbn; split; (done || lia).
Qed.

Lemma find_all c : find [] c = c.
Proof. unfold find. cbn. induction c as [|d c IH]; cbn; by rewrite ?IH. Qed.

Lemma StronglySorted_lookup {A} (R : relation A) l i j x y :
  StronglySorted R l → (i < j)%nat → l !! i = Some x → l !! j = Some y → R x y.
Proof.
  intros Hs. revert i j. induction Hs as [|a l Hs IH Hall]; intros i j Hij Hi Hj.
  - done.
  - destruct j as [|j]; [lia|]. cbn in Hj. destruct i as [|i]; cbn in Hi.
    + injection Hi as ->. rewrite List.Forall_forall in Hall. apply Hall.
      apply list_elem_of_In. by eapply list_elem_of_lookup_2.
    + apply (IH i j); [lia|done..].
Qed.

Lemma get_events_connected env req σ :
  is_Some (eventsCollection σ) →
  Part000.get_events env req σ = Part001.get_events env req σ.
Proof. intros [c Hc]. unfold Part000.get_events, Part001.get_events. by rewrite Hc. Qed.

(** C8. On a connected store [GET /api/events] answers 200 with all the
    stored events, each once, ordered by [createdAt] from the greatest
    down: an event listed later was not created after one listed before
    it.  The store is left as it was. *)
Theorem list_all_newest_first env req σ c :
  eventsCollection σ = Some c →
  ∃ l,
    Part000.get_events env req σ = (json 200 (JArr (doc_json <$> l)), σ)
    ∧ Part001.get_events env req σ = (json 200 (JArr (doc_json <$> l)), σ)
    ∧ l ≡ₚ c
    ∧ StronglySorted (descending "createdAt") l
    ∧ (∀ i j a b ta tb,
         (i < j)%nat → l !! i = Some a → l !! j = Some b →
         get a "createdAt" = VDate ta → get b "createdAt" = VDate tb →
         tb <= ta).
Proof.
  intros Hc. exists (sort_descending "createdAt" c).
  assert (StronglySorted (descending "createdAt") (sort_descending "createdAt" c))
    as Hsorted by (apply StronglySorted_merge_sort; apply _).
  split_and!.
  - rewrite get_events_connected by (by rewrite Hc).
    unfold Part001.get_events. run. rewrite Hc. by rewrite find_all.
  - unfold Part001.get_events. run. rewrite Hc. by rewrite find_all.
  - apply merge_sort_Permutation.
  - done.
  - intros i j a b ta tb Hij Ha Hb Hta Htb.
    pose proof (StronglySorted_lookup _ _ _ _ _ _ Hsorted Hij Ha Hb) as Hab.
    unfold descending in Hab. rewrite Hta, Htb in Hab. by apply bson_le_dates.
Qed.

(** ** Join and update *)

Section events_by_id.
Context {lib : Platform}.

Lemma join_event_connected env req σ :
  is_Some (eventsCollection σ) →
  Part000.join_event env req σ = Part001.join_event env req σ.
Proof. intros [c Hc]. unfold Part000.join_event, Part001.join_event. by rewrite Hc. Qed.

Lemma update_event_connected env req σ :
  is_Some (eventsCollection σ) →
  Part000.update_event env req σ = Part001.update_event env req σ.
Proof. intros [c Hc]. unfold Part000.update_event, Part001.update_event. by rewrite Hc. Qed.

(** The constructor's exception reaches the [catch] of the route. *)
Lemma join_event_malformed env req σ e :
  new_ObjectId (VStr (params_id req)) = Throws e →
  Part001.join_event env req σ = (json 500 (message "Internal server error"), σ).
Proof.
  intros Hid. unfold Part001.join_event. run.
  destruct (eventsCollection σ); [|done]. by rewrite Hid.
Qed.

Lemma join_event_not_found env req σ c oid :
  eventsCollection σ = Some c →
  new_ObjectId (VStr (params_id req)) = Returns oid →
  findOne (by_id oid) c = None →
  Part001.join_event env req σ = (json 404 (message "Event not found"), σ).
Proof.
  intros Hc Hid Hn. unfold Part001.join_event. run.
  rewrite Hc, Hid. fold (by_id oid). rewrite (updateOne_no_match _ _ _ Hn). cbn.
  f_equal. by apply with_events_same.
Qed.

Lemma join_event_found env req σ c1 d c2 oid d' :
  eventsCollection σ = Some (c1 ++ d :: c2) →
  new_ObjectId (VStr (params_id req)) = Returns oid →
  findOne (by_id oid) c1 = None → matches (by_id oid) d = true →
  apply_update (Inc "attendeeCount" 1) d = Returns d' → d' ≠ d →
  Part001.join_event env req σ
  = (json 200 (message "Joined event successfully"), with_events σ (c1 ++ d' :: c2)).
Proof.
  intros Hc Hid Hn Hm Hupd Hne. unfold Part001.join_event. run.
  rewrite Hc, Hid. fold (by_id oid). rewrite (updateOne_first _ _ _ _ _ Hn Hm), Hupd.
  cbn. by rewrite bool_decide_eq_false_2.
Qed.

(** [$inc] raises a write error on a field that is not a number. *)
Lemma join_event_not_a_number env req σ c oid d v :
  eventsCollection σ = Some c →
  new_ObjectId (VStr (params_id req)) = Returns oid →
  findOne (by_id oid) c = Some d →
  d !! "attendeeCount" = Some v → (∀ n, v ≠ VNum n) →
  fst (Part001.join_event env req σ) = json 500 (message "Internal server error").
Proof.
  intros Hc Hid (c1 & c2 & -> & Hn & Hm)%findOne_split Hv Hnum.
  unfold Part001.join_event. run.
  rewrite Hc, Hid. fold (by_id oid). rewrite (updateOne_first _ _ _ _ _ Hn Hm).
  cbn. rewrite Hv. destruct v; try done. by destruct (Hnum n).
Qed.

Lemma update_event_malformed env req σ e :
  new_ObjectId (VStr (params_id req)) = Throws e →
  Part001.update_event env req σ = (json 500 (message "Failed to update event"), σ).
Proof.
  intros Hid. unfold Part001.update_event. run.
  destruct (eventsCollection σ); [|done]. by rewrite Hid.
Qed.

Lemma update_event_not_found env req σ c oid :
  eventsCollection σ = Some c →
  new_ObjectId (VStr (params_id req)) = Returns oid →
  findOne (by_id oid) c = None →
  Part001.update_event env req σ = (NotFoundOrUpToDate, σ).
Proof.
  intros Hc Hid Hn. unfold Part001.update_event. run.
  rewrite Hc, Hid. fold (by_id oid). rewrite (updateOne_no_match _ _ _ Hn). cbn.
  f_equal. by apply with_events_same.
Qed.

(** [$set] merges the fields of a body it accepts, and raises a write
    error on any other. *)
Lemma set_allowed_settable updatedData d :
  set_allowed (bson <$> updatedData) d ↔ settable updatedData d.
Proof.
  unfold set_allowed, settable, keeps_id, map_Forall. split.
  - intros Hall. split.
    + intros k [v Hk].
      destruct (Hall k (bson v)) as (Hu & Hc & Hp & _); [by rewrite lookup_fmap, Hk|].
      split_and!; [done | |].
      * intros k' [v' Hk']. apply (Hc k' (bson v')). by rewrite lookup_fmap, Hk'.
      * intros p [w Hp']. by apply (Hp p w).
    + intros v Hv.
      destruct (Hall "_id" (bson v)) as (_ & _ & _ & Hid); [by rewrite lookup_fmap, Hv|].
      by apply Hid.
  - intros [Hall Hid] k w. rewrite lookup_fmap.
    destruct (updatedData !! k) as [v|] eqn:Hk; [|done]. intros [= <-].
    destruct (Hall k) as (Hu & Hc & Hp); [by eauto|].
    split_and!; [done | | |].
    + intros k' w'. rewrite lookup_fmap.
      destruct (updatedData !! k') as [v'|] eqn:Hk'; [|done]. intros _. apply Hc. by eauto.
    + intros p w' Hp'. apply Hp. by eauto.
    + intros ->. by apply Hid.
Qed.

Lemma apply_set_cases updatedData d :
  (settable updatedData d
   ∧ apply_update (Set_ updatedData) d = Returns (merged updatedData d))
  ∨ (¬ settable updatedData d
     ∧ apply_update (Set_ updatedData) d = Throws "WriteError").
Proof.
  cbn. destruct (decide (set_allowed (bson <$> updatedData) d)) as [Ha|Ha];
    rewrite set_allowed_settable in Ha; [by left | by right].
Qed.

Lemma update_event_found env req σ c1 d c2 oid :
  eventsCollection σ = Some (c1 ++ d :: c2) →
  new_ObjectId (VStr (params_id req)) = Returns oid →
  findOne (by_id oid) c1 = None → matches (by_id oid) d = true →
  Part001.update_event env req σ
  = match apply_update (Set_ (req_body req)) d with
    | Returns d' =>
        if bool_decide (d' = d) then (NotFoundOrUpToDate, σ)
        else (json 200 (message "Event updated successfully"),
              with_events σ (c1 ++ d' :: c2))
    | Throws e => (json 500 (message "Failed to update event"), σ)
    end.
Proof.
  intros Hc Hid Hn Hm. unfold Part001.update_event. run.
  rewrite Hc, Hid. fold (by_id oid).
  rewrite (updateOne_first _ _ _ _ _ Hn Hm).
  destruct (apply_update _ d) as [d'|e]; [|done]. cbn.
  case_bool_decide as Heq; cbn; [|done].
  f_equal. rewrite Heq. by apply with_events_same.
Qed.
End events_by_id.

Section events_by_id_claims.
Context {lib : Platform}.

Lemma increment_changes (d : Document) z :
  d !! "attendeeCount" = Some (VNum (Fin z)) →
  <["attendeeCount" := VNum (Fin (z + 1))]> d ≠ d.
Proof.
  intros Hd Heq. assert (Some (VNum (Fin (z + 1))) = Some (VNum (Fin z))) as [=].
  { rewrite <- Hd, <- Heq at 1. by rewrite lookup_insert_eq. }
  lia.
Qed.

Lemma join_event_status env req σ :
  status (fst (Part001.join_event env req σ)) ∈ [200; 404; 500]
  ∧ status (fst (Part000.join_event env req σ)) ∈ [200; 404; 500; 503].
Proof.
  assert (status (fst (Part001.join_event env req σ)) ∈ [200; 404; 500]) as H1.
  { unfold Part001.join_event. run.
    destruct (eventsCollection σ); [|in_list].
    destruct (new_ObjectId _); [|in_list].
    destruct (updateOne _ _ _) as [[r c']|]; [|in_list].
    cbn. destruct (modifiedCount r =? 0); in_list. }
  split; [done|].
  destruct (eventsCollection σ) eqn:Hc.
  - rewrite join_event_connected by (by rewrite Hc).
    revert H1. rewrite !elem_of_cons. tauto.
  - unfold Part000.join_event. rewrite Hc. in_list.
Qed.

(** C1, as amended. On a connected store the join route, the same in
    both files, answers as follows and always answers.  A valid id whose
    event holds a safe integer as attendeeCount: the count grows by
    exactly 1, nothing else changes, 200.  A valid id that no event has:
    404, store unchanged.  A malformed id: the constructor's exception is
    caught and the answer is 500, not 404, store unchanged. *)
Theorem join_outcomes env req σ c :
  eventsCollection σ = Some c →
  Part000.join_event env req σ = Part001.join_event env req σ
  ∧ status (fst (Part001.join_event env req σ)) ∈ [200; 404; 500]
  ∧ (∀ oid d z,
       new_ObjectId (VStr (params_id req)) = Returns oid →
       findOne (by_id oid) c = Some d →
       d !! "attendeeCount" = Some (VNum (Fin z)) → safe_integer z →
       ∃ c1 c2,
         c = c1 ++ d :: c2 ∧ findOne (by_id oid) c1 = None
         ∧ Part001.join_event env req σ
           = (json 200 (message "Joined event successfully"),
              with_events σ (c1 ++ <["attendeeCount" := VNum (Fin (z + 1))]> d :: c2)))
  ∧ (∀ oid,
       new_ObjectId (VStr (params_id req)) = Returns oid →
       findOne (by_id oid) c = None →
       Part001.join_event env req σ = (json 404 (message "Event not found"), σ))
  ∧ (∀ e,
       new_ObjectId (VStr (params_id req)) = Throws e →
       Part001.join_event env req σ = (json 500 (message "Internal server error"), σ)).
Proof.
  intros Hc. split_and!.
  - apply join_event_connected. by rewrite Hc.
  - apply join_event_status.
  - intros oid d z Hid (c1 & c2 & -> & Hn & Hm)%findOne_split Hd Hz.
    exists c1, c2. split_and!; [done..|].
    apply (join_event_found _ _ _ _ d _ oid); try done.
    + cbn. by rewrite Hd, Number_add_safe.
    + by apply increment_changes.
  - intros oid Hid Hn. by apply (join_event_not_found _ _ _ c oid).
  - intros e He. by apply (join_event_malformed _ _ _ e).
Qed.

Lemma merged_lookup updatedData d k v :
  updatedData !! k = Some v → merged updatedData d !! k = Some (bson v).
Proof.
  intros Hk. unfold merged. apply lookup_union_Some_l. by rewrite lookup_fmap, Hk.
Qed.

Lemma merged_same updatedData d : merged updatedData d = d ↔ up_to_date updatedData d.
Proof.
  unfold up_to_date. split.
  - intros Heq k v Hk. rewrite <- Heq. by apply merged_lookup.
  - intros Hall. unfold merged.
    rewrite (map_filter_id _ d).
    + apply map_subseteq_union, map_subseteq_spec.
      intros k w. rewrite lookup_fmap. destruct (updatedData !! k) as [v|] eqn:Hk; [|done].
      intros [= <-]. by apply Hall.
    + intros k' w _ (k & u & Hk & Hnone & _). cbn in *.
      rewrite lookup_fmap in Hk. destruct (updatedData !! k) as [v|] eqn:Hv; [|done].
      by rewrite (Hall k v Hv) in Hnone.
Qed.

Lemma up_to_date_keeps_id updatedData d : up_to_date updatedData d → keeps_id updatedData d.
Proof. intros Hu v Hv. by apply Hu. Qed.

(** C9, as amended. An update call with a well-formed id, on a connected
    store, the same in both files.  It is answered 200 exactly when a
    document has the id, MongoDB accepts the body as a [$set] on that
    document, and the body's fields change it; the document then holds
    the merged fields and nothing else changes.  It is answered 404, the
    store unchanged, both when no document has the id and when the body is
    accepted and every field of it already has the value asked for, with
    one and the same response.  It is answered 500, the store unchanged,
    when MongoDB refuses the body: another [_id], an empty name, a path
    through a field that holds a value, two names one below the other. *)
Theorem update_outcomes env req σ c oid :
  eventsCollection σ = Some c →
  new_ObjectId (VStr (params_id req)) = Returns oid →
  Part000.update_event env req σ = Part001.update_event env req σ
  ∧ (status (fst (Part001.update_event env req σ)) = 200
     ↔ ∃ d, findOne (by_id oid) c = Some d
            ∧ settable (req_body req) d ∧ ¬ up_to_date (req_body req) d)
  ∧ (findOne (by_id oid) c = None →
     Part001.update_event env req σ = (NotFoundOrUpToDate, σ))
  ∧ (∀ d, findOne (by_id oid) c = Some d →
     settable (req_body req) d → up_to_date (req_body req) d →
     Part001.update_event env req σ = (NotFoundOrUpToDate, σ))
  ∧ (∀ d, findOne (by_id oid) c = Some d →
     settable (req_body req) d → ¬ up_to_date (req_body req) d →
     ∃ c1 c2,
       c = c1 ++ d :: c2 ∧ findOne (by_id oid) c1 = None
       ∧ Part001.update_event env req σ
         = (json 200 (message "Event updated successfully"),
            with_events σ (c1 ++ merged (req_body req) d :: c2)))
  ∧ (∀ d, findOne (by_id oid) c = Some d → ¬ settable (req_body req) d →
     Part001.update_event env req σ = (json 500 (message "Failed to update event"), σ))
  ∧ (∀ d v, findOne (by_id oid) c = Some d →
     req_body req !! "_id" = Some v → d !! "_id" ≠ Some (bson v) →
     Part001.update_event env req σ = (json 500 (message "Failed to update event"), σ))
  ∧ (∀ d k p, findOne (by_id oid) c = Some d →
     is_Some (req_body req !! k) → is_Some (d !! p) → below p k = true →
     Part001.update_event env req σ = (json 500 (message "Failed to update event"), σ))
  ∧ (∀ d k, findOne (by_id oid) c = Some d →
     is_Some (req_body req !! k) → "" ∈ path k →
     Part001.update_event env req σ = (json 500 (message "Failed to update event"), σ)).
Proof.
  intros Hc Hid.
  assert (∀ d, findOne (by_id oid) c = Some d →
            ∃ c1 c2, c = c1 ++ d :: c2 ∧ findOne (by_id oid) c1 = None
              ∧ Part001.update_event env req σ
                = match apply_update (Set_ (req_body req)) d with
                  | Returns d' =>
                      if bool_decide (d' = d) then (NotFoundOrUpToDate, σ)
                      else (json 200 (message "Event updated successfully"),
                            with_events σ (c1 ++ d' :: c2))
                  | Throws e => (json 500 (message "Failed to update event"), σ)
                  end) as Hfound.
  { intros d (c1 & c2 & -> & Hn & Hm)%findOne_split. exists c1, c2.
    split_and!; [done..|]. by apply (update_event_found _ _ _ _ _ _ oid). }
  assert (∀ d, findOne (by_id oid) c = Some d → ¬ settable (req_body req) d →
            Part001.update_event env req σ
            = (json 500 (message "Failed to update event"), σ)) as Hrefused.
  { intros d Hf Hk. destruct (Hfound d Hf) as (c1 & c2 & _ & _ & ->).
    by destruct (apply_set_cases (req_body req) d) as [[Hk' ->]|[Hk' ->]]. }
  split_and!.
  - apply update_event_connected. by rewrite Hc.
  - destruct (findOne (by_id oid) c) as [d|] eqn:Hf.
    + destruct (Hfound d eq_refl) as (c1 & c2 & _ & _ & ->).
      destruct (apply_set_cases (req_body req) d) as [[Hk ->]|[Hk ->]].
      * case_bool_decide as Heq; cbn; rewrite merged_same in Heq.
        -- split; [done|]. by intros (d' & [= <-] & _ & Hne).
        -- split; [|done]. intros _. by exists d.
      * cbn. split; [done|]. by intros (d' & [= <-] & Hk' & _).
    + rewrite (update_event_not_found _ _ _ _ _ Hc Hid Hf). cbn.
      split; [done|]. by intros (d & [=] & _).
  - intros Hf. by apply (update_event_not_found _ _ _ c oid).
  - intros d Hf Hset Hsame. destruct (Hfound d Hf) as (c1 & c2 & _ & _ & ->).
    destruct (apply_set_cases (req_body req) d) as [[Hk ->]|[Hk ->]]; [|done].
    by rewrite bool_decide_eq_true_2 by (by apply merged_same).
  - intros d Hf Hset Hdiff. destruct (Hfound d Hf) as (c1 & c2 & ? & ? & Hrun).
    exists c1, c2. split_and!; [done..|]. rewrite Hrun.
    destruct (apply_set_cases (req_body req) d) as [[Hk ->]|[Hk ->]]; [|done].
    by rewrite bool_decide_eq_false_2 by (by rewrite merged_same).
  - done.
  - intros d v Hf Hv Hne. apply (Hrefused d Hf). intros [_ Hk]. by apply Hne, Hk.
  - intros d k p Hf Hk Hp Hb. apply (Hrefused d Hf). intros [Hall _].
    destruct (Hall k Hk) as (_ & _ & Hv). by rewrite (Hv p Hp) in Hb.
  - intros d k Hf Hk He. apply (Hrefused d Hf). intros [Hall _].
    destruct (Hall k Hk) as (Hu & _). unfold updatable in Hu.
    apply andb_prop in Hu as [Hu _]. apply andb_prop in Hu as [Hu _].
    rewrite forallb_forall in Hu. apply list_elem_of_In in He.
    specialize (Hu _ He). by cbn in Hu.
Qed.
End events_by_id_claims.

(** ** The two revisions side by side *)

Section by_revision.
Context {lib : Platform}.

(** *** The middleware *)

Lemma user_me_unfold rev env req σ :
  user_me rev env req σ = authenticateJWT (JWT_SECRET rev σ) send_user env req σ.
Proof. by destruct rev. Qed.

Lemma authenticate_no_header secret next env req σ :
  authorization req = None →
  authenticateJWT secret next env req σ
  = (json 401 (message "Authorization header missing"), σ).
Proof. unfold authenticateJWT. by intros ->. Qed.

Lemma authenticate_bearer secret next env req σ token :
  bearer req token →
  authenticateJWT secret next env req σ
  = try_catch
      (decoded ← call (jwt_verify token secret (now env));
       user ← users_findOne
         (oid ← call (new_ObjectId (get decoded "userId"));
          mret [("_id", VObjectId oid)]);
       match user with
       | None => send (json 401 (message "User not found"))
       | Some user =>
           next {| authorization := authorization req;
                   params_id := params_id req;
                   req_body := req_body req;
                   user := identity user |}
       end)
      (λ err, InvalidToken) σ.
Proof.
  intros (h & Hh & Ht & Hne). unfold authenticateJWT. rewrite Hh.
  destruct h as [|a h]; [done|]. rewrite Ht.
  destruct token as [|b token]; done.
Qed.

Lemma authenticate_invalid secret next env req σ token e :
  bearer req token →
  jwt_verify token secret (now env) = Throws e →
  authenticateJWT secret next env req σ = (InvalidToken, σ).
Proof.
  intros Hb Hv. rewrite (authenticate_bearer _ _ _ _ _ _ Hb). run. by rewrite Hv.
Qed.

Lemma authenticate_bad_userId secret next env req σ token decoded e :
  bearer req token →
  jwt_verify token secret (now env) = Returns decoded →
  new_ObjectId (get decoded "userId") = Throws e →
  authenticateJWT secret next env req σ = (InvalidToken, σ).
Proof.
  intros Hb Hv Hid. rewrite (authenticate_bearer _ _ _ _ _ _ Hb). run. rewrite Hv.
  destruct (usersCollection σ); [|done]. by rewrite Hid.
Qed.

Lemma authenticate_valid secret env req σ token decoded oid c u :
  bearer req token →
  jwt_verify token secret (now env) = Returns decoded →
  usersCollection σ = Some c →
  new_ObjectId (get decoded "userId") = Returns oid →
  findOne (by_id oid) c = Some u →
  authenticateJWT secret send_user env req σ = (json 200 (identity u), σ).
Proof.
  intros Hb Hv Hc Hid Hu. rewrite (authenticate_bearer _ _ _ _ _ _ Hb). run.
  rewrite Hv, Hc, Hid. fold (by_id oid). by rewrite Hu.
Qed.

(** C3. [GET /api/user/me] in either revision: without an
    Authorization header the answer is 401; with a token that
    [jwt.verify] rejects (malformed, bad signature, expired) it is 403;
    with a token that verifies and names an existing user it is 200 and
    the body is the object with exactly the keys id, username, email,
    photoUrl, taken from the user's document, the password not among
    them. *)
Theorem user_me_responses rev env req σ :
  (authorization req = None →
   user_me rev env req σ = (json 401 (message "Authorization header missing"), σ))
  ∧ (∀ token e,
       bearer req token →
       jwt_verify token (JWT_SECRET rev σ) (now env) = Throws e →
       user_me rev env req σ = (InvalidToken, σ) ∧ status InvalidToken = 403)
  ∧ (∀ token decoded oid c u,
       bearer req token →
       jwt_verify token (JWT_SECRET rev σ) (now env) = Returns decoded →
       usersCollection σ = Some c →
       new_ObjectId (get decoded "userId") = Returns oid →
       findOne (by_id oid) c = Some u →
       user_me rev env req σ = (json 200 (identity u), σ)
       ∧ keys (identity u) = ["id"; "username"; "email"; "photoUrl"]
       ∧ member "password" (identity u) = None).
Proof.
  rewrite user_me_unfold. split_and!.
  - apply authenticate_no_header.
  - intros token e Hb Hv. split; [|done]. by apply (authenticate_invalid _ _ _ _ _ token e).
  - intros token decoded oid c u Hb Hv Hc Hid Hu. split; [|done].
    by apply (authenticate_valid _ _ _ _ token decoded oid c).
Qed.

Lemma authenticate_unknown secret next env req σ token decoded oid c :
  bearer req token →
  jwt_verify token secret (now env) = Returns decoded →
  usersCollection σ = Some c →
  new_ObjectId (get decoded "userId") = Returns oid →
  findOne (by_id oid) c = None →
  authenticateJWT secret next env req σ = (json 401 (message "User not found"), σ).
Proof.
  intros Hb Hv Hc Hid Hu. rewrite (authenticate_bearer _ _ _ _ _ _ Hb). run.
  rewrite Hv, Hc, Hid. fold (by_id oid). by rewrite Hu.
Qed.

(** C10, as amended. A request whose token verifies is answered by what
    the ObjectId constructor makes of its [userId], in either revision.
    When the constructor throws, as every version of [bson] does on a
    string that is neither 24 hexadecimal digits nor 12 bytes, the
    exception is caught by the [catch] that also takes the failures of
    [jwt.verify], and the answer is the same 403 "Invalid or expired
    token".  When the constructor returns an id, as it does when the
    payload has no [userId] (it then generates one), nothing is thrown:
    the answer is 401 "User not found" when no user has that id.  The
    state is left as it was. *)
Theorem userId_outcomes rev env req σ token decoded :
  bearer req token →
  jwt_verify token (JWT_SECRET rev σ) (now env) = Returns decoded →
  (∀ e, new_ObjectId (get decoded "userId") = Throws e →
     user_me rev env req σ = (InvalidToken, σ)
     ∧ ∀ env' req' token' e',
         bearer req' token' →
         jwt_verify token' (JWT_SECRET rev σ) (now env') = Throws e' →
         user_me rev env' req' σ = (InvalidToken, σ))
  ∧ (rejects_malformed_strings lib →
     ∀ s, get decoded "userId" = VStr s → hex24 s = false → String.length s ≠ 12%nat →
          user_me rev env req σ = (InvalidToken, σ))
  ∧ (∀ oid c,
       new_ObjectId (get decoded "userId") = Returns oid →
       usersCollection σ = Some c → findOne (by_id oid) c = None →
       user_me rev env req σ = (json 401 (message "User not found"), σ))
  ∧ status InvalidToken = 403.
Proof.
  intros Hb Hv. rewrite !user_me_unfold. split_and!; [| | |done].
  - intros e Hid. split.
    + by apply (authenticate_bad_userId _ _ _ _ _ token decoded e).
    + intros env' req' token' e' Hb' Hv'. rewrite user_me_unfold.
      by apply (authenticate_invalid _ _ _ _ _ token' e').
  - intros Hlib s Hs Hhex Hlen. destruct (Hlib s Hhex Hlen) as [e He].
    apply (authenticate_bad_userId _ _ _ _ _ token decoded e); [done..|].
    by rewrite Hs.
  - intros oid c Hid Hc Hn.
    by apply (authenticate_unknown _ _ _ _ _ token decoded oid c).
Qed.
End by_revision.

(** ** Login *)

Section login_claims.
Context {lib : Platform}.

Lemma login_not_found rev env req σ c :
  usersCollection σ = Some c →
  findOne (account_of rev req) c = None →
  login rev env req σ = (json 401 (message "User not found"), σ).
Proof.
  intros Hc Hf. destruct rev; cbn [login];
    [unfold Part000.login | unfold Part001.login]; run; rewrite ?Hc;
    unfold account_of in Hf; cbn in Hf; by rewrite Hf.
Qed.

Lemma login_wrong_password rev env req σ c u :
  usersCollection σ = Some c →
  findOne (account_of rev req) c = Some u →
  bcrypt_compare (get (req_body req) "password") (get u "password") = Returns false →
  login rev env req σ = (json 401 (message "Invalid password"), σ).
Proof.
  intros Hc Hf Hp. destruct rev; cbn [login];
    [unfold Part000.login | unfold Part001.login]; run; rewrite ?Hc;
    unfold account_of in Hf; cbn in Hf; by rewrite Hf, Hp.
Qed.

(** A response of [/login] that carries a token was sent after the
    account was found and [bcrypt.compare] said the password matches. *)
Lemma login_token rev env req σ r σ' t :
  login rev env req σ = (r, σ') →
  member "token" (body r) = Some t →
  ∃ c u,
    usersCollection σ = Some c
    ∧ findOne (account_of rev req) c = Some u
    ∧ bcrypt_compare (get (req_body req) "password") (get u "password") = Returns true
    ∧ status r = 200
    ∧ ∃ projection,
        member "user" (body r) = Some projection
        ∧ keys projection = ["id"; "username"; "email"; "photoUrl"].
Proof.
  unfold account_of.
  destruct rev; cbn [login login_key];
    [unfold Part000.login | unfold Part001.login]; run;
    (destruct (usersCollection σ) as [c|]; [|by intros [= <- <-]]);
    (destruct (findOne _ c) as [u|] eqn:Hu; [|by intros [= <- <-]]);
    (destruct (bcrypt_compare _ _) as [[]|] eqn:Hp; cbn; [|by intros [= <- <-]..]).
  - destruct (toString_method _); [|by intros [= <- <-]].
    destruct (jwt_sign _ _ _); [|by intros [= <- <-]].
    intros [= <- <-] _. exists c, u. split_and!; try done. by eexists.
  - destruct (jwt_sign _ _ _); [|by intros [= <- <-]].
    intros [= <- <-] _. exists c, u. split_and!; try done. by eexists.
Qed.

(** C5. A login whose identifier finds an account but whose password
    [bcrypt.compare] reports as not matching the stored hash is answered
    401 with a body that has no token, the store unchanged; and any
    login response that does carry a token is a 200 sent after the
    comparison succeeded, whose user object has the keys id, username,
    email, photoUrl and so no password. *)
Theorem wrong_password_rejected rev env req σ :
  (∀ c u,
     usersCollection σ = Some c →
     findOne (account_of rev req) c = Some u →
     bcrypt_compare (get (req_body req) "password") (get u "password") = Returns false →
     login rev env req σ = (json 401 (message "Invalid password"), σ)
     ∧ member "token" (message "Invalid password") = None)
  ∧ (∀ r σ' t,
       login rev env req σ = (r, σ') →
       member "token" (body r) = Some t →
       ∃ c u,
         usersCollection σ = Some c
         ∧ findOne (account_of rev req) c = Some u
         ∧ bcrypt_compare (get (req_body req) "password") (get u "password") = Returns true
         ∧ status r = 200
         ∧ ∃ projection,
             member "user" (body r) = Some projection
             ∧ keys projection = ["id"; "username"; "email"; "photoUrl"]
             ∧ member "password" projection = None).
Proof.
  split.
  - intros c u Hc Hf Hp. split; [|done]. by apply (login_wrong_password _ _ _ _ c u).
  - intros r σ' t Hrun Ht.
    destruct (login_token _ _ _ _ _ _ _ Hrun Ht)
      as (c & u & Hc & Hf & Hp & Hs & p & Hm & Hk).
    exists c, u. split_and!; [done..|]. exists p. split_and!; [done..|].
    destruct p as [v|fields|items]; [done| |done]. cbn in *.
    do 4 (destruct fields as [|[? ?] fields]; [done|]).
    destruct fields; [|done]. cbn in Hk. by injection Hk as -> -> -> ->.
Qed.

(** C2, as amended. Against one stored state, a login for an identifier
    that finds no account and a login that finds one but fails the
    password comparison are both answered 401, the first with the
    message "User not found" and the second with "Invalid password":
    the two messages differ. *)
Theorem login_failures_same_status rev env req1 req2 σ c u :
  usersCollection σ = Some c →
  findOne (account_of rev req1) c = None →
  findOne (account_of rev req2) c = Some u →
  bcrypt_compare (get (req_body req2) "password") (get u "password") = Returns false →
  status (fst (login rev env req1 σ)) = 401
  ∧ status (fst (login rev env req2 σ)) = 401
  ∧ body (fst (login rev env req1 σ)) = message "User not found"
  ∧ body (fst (login rev env req2 σ)) = message "Invalid password"
  ∧ body (fst (login rev env req1 σ)) ≠ body (fst (login rev env req2 σ)).
Proof.
  intros Hc Hn Hf Hp.
  rewrite (login_not_found _ _ _ _ c Hc Hn).
  rewrite (login_wrong_password _ _ _ _ c u Hc Hf Hp).
  by split_and!.
Qed.
End login_claims.

(** ** Signup *)

Section signup_claims.
Context {lib : Platform}.

Lemma signup_created rev env req σ r σ' :
  signup rev env req σ = (r, σ') → status r = 201 →
  ∃ c hashedPassword,
    usersCollection σ = Some c
    ∧ findOne (by_email req) c = None
    ∧ σ' = with_users σ (c ++ [new_user env req hashedPassword]).
Proof.
  unfold by_email.
  destruct rev; cbn [signup]; [unfold Part000.signup | unfold Part001.signup]; run;
    (destruct (usersCollection σ) as [c|] eqn:Hc; [|by intros [= <- <-]]);
    (destruct (findOne _ c) as [u|] eqn:Hu; [by intros [= <- <-]|]);
    (destruct (bcrypt_hash _ _ _) as [h|]; [|by intros [= <- <-]]);
    rewrite Hc; unfold insertOne;
    (destruct (existsb _ c); [by intros [= <- <-]|]); cbn.
  - destruct (jwt_sign _ _ _); intros [= <- <-]; [|done]. intros _. by exists c, h.
  - intros [= <- <-] _. by exists c, h.
Qed.

Lemma signup_conflict rev env req σ c u :
  usersCollection σ = Some c →
  findOne (by_email req) c = Some u →
  signup rev env req σ = (DuplicateEmail, σ).
Proof.
  unfold by_email. intros Hc Hu.
  destruct rev; cbn [signup]; [unfold Part000.signup | unfold Part001.signup]; run;
    by rewrite Hc, Hu.
Qed.

Lemma bson_idemp v : bson (bson v) = bson v.
Proof. by destruct v. Qed.

Lemma new_user_matches env req h : matches (by_email req) (new_user env req h) = true.
Proof.
  unfold matches, by_email, new_user, get. cbn.
  rewrite lookup_insert_ne by done. rewrite lookup_fmap.
  rewrite lookup_insert_ne by done. rewrite lookup_insert_eq. cbn.
  rewrite bson_idemp. by rewrite bool_decide_eq_true_2.
Qed.

Lemma find_app q (c1 c2 : Collection) : find q (c1 ++ c2) = find q c1 ++ find q c2.
Proof. unfold find. apply List.filter_app. Qed.

Lemma signup_refused rev env req σ r σ' :
  signup rev env req σ = (r, σ') → status r = 409 →
  σ' = σ ∧ ∃ c u, usersCollection σ = Some c ∧ findOne (by_email req) c = Some u.
Proof.
  unfold by_email.
  destruct rev; cbn [signup]; [unfold Part000.signup | unfold Part001.signup]; run;
    (destruct (usersCollection σ) as [c|] eqn:Hc; [|by intros [= <- <-]]);
    (destruct (findOne _ c) as [u|] eqn:Hu; [intros [= <- <-] _; by eauto|]);
    (destruct (bcrypt_hash _ _ _) as [h|]; [|by intros [= <- <-]]);
    rewrite Hc; unfold insertOne;
    (destruct (existsb _ c); [by intros [= <- <-]|]); cbn.
  - by destruct (jwt_sign _ _ _); intros [= <- <-].
  - by intros [= <- <-].
Qed.

Lemma not_in_ids_existsb (fresh : ObjectId) c :
  VObjectId fresh ∉ ids c →
  existsb (λ d, bool_decide (get d "_id" = VObjectId fresh)) c = false.
Proof.
  intros Hfresh. apply not_true_is_false. intros (d & Hd & Heq)%List.existsb_exists.
  apply bool_decide_eq_true in Heq. destruct Hfresh. unfold ids.
  apply list_elem_of_fmap. exists d. split; [done|]. by apply list_elem_of_In.
Qed.



End signup_claims.

(** * The claims on the sample store *)

(** C1, counterexample: the id [not-an-id] matches no document, and the
    answer is 500. *)
Lemma join_malformed_id_is_500 : ¬ join_not_found_when_unmatched.
Proof.
  intros Hclaim.
  destruct (Hclaim demo (env_at 5000 "") (request None "not-an-id" ∅) sample_server
              [picnic; concert] eq_refl) as [_ H404].
  assert (status (fst (Part001.join_event (lib:=demo) (env_at 5000 "")
                         (request None "not-an-id" ∅) sample_server)) = 500)
    as H500 by (by vm_compute).
  rewrite H404 in H500; [done|]. intros oid Hoid. by vm_compute in Hoid.
Qed.

Lemma join_outcomes_witness :
  (∃ c1 c2,
     [picnic; concert] = c1 ++ picnic :: c2
     ∧ findOne (by_id (Oid "aaaaaaaaaaaaaaaaaaaaaaaa")) c1 = None
     ∧ Part001.join_event (lib:=demo) (env_at 5000 "")
         (request None "aaaaaaaaaaaaaaaaaaaaaaaa" ∅) sample_server
       = (json 200 (message "Joined event successfully"),
          with_events sample_server
            (c1 ++ <["attendeeCount" := VNum (Fin (3 + 1))]> picnic :: c2)))
  ∧ Part001.join_event (lib:=demo) (env_at 5000 "")
      (request None "cccccccccccccccccccccccc" ∅) sample_server
    = (json 404 (message "Event not found"), sample_server)
  ∧ Part001.join_event (lib:=demo) (env_at 5000 "")
      (request None "not-an-id" ∅) sample_server
    = (json 500 (message "Internal server error"), sample_server).
Proof.
  split_and!.
  - apply (join_outcomes (lib:=demo) (env_at 5000 "")
             (request None "aaaaaaaaaaaaaaaaaaaaaaaa" ∅) sample_server
             [picnic; concert] eq_refl);
      [vm_compute; reflexivity .. | unfold safe_integer; lia].
  - apply (join_outcomes (lib:=demo) (env_at 5000 "")
             (request None "cccccccccccccccccccccccc" ∅) sample_server
             [picnic; concert] eq_refl) with (oid := Oid "cccccccccccccccccccccccc");
      vm_compute; reflexivity.
  - apply (join_outcomes (lib:=demo) (env_at 5000 "")
             (request None "not-an-id" ∅) sample_server
             [picnic; concert] eq_refl) with (e := "BSONError");
      vm_compute; reflexivity.
Defined.

(** C2, counterexample: an unknown address and a wrong password for
    alice get two different messages. *)
Lemma login_failures_differ : ¬ login_failures_indistinguishable.
Proof.
  intros Hclaim.
  destruct (Hclaim demo part_000 (env_at 5000 "")
              (request None "" (credentials "email" "nobody@example.org" "wonderland"))
              (request None "" (credentials "email" "alice@example.org" "looking-glass"))
              sample_server [alice] alice eq_refl)
    as (_ & _ & Hsame); [by vm_compute..|].
  by vm_compute in Hsame.
Qed.

Lemma login_failures_same_status_witness :
  status (fst (login (lib:=demo) part_000 (env_at 5000 "")
                 (request None "" (credentials "email" "nobody@example.org" "wonderland"))
                 sample_server)) = 401
  ∧ status (fst (login (lib:=demo) part_000 (env_at 5000 "")
                   (request None "" (credentials "email" "alice@example.org" "looking-glass"))
                   sample_server)) = 401.
Proof.
  destruct (login_failures_same_status (lib:=demo) part_000 (env_at 5000 "")
              (request None "" (credentials "email" "nobody@example.org" "wonderland"))
              (request None "" (credentials "email" "alice@example.org" "looking-glass"))
              sample_server [alice] alice eq_refl)
    as (H1 & H2 & _); [vm_compute; reflexivity..|].
  exact (conj H1 H2).
Defined.

Lemma user_me_responses_witness :
  user_me (lib:=demo) part_001 (env_at 5000 "") (request None "" ∅) sample_server
  = (json 401 (message "Authorization header missing"), sample_server)
  ∧ user_me (lib:=demo) part_001 (env_at 5000 "")
      (request (Some "Bearer tampered") "" ∅) sample_server
    = (InvalidToken, sample_server)
  ∧ user_me (lib:=demo) part_001 (env_at 5000 "")
      (request (Some "Bearer jwt:0123456789abcdef01234567") "" ∅) sample_server
    = (json 200 (identity alice), sample_server).
Proof.
  split_and!.
  - apply (user_me_responses (lib:=demo) part_001 (env_at 5000 "")
             (request None "" ∅) sample_server). reflexivity.
  - apply (user_me_responses (lib:=demo) part_001 (env_at 5000 "")
             (request (Some "Bearer tampered") "" ∅) sample_server)
      with (token := "tampered") (e := "jwt malformed").
    + exists "Bearer tampered". split_and!; [reflexivity | reflexivity | discriminate].
    + reflexivity.
  - apply (user_me_responses (lib:=demo) part_001 (env_at 5000 "")
             (request (Some "Bearer jwt:0123456789abcdef01234567") "" ∅) sample_server)
      with (token := "jwt:0123456789abcdef01234567")
           (decoded := {[ "userId" := VStr "0123456789abcdef01234567" ]})
           (oid := Oid "0123456789abcdef01234567") (c := [alice]).
    + exists "Bearer jwt:0123456789abcdef01234567".
      split_and!; [reflexivity | reflexivity | discriminate].
    + reflexivity.
    + reflexivity.
    + vm_compute; reflexivity.
    + vm_compute; reflexivity.
Defined.

Lemma demo_rejects_malformed_strings : rejects_malformed_strings demo.
Proof.
  intros s Hs _. exists "BSONError". cbn. unfold demo_new_ObjectId. by rewrite Hs.
Qed.

(** C10, counterexample: a token that verifies and names no user.  The
    constructor is given [undefined] and generates an id; no user has it,
    and the answer is 401 "User not found". *)
Lemma absent_userId_is_401 : ¬ invalid_userId_always_forbidden.
Proof.
  intros Hclaim.
  assert (user_me (lib:=demo) part_001 (env_at 5000 "")
            (request (Some "Bearer jwt") "" ∅) sample_server
          = (InvalidToken, sample_server)) as H403.
  { apply (Hclaim demo part_001 (env_at 5000 "") (request (Some "Bearer jwt") "" ∅)
             sample_server "jwt" ∅).
    - exists "Bearer jwt". split_and!; [reflexivity | reflexivity | discriminate].
    - reflexivity.
    - intros s Hs. discriminate Hs. }
  by vm_compute in H403.
Qed.

Lemma userId_outcomes_witness :
  user_me (lib:=demo) part_000 (env_at 5000 "")
    (request (Some "Bearer jwt:me") "" ∅) sample_server
  = (InvalidToken, sample_server)
  ∧ user_me (lib:=demo) part_000 (env_at 5000 "")
      (request (Some "Bearer jwt") "" ∅) sample_server
    = (json 401 (message "User not found"), sample_server).
Proof.
  split.
  - destruct (userId_outcomes (lib:=demo) part_000 (env_at 5000 "")
                (request (Some "Bearer jwt:me") "" ∅) sample_server
                "jwt:me" {[ "userId" := VStr "me" ]}) as (_ & Hstring & _).
    + exists "Bearer jwt:me". split_and!; [reflexivity | reflexivity | discriminate].
    + reflexivity.
    + apply (Hstring demo_rejects_malformed_strings "me");
        [vm_compute; reflexivity | reflexivity | cbn; lia].
  - destruct (userId_outcomes (lib:=demo) part_000 (env_at 5000 "")
                (request (Some "Bearer jwt") "" ∅) sample_server "jwt" ∅)
      as (_ & _ & Hnobody & _).
    + exists "Bearer jwt". split_and!; [reflexivity | reflexivity | discriminate].
    + reflexivity.
    + apply (Hnobody demo_generated [alice]); [reflexivity | reflexivity |].
      vm_compute; reflexivity.
Defined.



Lemma wrong_password_rejected_witness :
  login (lib:=demo) part_001 (env_at 5000 "")
    (request None "" (credentials "username" "alice" "looking-glass")) sample_server
  = (json 401 (message "Invalid password"), sample_server)
  ∧ member "token" (message "Invalid password") = None.
Proof.
  apply (wrong_password_rejected (lib:=demo) part_001 (env_at 5000 "")
           (request None "" (credentials "username" "alice" "looking-glass"))
           sample_server) with (c := [alice]) (u := alice);
    vm_compute; reflexivity.
Defined.

Lemma missing_field_rejected_witness :
  Part001.add_event (env_at 5000 "cccccccccccccccccccccccc")
    (request None "" (delete "title" shrinking_party)) sample_server
  = (ValidationError, sample_server).
Proof.
  assert ("title" ∈ required_fields) as Hk by apply list_elem_of_here.
  assert (absent_or_empty (delete "title" shrinking_party) "title") as Ha
    by (left; vm_compute; reflexivity).
  exact (proj1 (missing_field_rejected (env_at 5000 "cccccccccccccccccccccccc")
                  (request None "" (delete "title" shrinking_party)) sample_server
                  "title" Hk Ha)).
Defined.

Lemma created_attendeeCount_witness :
  ∃ c d,
    eventsCollection sample_server = Some c
    ∧ eventsCollection
        (snd (Part001.add_event (env_at 5000 "cccccccccccccccccccccccc")
                (request None "" shrinking_party) sample_server))
      = Some (c ++ [d])
    ∧ d !! "attendeeCount" = Some (VNum (Fin (-5))).
Proof.
  destruct (created_attendeeCount (env_at 5000 "cccccccccccccccccccccccc")
              (request None "" shrinking_party) sample_server
              (fst (Part001.add_event (env_at 5000 "cccccccccccccccccccccccc")
                      (request None "" shrinking_party) sample_server))
              (snd (Part001.add_event (env_at 5000 "cccccccccccccccccccccccc")
                      (request None "" shrinking_party) sample_server)))
    as (c & d & Hc & Hc' & _ & _ & _ & Hz & _ & _).
  - right. apply surjective_pairing.
  - vm_compute; reflexivity.
  - exists c, d. split_and!; [exact Hc | exact Hc' |].
    apply Hz. vm_compute; reflexivity.
Defined.

Lemma list_all_newest_first_witness :
  ∃ l,
    Part001.get_events (env_at 5000 "") (request None "" ∅) sample_server
    = (json 200 (JArr (doc_json <$> l)), sample_server)
    ∧ l ≡ₚ [picnic; concert]
    ∧ StronglySorted (descending "createdAt") l.
Proof.
  destruct (list_all_newest_first (env_at 5000 "") (request None "" ∅) sample_server
              [picnic; concert] eq_refl) as (l & _ & Hrun & Hperm & Hsorted & _).
  exists l. exact (conj Hrun (conj Hperm Hsorted)).
Defined.

(** C9, counterexample: a body that names another [_id] and a new
    title differs from the picnic, and the answer is 500. *)
Lemma update_other_id_is_500 : ¬ update_succeeds_when_content_changes.
Proof.
  intros Hclaim.
  set (body := {[ "_id" := VStr "bbbbbbbbbbbbbbbbbbbbbbbb"; "title" := VStr "Lunch" ]}
               : Document).
  destruct (Hclaim demo (env_at 5000 "") (about_picnic body) sample_server
              [picnic; concert] (Oid "aaaaaaaaaaaaaaaaaaaaaaaa") eq_refl eq_refl)
    as [_ H200].
  assert (status (fst (Part001.update_event (lib:=demo) (env_at 5000 "")
                         (about_picnic body) sample_server)) = 500)
    as H500 by (by vm_compute).
  rewrite H200 in H500; [done|].
  exists picnic. split; [vm_compute; reflexivity|].
  intros Heq. apply (f_equal (λ d : Document, d !! "title")) in Heq.
  by vm_compute in Heq.
Qed.

Lemma update_outcomes_witness :
  (∃ c1 c2,
     [picnic; concert] = c1 ++ picnic :: c2
     ∧ findOne (by_id (Oid "aaaaaaaaaaaaaaaaaaaaaaaa")) c1 = None
     ∧ Part001.update_event (lib:=demo) (env_at 5000 "")
         (about_picnic {[ "title" := VStr "Lunch" ]}) sample_server
       = (json 200 (message "Event updated successfully"),
          with_events sample_server
            (c1 ++ merged {[ "title" := VStr "Lunch" ]} picnic :: c2)))
  ∧ Part001.update_event (lib:=demo) (env_at 5000 "")
      (about_picnic {[ "title" := VStr "Picnic" ]}) sample_server
    = (NotFoundOrUpToDate, sample_server)
  ∧ Part001.update_event (lib:=demo) (env_at 5000 "")
      (request None "cccccccccccccccccccccccc" {[ "title" := VStr "Picnic" ]}) sample_server
    = (NotFoundOrUpToDate, sample_server)
  ∧ Part001.update_event (lib:=demo) (env_at 5000 "")
      (about_picnic {[ "_id" := VStr "aaaaaaaaaaaaaaaaaaaaaaaa" ]}) sample_server
    = (json 500 (message "Failed to update event"), sample_server)
  ∧ Part001.update_event (lib:=demo) (env_at 5000 "")
      (about_picnic {[ "title.short" := VStr "Lunch" ]}) sample_server
    = (json 500 (message "Failed to update event"), sample_server)
  ∧ Part001.update_event (lib:=demo) (env_at 5000 "")
      (about_picnic {[ "" := VStr "Lunch" ]}) sample_server
    = (json 500 (message "Failed to update event"), sample_server).
Proof.
  assert (findOne (by_id (Oid "aaaaaaaaaaaaaaaaaaaaaaaa")) [picnic; concert] = Some picnic)
    as Hpicnic by (vm_compute; reflexivity).
  split_and!.
  - destruct (update_outcomes (lib:=demo) (env_at 5000 "")
                (about_picnic {[ "title" := VStr "Lunch" ]})
                sample_server [picnic; concert] (Oid "aaaaaaaaaaaaaaaaaaaaaaaa")
                eq_refl eq_refl) as (_ & _ & _ & _ & H200 & _).
    apply (H200 picnic Hpicnic).
    + apply set_allowed_settable. by_decision.
    + intros Hsame.
      assert (picnic !! "title" = Some (bson (VStr "Lunch"))) as Htitle
        by (apply Hsame; vm_compute; reflexivity).
      vm_compute in Htitle. discriminate Htitle.
  - destruct (update_outcomes (lib:=demo) (env_at 5000 "")
                (about_picnic {[ "title" := VStr "Picnic" ]})
                sample_server [picnic; concert] (Oid "aaaaaaaaaaaaaaaaaaaaaaaa")
                eq_refl eq_refl) as (_ & _ & _ & H404 & _).
    apply (H404 picnic Hpicnic).
    + apply set_allowed_settable. by_decision.
    + intros k v Hk. cbn [req_body request about_picnic] in Hk.
      apply lookup_singleton_Some in Hk as [<- <-].
      vm_compute; reflexivity.
  - destruct (update_outcomes (lib:=demo) (env_at 5000 "")
                (request None "cccccccccccccccccccccccc" {[ "title" := VStr "Picnic" ]})
                sample_server [picnic; concert] (Oid "cccccccccccccccccccccccc")
                eq_refl eq_refl) as (_ & _ & H404 & _).
    apply H404. vm_compute; reflexivity.
  - destruct (update_outcomes (lib:=demo) (env_at 5000 "")
                (about_picnic {[ "_id" := VStr "aaaaaaaaaaaaaaaaaaaaaaaa" ]})
                sample_server [picnic; concert] (Oid "aaaaaaaaaaaaaaaaaaaaaaaa")
                eq_refl eq_refl) as (_ & _ & _ & _ & _ & _ & H500 & _).
    apply (H500 picnic (VStr "aaaaaaaaaaaaaaaaaaaaaaaa") Hpicnic);
      [vm_compute; reflexivity | vm_compute; discriminate].
  - destruct (update_outcomes (lib:=demo) (env_at 5000 "")
                (about_picnic {[ "title.short" := VStr "Lunch" ]})
                sample_server [picnic; concert] (Oid "aaaaaaaaaaaaaaaaaaaaaaaa")
                eq_refl eq_refl) as (_ & _ & _ & _ & _ & _ & _ & H500 & _).
    apply (H500 picnic "title.short" "title" Hpicnic);
      [vm_compute; eauto | vm_compute; eauto | reflexivity].
  - destruct (update_outcomes (lib:=demo) (env_at 5000 "")
                (about_picnic {[ "" := VStr "Lunch" ]})
                sample_server [picnic; concert] (Oid "aaaaaaaaaaaaaaaaaaaaaaaa")
                eq_refl eq_refl) as (_ & _ & _ & _ & _ & _ & _ & _ & H500).
    apply (H500 picnic "" Hpicnic); [vm_compute; eauto | apply list_elem_of_here].
Defined.

(** * Beyond the claims: the other routes and how the routes compose *)

(** ** Shared facts *)

Lemma matches_by_id oid d : matches (by_id oid) d = true ↔ get d "_id" = VObjectId oid.
Proof.
  unfold matches, by_id. cbn. rewrite andb_true_r, bool_decide_eq_true.
  destruct (get d "_id"); cbn; split; congruence.
Qed.

Lemma findOne_None_all q c : findOne q c = None ↔ ∀ d, d ∈ c → matches q d = false.
Proof.
  unfold findOne. split.
  - intros Hn d Hd. apply (List.find_none _ _ Hn). by apply list_elem_of_In.
  - intros Hall. induction c as [|d c IH]; [done|]. cbn.
    rewrite (Hall d) by apply list_elem_of_here. apply IH.
    intros d' Hd'. apply Hall. by apply list_elem_of_further.
Qed.

Lemma deleteOne_no_match q c :
  findOne q c = None → deleteOne q c = ({| deletedCount := 0 |}, c).
Proof.
  unfold findOne. induction c as [|d c IH]; cbn; [done|].
  destruct (matches q d); [done|]. intros Hn. by rewrite IH.
Qed.

Lemma deleteOne_first q c1 d c2 :
  findOne q c1 = None → matches q d = true →
  deleteOne q (c1 ++ d :: c2) = ({| deletedCount := 1 |}, c1 ++ c2).
Proof.
  unfold findOne. intros Hn Hd. induction c1 as [|d1 c1 IH]; cbn in *.
  - by rewrite Hd.
  - destruct (matches q d1); [done|]. by rewrite IH.
Qed.

(** With no two documents sharing an [_id], the one found is the only
    one that has it. *)
Lemma unique_id_elsewhere oid c1 d c2 :
  unique_ids (Some (c1 ++ d :: c2)) → matches (by_id oid) d = true →
  findOne (by_id oid) (c1 ++ c2) = None.
Proof.
  unfold unique_ids, ids. cbn. rewrite fmap_app, fmap_cons.
  intros Hnd Hd%matches_by_id. apply findOne_None_all. intros d' Hd'.
  destruct (matches (by_id oid) d') eqn:Hm; [|done].
  apply matches_by_id in Hm. apply NoDup_app in Hnd as (_ & Hdisj & Hnd2).
  apply NoDup_cons in Hnd2 as [Hnotin _].
  apply elem_of_app in Hd' as [Hd'|Hd'].
  - destruct (Hdisj (get d' "_id")).
    + apply list_elem_of_fmap. by exists d'.
    + rewrite Hm, <- Hd. apply list_elem_of_here.
  - destruct Hnotin. rewrite Hd, <- Hm. apply list_elem_of_fmap. by exists d'.
Qed.

Section more_event_routes.
Context {lib : Platform}.

(** On a connected store the event routes of the two revisions are the
    same function. *)
Lemma serve_connected rev route env req σ :
  is_Some (eventsCollection σ) →
  route = AddEvent ∨ route = GetEvents ∨ writes_events route →
  serve rev route env req σ = serve part_001 route env req σ.
Proof.
  intros [c Hc] Hroute. destruct rev; [|done].
  destruct Hroute as [->|[->|[->|[->|[->| ->]]]]]; cbn [serve]; f_equal.
  - apply add_event_connected. by rewrite Hc.
  - apply get_events_connected. by rewrite Hc.
  - apply add_event_connected. by rewrite Hc.
  - apply join_event_connected. by rewrite Hc.
  - apply update_event_connected. by rewrite Hc.
  - unfold Part000.delete_event, Part001.delete_event. by rewrite Hc.
Qed.

Lemma get_events_run env req σ c :
  eventsCollection σ = Some c →
  Part001.get_events env req σ
  = (json 200 (JArr (doc_json <$> sort_descending "createdAt" c)), σ).
Proof. intros Hc. unfold Part001.get_events. run. rewrite Hc. by rewrite find_all. Qed.

Lemma delete_event_malformed env req σ e :
  new_ObjectId (VStr (params_id req)) = Throws e →
  Part001.delete_event env req σ = (json 500 (message "Failed to delete event"), σ).
Proof.
  intros Hid. unfold Part001.delete_event, events_deleteOne. run.
  destruct (eventsCollection σ); [|done]. by rewrite Hid.
Qed.

Lemma delete_event_not_found env req σ c oid :
  eventsCollection σ = Some c →
  new_ObjectId (VStr (params_id req)) = Returns oid →
  findOne (by_id oid) c = None →
  Part001.delete_event env req σ = (json 404 (message "Event not found"), σ).
Proof.
  intros Hc Hid Hn. unfold Part001.delete_event, events_deleteOne. run.
  rewrite Hc, Hid. fold (by_id oid). rewrite (deleteOne_no_match _ _ Hn). cbn.
  f_equal. by apply with_events_same.
Qed.

Lemma delete_event_found env req σ c1 d c2 oid :
  eventsCollection σ = Some (c1 ++ d :: c2) →
  new_ObjectId (VStr (params_id req)) = Returns oid →
  findOne (by_id oid) c1 = None → matches (by_id oid) d = true →
  Part001.delete_event env req σ
  = (json 200 (message "Event deleted successfully"), with_events σ (c1 ++ c2)).
Proof.
  intros Hc Hid Hn Hm. unfold Part001.delete_event, events_deleteOne. run.
  rewrite Hc, Hid. fold (by_id oid). by rewrite (deleteOne_first _ _ _ _ Hn Hm).
Qed.

(** A delete answered 200 found the document and removed it. *)
Lemma delete_event_200 env req σ r σ' :
  Part001.delete_event env req σ = (r, σ') → status r = 200 →
  ∃ oid c1 d c2,
    eventsCollection σ = Some (c1 ++ d :: c2)
    ∧ new_ObjectId (VStr (params_id req)) = Returns oid
    ∧ findOne (by_id oid) c1 = None ∧ matches (by_id oid) d = true
    ∧ σ' = with_events σ (c1 ++ c2).
Proof.
  intros Hrun Hr.
  destruct (eventsCollection σ) as [c|] eqn:Hc.
  - destruct (new_ObjectId (VStr (params_id req))) as [oid|e] eqn:Hid.
    + destruct (findOne (by_id oid) c) as [d|] eqn:Hf.
      * apply findOne_split in Hf as (c1 & c2 & -> & Hn & Hm).
        rewrite (delete_event_found _ _ _ _ _ _ _ Hc Hid Hn Hm) in Hrun.
        injection Hrun as <- <-. by exists oid, c1, d, c2.
      * rewrite (delete_event_not_found _ _ _ _ _ Hc Hid Hf) in Hrun.
        by injection Hrun as <- <-.
    + rewrite (delete_event_malformed _ _ _ _ Hid) in Hrun. by injection Hrun as <- <-.
  - unfold Part001.delete_event, events_deleteOne in Hrun. run. rewrite Hc in Hrun.
    by injection Hrun as <- <-.
Qed.

(** X1. [DELETE /api/events/:id] on a connected store, in either
    revision: a valid id that an event has removes the first document
    with that id and nothing else, 200; a valid id that no event has is
    answered 404 and a malformed id 500, the store unchanged. *)
Theorem delete_outcomes rev env req σ c :
  eventsCollection σ = Some c →
  (∀ oid d,
     new_ObjectId (VStr (params_id req)) = Returns oid →
     findOne (by_id oid) c = Some d →
     ∃ c1 c2,
       c = c1 ++ d :: c2 ∧ findOne (by_id oid) c1 = None
       ∧ serve rev DeleteEvent env req σ
         = (Some (json 200 (message "Event deleted successfully")),
            with_events σ (c1 ++ c2)))
  ∧ (∀ oid,
       new_ObjectId (VStr (params_id req)) = Returns oid →
       findOne (by_id oid) c = None →
       serve rev DeleteEvent env req σ
       = (Some (json 404 (message "Event not found")), σ))
  ∧ (∀ e,
       new_ObjectId (VStr (params_id req)) = Throws e →
       serve rev DeleteEvent env req σ
       = (Some (json 500 (message "Failed to delete event")), σ)).
Proof.
  intros Hc.
  rewrite serve_connected by (rewrite ?Hc; unfold writes_events; eauto 10).
  cbn [serve]. split_and!.
  - intros oid d Hid (c1 & c2 & -> & Hn & Hm)%findOne_split. exists c1, c2.
    split_and!; [done..|]. by rewrite (delete_event_found _ _ _ c1 d c2 oid).
  - intros oid Hid Hn. by rewrite (delete_event_not_found _ _ _ c oid).
  - intros e He. by rewrite (delete_event_malformed _ _ _ e).
Qed.

(** X2. When no two events share an [_id], an event deleted with answer
    200 is gone: no document has the id any more, a second delete of the
    same id is answered 404, the listing has no document with the id, and
    the ids are still pairwise different. *)
Theorem deleted_event_is_gone rev env req σ c r σ' :
  eventsCollection σ = Some c → unique_ids (Some c) →
  serve rev DeleteEvent env req σ = (Some r, σ') → status r = 200 →
  ∃ oid c',
    new_ObjectId (VStr (params_id req)) = Returns oid
    ∧ eventsCollection σ' = Some c'
    ∧ findOne (by_id oid) c' = None
    ∧ unique_ids (Some c')
    ∧ (∀ env', serve rev DeleteEvent env' req σ'
               = (Some (json 404 (message "Event not found")), σ'))
    ∧ (∀ env' req', ∃ l,
         serve rev GetEvents env' req' σ' = (Some (json 200 (JArr (doc_json <$> l))), σ')
         ∧ l ≡ₚ c' ∧ ∀ d, d ∈ l → get d "_id" ≠ VObjectId oid).
Proof.
  intros Hc Hu. rewrite serve_connected by (rewrite ?Hc; unfold writes_events; eauto 10).
  cbn [serve answered]. intros [= Hr Hσ] Hs.
  destruct (delete_event_200 env req σ r σ') as (oid & c1 & d & c2 & Hc' & Hid & Hn & Hm & ->).
  { rewrite <- Hr, <- Hσ. apply surjective_pairing. }
  { done. }
  rewrite Hc in Hc'. injection Hc' as ->.
  pose proof (unique_id_elsewhere _ _ _ _ Hu Hm) as Hgone.
  exists oid, (c1 ++ c2). split_and!; [done..| | |].
  - revert Hu. unfold unique_ids, ids. cbn. rewrite !fmap_app, fmap_cons.
    intros Hnd. apply NoDup_app in Hnd as (H1 & H2 & H3).
    apply NoDup_cons in H3 as [H3 H4]. apply NoDup_app. split_and!; [done| |done].
    intros x Hx1 Hx2. apply (H2 x Hx1). by apply list_elem_of_further.
  - intros env'. rewrite serve_connected by (cbn; unfold writes_events; eauto 10).
    cbn [serve]. by rewrite (delete_event_not_found _ _ _ (c1 ++ c2) oid).
  - intros env' req'. exists (sort_descending "createdAt" (c1 ++ c2)).
    rewrite serve_connected by (cbn; eauto).
    cbn [serve]. rewrite (get_events_run _ _ _ (c1 ++ c2)) by done.
    split_and!; [done | apply merge_sort_Permutation |].
    intros d' Hd' Hid'.
    assert (d' ∈ c1 ++ c2) as Hin.
    { eapply elem_of_Permutation_proper; [|exact Hd'].
      symmetry. apply merge_sort_Permutation. }
    pose proof (proj1 (findOne_None_all _ _) Hgone d' Hin) as Hno.
    apply matches_by_id in Hid'. congruence.
Qed.
End more_event_routes.

(** ** Runs of join and update *)

Section join_update_runs.
Context {lib : Platform}.

Lemma not_connected_status rev route env req σ r σ' :
  eventsCollection σ = None →
  route = GetEvents ∨ writes_events route →
  serve rev route env req σ = (Some r, σ') →
  status r ∈ [400; 500; 503] ∧ σ' = σ.
Proof.
  intros Hc Hroute.
  destruct rev, Hroute as [->|[->|[->|[->| ->]]]]; cbn [serve answered];
    unfold Part000.get_events, Part000.add_event, Part000.join_event,
      Part000.update_event, Part000.delete_event,
      Part001.get_events, Part001.add_event, Part001.join_event,
      Part001.update_event, Part001.delete_event, events_deleteOne;
    run; rewrite ?Hc; try (destruct (_ || _)); cbn; rewrite ?Hc;
    intros [= <- <-]; (split; [in_list | done]).
Qed.

Lemma with_events_twice σ c c' : with_events (with_events σ c) c' = with_events σ c'.
Proof. done. Qed.

Lemma join_event_200 env req σ r σ' :
  Part001.join_event env req σ = (r, σ') → status r = 200 →
  ∃ oid c1 d c2 d',
    eventsCollection σ = Some (c1 ++ d :: c2)
    ∧ new_ObjectId (VStr (params_id req)) = Returns oid
    ∧ findOne (by_id oid) c1 = None ∧ matches (by_id oid) d = true
    ∧ apply_update (Inc "attendeeCount" 1) d = Returns d' ∧ d' ≠ d
    ∧ σ' = with_events σ (c1 ++ d' :: c2).
Proof.
  unfold Part001.join_event. run.
  destruct (eventsCollection σ) as [c|] eqn:Hc; [|by intros [= <- <-]].
  destruct (new_ObjectId _) as [oid|e] eqn:Hid; [|by intros [= <- <-]].
  fold (by_id oid).
  destruct (findOne (by_id oid) c) as [d|] eqn:Hf.
  - apply findOne_split in Hf as (c1 & c2 & -> & Hn & Hm).
    rewrite (updateOne_first _ _ _ _ _ Hn Hm).
    destruct (apply_update _ d) as [d'|] eqn:Hd'; [|by intros [= <- <-]]. cbn.
    case_bool_decide as Heq; cbn; intros [= <- <-]; [done|]. intros _.
    by exists oid, c1, d, c2, d'.
  - rewrite (updateOne_no_match _ _ _ Hf). cbn. by intros [= <- <-].
Qed.

Lemma update_event_200 env req σ r σ' :
  Part001.update_event env req σ = (r, σ') → status r = 200 →
  ∃ oid c1 d c2,
    eventsCollection σ = Some (c1 ++ d :: c2)
    ∧ new_ObjectId (VStr (params_id req)) = Returns oid
    ∧ findOne (by_id oid) c1 = None ∧ matches (by_id oid) d = true
    ∧ settable (req_body req) d ∧ merged (req_body req) d ≠ d
    ∧ σ' = with_events σ (c1 ++ merged (req_body req) d :: c2).
Proof.
  intros Hrun Hr.
  destruct (eventsCollection σ) as [c|] eqn:Hc.
  - destruct (new_ObjectId (VStr (params_id req))) as [oid|e] eqn:Hid.
    + destruct (findOne (by_id oid) c) as [d|] eqn:Hf.
      * apply findOne_split in Hf as (c1 & c2 & -> & Hn & Hm).
        rewrite (update_event_found _ _ _ _ _ _ _ Hc Hid Hn Hm) in Hrun.
        destruct (apply_set_cases (req_body req) d) as [[Hk Ha]|[Hk Ha]];
          rewrite Ha in Hrun.
        -- case_bool_decide as Heq; injection Hrun as <- <-; [done|].
           by exists oid, c1, d, c2.
        -- by injection Hrun as <- <-.
      * rewrite (update_event_not_found _ _ _ _ _ Hc Hid Hf) in Hrun.
        by injection Hrun as <- <-.
    + rewrite (update_event_malformed _ _ _ _ Hid) in Hrun. by injection Hrun as <- <-.
  - unfold Part001.update_event in Hrun. run. rewrite Hc in Hrun.
    by injection Hrun as <- <-.
Qed.

(** A route answered 200 or 201 by an event route was served by a
    connected store, on which the two revisions agree. *)
Lemma served_by_part_001 rev route env req σ r σ' :
  route = GetEvents ∨ writes_events route →
  serve rev route env req σ = (Some r, σ') → status r = 200 ∨ status r = 201 →
  is_Some (eventsCollection σ) ∧ serve part_001 route env req σ = (Some r, σ').
Proof.
  intros Hroute Hrun Hr. destruct (eventsCollection σ) as [c|] eqn:Hc.
  - split; [done|]. rewrite <- Hrun. symmetry. apply serve_connected; [by rewrite Hc|tauto].
  - destruct (not_connected_status _ _ _ _ _ _ _ Hc Hroute Hrun) as [Hs _].
    revert Hs. rewrite !elem_of_cons, elem_of_nil. lia.
Qed.

Lemma get_insert_ne (d : Document) k k' v : k ≠ k' → get (<[k := v]> d) k' = get d k'.
Proof. intros Hne. unfold get. by rewrite lookup_insert_ne. Qed.

Lemma replay_joins_001 requests : ∀ σ c1 d c2 oid z,
  eventsCollection σ = Some (c1 ++ d :: c2) →
  findOne (by_id oid) c1 = None → get d "_id" = VObjectId oid →
  d !! "attendeeCount" = Some (VNum (Fin z)) →
  safe_integer z → safe_integer (z + Z.of_nat (length requests)) →
  (∀ x, x ∈ requests → new_ObjectId (VStr (params_id (snd x))) = Returns oid) →
  replay Part001.join_event requests σ
  = (replicate (length requests) (json 200 (message "Joined event successfully")),
     with_events σ
       (c1 ++ <["attendeeCount" := VNum (Fin (z + Z.of_nat (length requests)))]> d :: c2)).
Proof.
  induction requests as [|[env req] requests IH]; intros σ c1 d c2 oid z Hc Hn Hd Hz Hs1 Hs2 Hids.
  - cbn. rewrite Z.add_0_r, insert_id by done. by rewrite with_events_same.
  - cbn [replay fst snd length replicate].
    assert (safe_integer (z + 1)) as Hs3.
    { unfold safe_integer in *. cbn [length] in Hs2. lia. }
    rewrite (join_event_found env req σ c1 d c2 oid
               (<["attendeeCount" := VNum (Fin (z + 1))]> d)); first last.
    { by apply increment_changes. }
    { cbn. by rewrite Hz, Number_add_safe. }
    { by apply matches_by_id. }
    { done. }
    { apply (Hids (env, req)), list_elem_of_here. }
    { done. }
    cbn [fst snd].
    rewrite (IH _ c1 (<["attendeeCount" := VNum (Fin (z + 1))]> d) c2 oid (z + 1));
      [| done | done | by rewrite get_insert_ne | by rewrite lookup_insert_eq | done | |].
    + cbn [fst snd]. rewrite insert_insert_eq, with_events_twice.
      replace (z + 1 + Z.of_nat (length requests))
        with (z + Z.of_nat (length ((env, req) :: requests)))
        by (cbn [length]; lia).
      done.
    + unfold safe_integer in *. cbn [length] in Hs2. lia.
    + intros x Hx. apply Hids. by apply list_elem_of_further.
Qed.

Lemma join_event_stays_connected env req σ :
  is_Some (eventsCollection σ) →
  is_Some (eventsCollection (snd (Part001.join_event env req σ))).
Proof.
  intros [c Hc]. unfold Part001.join_event. run. rewrite Hc.
  destruct (new_ObjectId _); [|by cbn; rewrite Hc].
  destruct (updateOne _ _ c) as [[u c']|]; [|by cbn; rewrite Hc].
  cbn. by destruct (modifiedCount u =? 0).
Qed.

(** Connected stores stay connected, so a run of [part_000]'s join is a
    run of [part_001]'s. *)
Lemma replay_join_connected requests : ∀ σ,
  is_Some (eventsCollection σ) →
  replay Part000.join_event requests σ = replay Part001.join_event requests σ.
Proof.
  induction requests as [|[env req] requests IH]; intros σ Hc; [done|].
  cbn [replay fst snd]. rewrite join_event_connected by done.
  rewrite IH; [done|]. by apply join_event_stays_connected.
Qed.

(** X3. Joins of one event served one after the other add up: when the
    event holds the safe integer [z] and [z + n] is safe too, [n] joins
    of its id are all answered 200 and leave the count at [z + n], every
    other field and document as it was. *)
Theorem joins_add_up requests σ c1 d c2 oid z :
  eventsCollection σ = Some (c1 ++ d :: c2) →
  findOne (by_id oid) c1 = None → get d "_id" = VObjectId oid →
  d !! "attendeeCount" = Some (VNum (Fin z)) →
  safe_integer z → safe_integer (z + Z.of_nat (length requests)) →
  (∀ x, x ∈ requests → new_ObjectId (VStr (params_id (snd x))) = Returns oid) →
  replay Part001.join_event requests σ
  = (replicate (length requests) (json 200 (message "Joined event successfully")),
     with_events σ
       (c1 ++ <["attendeeCount" := VNum (Fin (z + Z.of_nat (length requests)))]> d :: c2))
  ∧ replay Part000.join_event requests σ = replay Part001.join_event requests σ.
Proof.
  intros Hc Hn Hd Hz Hs1 Hs2 Hids. split.
  - by apply (replay_joins_001 requests σ c1 d c2 oid z).
  - apply replay_join_connected. by rewrite Hc.
Qed.

Lemma merged_keeps_id updatedData d : keeps_id updatedData (merged updatedData d).
Proof. intros v Hv. by apply merged_lookup. Qed.

(** A path below another has a dot in it. *)
Lemma below_dot k : ∀ k', below k k' = true → In "."%char (list_ascii_of_string k').
Proof.
  unfold below. induction k as [|a k IH]; intros [|b k'];
    cbv [String.append]; fold String.append;
    cbn [String.prefix list_ascii_of_string In]; try done.
  - destruct (ascii_dec "." b) as [<-|]; [intros _; by left | done].
  - destruct (ascii_dec a b) as [<-|]; [|done]. intros Hk. right. by apply IH.
Qed.

Lemma below_id k : below k "_id" = false.
Proof.
  apply not_true_is_false. intros Hb%below_dot. cbn in Hb.
  by destruct Hb as [|[|[|[]]]].
Qed.

Lemma merged_id updatedData d :
  keeps_id updatedData d → get (merged updatedData d) "_id" = get d "_id".
Proof.
  intros Hk. unfold get.
  destruct (updatedData !! "_id") as [v|] eqn:Hv.
  - by rewrite (merged_lookup _ _ _ _ Hv), (Hk v Hv).
  - unfold merged. rewrite lookup_union_r by (by rewrite lookup_fmap, Hv).
    destruct (d !! "_id") as [w|] eqn:Hw.
    + rewrite (proj2 (map_lookup_filter_Some _ d "_id" w)); [done|].
      split; [done|]. intros (k & u & _ & _ & Hb). cbn [fst] in Hb. by rewrite below_id in Hb.
    + by rewrite (proj2 (map_lookup_filter_None _ d "_id")) by (by left).
Qed.

(** An update that was accepted is accepted again, and then finds
    nothing to change. *)
Lemma merged_settable updatedData d :
  settable updatedData d → settable updatedData (merged updatedData d).
Proof.
  intros [Hall _]. split; [|apply merged_keeps_id].
  intros k Hk. destruct (Hall k Hk) as (Hu & Hc & Hv). split_and!; [done..|].
  intros p [w Hp]. unfold merged in Hp. apply lookup_union_Some_raw in Hp as [Hp|[_ Hp]].
  - rewrite lookup_fmap in Hp. destruct (updatedData !! p) as [v|] eqn:Hbody; [|done].
    destruct (Hall p) as (_ & Hc' & _); [by eauto|]. by apply Hc'.
  - apply map_lookup_filter_Some in Hp as [Hp _]. apply Hv. by eauto.
Qed.

Lemma merged_twice updatedData d :
  merged updatedData (merged updatedData d) = merged updatedData d.
Proof. apply merged_same. intros k v Hk. by apply merged_lookup. Qed.

(** X4. An update repeated is refused: after an update answered 200,
    the same request served next, on the state that update leaves, is
    answered 404 "Event not found or already up to date" and changes
    nothing, in either revision and whatever the time. *)
Theorem repeated_update_refused rev env env' req σ r σ' :
  serve rev UpdateEvent env req σ = (Some r, σ') → status r = 200 →
  serve rev UpdateEvent env' req σ' = (Some NotFoundOrUpToDate, σ').
Proof.
  intros Hrun Hr.
  destruct (served_by_part_001 _ _ _ _ _ _ _ (or_intror (or_intror (or_intror (or_introl eq_refl))))
              Hrun (or_introl Hr)) as [_ Hrun'].
  cbn [serve answered] in Hrun'. injection Hrun' as Hr' Hσ'.
  destruct (update_event_200 env req σ r σ')
    as (oid & c1 & d & c2 & Hc & Hid & Hn & Hm & Hk & Hne & ->).
  { rewrite <- Hr', <- Hσ'. apply surjective_pairing. }
  { done. }
  rewrite serve_connected by (cbn; unfold writes_events; eauto 10).
  cbn [serve answered]. f_equal.
  rewrite (update_event_found env' req _ c1 (merged (req_body req) d) c2 oid);
    [| done | done | done |].
  - destruct (apply_set_cases (req_body req) (merged (req_body req) d)) as [[_ ->]|[Hk' _]].
    + by rewrite merged_twice, bool_decide_eq_true_2.
    + destruct Hk'. by apply merged_settable.
  - apply matches_by_id. rewrite merged_id by apply Hk. by apply matches_by_id.
Qed.

(** X5. Update does not check what it stores: after an update answered
    200 whose body gives attendeeCount a value that is not a number, a
    join of that event served on the state the update leaves is answered
    500 and leaves that state as it is, in either revision. *)
Theorem join_after_update_fails rev env env' req req' σ r σ' v :
  serve rev UpdateEvent env req σ = (Some r, σ') → status r = 200 →
  req_body req !! "attendeeCount" = Some v → (∀ n, v ≠ VNum n) →
  params_id req' = params_id req →
  serve rev JoinEvent env' req' σ'
  = (Some (json 500 (message "Internal server error")), σ').
Proof.
  intros Hrun Hr Hv Hnum Hsame.
  destruct (served_by_part_001 _ _ _ _ _ _ _ (or_intror (or_intror (or_intror (or_introl eq_refl))))
              Hrun (or_introl Hr)) as [_ Hrun'].
  cbn [serve answered] in Hrun'. injection Hrun' as Hr' Hσ'.
  destruct (update_event_200 env req σ r σ')
    as (oid & c1 & d & c2 & Hc & Hid & Hn & Hm & Hk & Hne & ->).
  { rewrite <- Hr', <- Hσ'. apply surjective_pairing. }
  { done. }
  rewrite serve_connected by (cbn; unfold writes_events; eauto 10).
  cbn [serve answered]. f_equal.
  unfold Part001.join_event. run. cbn [eventsCollection with_events].
  rewrite Hsame, Hid. fold (by_id oid).
  rewrite (updateOne_first _ _ _ _ _ Hn); first last.
  { apply matches_by_id. rewrite merged_id by apply Hk. by apply matches_by_id. }
  cbn. unfold merged.
  rewrite (lookup_union_Some_l _ _ _ (bson v)) by (by rewrite lookup_fmap, Hv).
  destruct v; try done. by destruct (Hnum n).
Qed.
End join_update_runs.

(** ** Listing after creation, and the listing by owner *)

Section listings.
Context {lib : Platform}.

Lemma matches_email email d :
  matches [("email", VStr email)] d = true ↔ get d "email" = VStr email.
Proof.
  unfold matches. cbn. rewrite andb_true_r, bool_decide_eq_true.
  destruct (get d "email"); cbn; split; congruence.
Qed.

Lemma find_sublist q c : sublist (find q c) c.
Proof.
  unfold find. induction c as [|d c IH]; cbn; [constructor|].
  destruct (matches q d); by constructor.
Qed.

Lemma find_elem_of q c d : d ∈ find q c ↔ d ∈ c ∧ matches q d = true.
Proof. unfold find. rewrite !list_elem_of_In. apply List.filter_In. Qed.

Lemma new_event_createdAt env req : get (new_event env req) "createdAt" = VDate (now env).
Proof.
  unfold get, new_event. rewrite lookup_insert_ne by done. rewrite lookup_fmap.
  by simplify_map_eq.
Qed.

Lemma new_event_email env req :
  get (new_event env req) "email" = bson (get (req_body req) "email").
Proof.
  unfold get at 1, new_event. rewrite lookup_insert_ne by done. rewrite lookup_fmap.
  by simplify_map_eq.
Qed.

Lemma add_event_201 rev env req σ r σ' :
  serve rev AddEvent env req σ = (Some r, σ') → status r = 201 →
  ∃ c, eventsCollection σ = Some c ∧ σ' = with_events σ (c ++ [new_event env req]).
Proof.
  destruct rev; cbn [serve answered]; intros [= Hr Hσ] Hs.
  - apply (add_event_created_000 env req σ r σ'); [|done].
    rewrite <- Hr, <- Hσ. apply surjective_pairing.
  - apply (add_event_created env req σ r σ'); [|done].
    rewrite <- Hr, <- Hσ. apply surjective_pairing.
Qed.

Lemma my_events_run_000 env email req σ c :
  eventsCollection σ = Some c →
  Part000.my_events env email req σ
  = (json 200 (JArr (doc_json <$> find [("email", VStr email)] c)), σ).
Proof. intros Hc. unfold Part000.my_events. run. by rewrite !Hc. Qed.

Lemma my_events_run_001 env email req σ c :
  eventsCollection σ = Some c →
  Part001.my_events env email req σ
  = (Next (json 200 (JArr (doc_json <$>
             find (if truthy (VStr email) then [("email", VStr email)] else []) c))), σ).
Proof. intros Hc. unfold Part001.my_events. run. by rewrite !Hc. Qed.

(** The head of a sorted listing is the document nothing else reaches. *)
Lemma sorted_head k (c : list Document) n :
  (∀ d, d ∈ c → ¬ descending k d n) →
  ∃ l, sort_descending k (c ++ [n]) = n :: l ∧ l ≡ₚ c.
Proof.
  intros Hbelow.
  pose proof (merge_sort_Permutation (descending k) (c ++ [n])) as Hperm.
  assert (StronglySorted (descending k) (sort_descending k (c ++ [n]))) as Hsorted
    by (apply StronglySorted_merge_sort; apply _).
  fold (sort_descending k (c ++ [n])) in Hperm.
  destruct (sort_descending k (c ++ [n])) as [|h l] eqn:Hl.
  { apply Permutation_nil_l in Hperm. by destruct c. }
  assert (h = n) as ->.
  { assert (h ∈ c ++ [n]) as Hh.
    { eapply elem_of_Permutation_proper; [symmetry; exact Hperm|]. apply list_elem_of_here. }
    apply elem_of_app in Hh as [Hh|Hh]; [|by apply list_elem_of_singleton in Hh].
    assert (n ∈ h :: l) as Hn.
    { eapply elem_of_Permutation_proper; [exact Hperm|].
      apply elem_of_app. right. apply list_elem_of_here. }
    apply elem_of_cons in Hn as [Hn|Hn]; [done|].
    apply StronglySorted_inv in Hsorted as [_ Hall].
    rewrite List.Forall_forall in Hall.
    destruct (Hbelow h Hh). apply Hall. by apply list_elem_of_In. }
  exists l. split; [done|].
  apply (Permutation_cons_inv (a := n)). rewrite Hperm.
  symmetry. apply Permutation_cons_append.
Qed.

(** X6. A created event heads the listing: after a creation answered
    201 at a time later than the [createdAt] of every stored event,
    [GET /api/events] lists the new document first and then the events
    there were. *)
Theorem created_event_listed_first rev env req σ r σ' c :
  eventsCollection σ = Some c →
  serve rev AddEvent env req σ = (Some r, σ') → status r = 201 →
  (∀ d, d ∈ c → ¬ bson_le (VDate (now env)) (get d "createdAt")) →
  ∀ env' req', ∃ l,
    serve rev GetEvents env' req' σ'
    = (Some (json 200 (JArr (doc_json <$> new_event env req :: l))), σ')
    ∧ l ≡ₚ c.
Proof.
  intros Hc Hrun Hr Hbelow env' req'.
  destruct (add_event_201 _ _ _ _ _ _ Hrun Hr) as (c' & Hc' & ->).
  rewrite Hc in Hc'. injection Hc' as <-.
  destruct (sorted_head "createdAt" c (new_event env req)) as (l & Hl & Hperm).
  { intros d Hd. unfold descending. rewrite new_event_createdAt. by apply Hbelow. }
  exists l. split; [|done].
  rewrite serve_connected by (cbn; eauto). cbn [serve answered].
  rewrite (get_events_run _ _ _ (c ++ [new_event env req])) by done. by rewrite Hl.
Qed.

(** X7. A created event is found by its owner: after a creation
    answered 201 whose email is the non-empty string [email],
    [GET /api/events/email] lists the events that had that email, in
    stored order, and then the new document, in either revision. *)
Theorem created_event_in_my_events rev env req σ r σ' c email :
  eventsCollection σ = Some c →
  serve rev AddEvent env req σ = (Some r, σ') → status r = 201 →
  req_body req !! "email" = Some (VStr email) →
  ∀ env' req',
    serve rev (MyEvents email) env' req' σ'
    = (Some (json 200 (JArr (doc_json <$>
               find [("email", VStr email)] c ++ [new_event env req]))), σ').
Proof.
  intros Hc Hrun Hr Hemail env' req'.
  destruct (add_event_201 _ _ _ _ _ _ Hrun Hr) as (c' & Hc' & ->).
  rewrite Hc in Hc'. injection Hc' as <-.
  assert (find [("email", VStr email)] (c ++ [new_event env req])
          = find [("email", VStr email)] c ++ [new_event env req]) as Hfind.
  { rewrite find_app. f_equal. unfold find. cbn [List.filter].
    rewrite (proj2 (matches_email email (new_event env req))); [done|].
    by rewrite new_event_email, (get_present _ _ _ Hemail). }
  assert (truthy (VStr email) = true) as Htruthy.
  { assert (truthy (get (req_body req) "email") = true) as Ht; [|by rewrite (get_present _ _ _ Hemail) in Ht].
    destruct (truthy (get (req_body req) "email")) eqn:Ht; [done|].
    assert (status r = 400); [|congruence].
    assert (Part001.add_event env req σ = (ValidationError, σ)) as H400.
    { apply (add_event_falsy _ _ _ "email"); [|done].
      unfold required_fields. rewrite !elem_of_cons. tauto. }
    destruct rev; cbn [serve answered] in Hrun.
    - rewrite add_event_connected, H400 in Hrun by (by rewrite Hc). by injection Hrun as <- _.
    - rewrite H400 in Hrun. by injection Hrun as <- _. }
  destruct rev; cbn [serve answered unless_thrown].
  - rewrite (my_events_run_000 _ _ _ _ (c ++ [new_event env req])) by done.
    by rewrite Hfind.
  - rewrite (my_events_run_001 _ _ _ _ (c ++ [new_event env req])) by done.
    cbn [fst snd]. by rewrite Htruthy, Hfind.
Qed.

(** X8. [GET /api/events/:email].  On a connected store the answer is
    200 with the events whose email field is that string, in stored
    order, and nothing is changed; [part_001] lists every event when the
    parameter is empty.  On a store not yet connected [part_000] answers
    503, while in [part_001], where the route has no [try], the TypeError
    leaves the handler and no answer is sent. *)
Theorem my_events_outcomes env email req σ :
  (∀ c, eventsCollection σ = Some c →
     ∃ l,
       serve part_000 (MyEvents email) env req σ
       = (Some (json 200 (JArr (doc_json <$> l))), σ)
       ∧ (email ≠ "" →
          serve part_001 (MyEvents email) env req σ
          = (Some (json 200 (JArr (doc_json <$> l))), σ))
       ∧ (email = "" →
          serve part_001 (MyEvents email) env req σ
          = (Some (json 200 (JArr (doc_json <$> c))), σ))
       ∧ sublist l c
       ∧ ∀ d, d ∈ l ↔ d ∈ c ∧ get d "email" = VStr email)
  ∧ (eventsCollection σ = None →
     serve part_000 (MyEvents email) env req σ
     = (Some (json 503 (message "Server not ready")), σ)
     ∧ serve part_001 (MyEvents email) env req σ = (None, σ)).
Proof.
  split.
  - intros c Hc. exists (find [("email", VStr email)] c). cbn [serve answered unless_thrown].
    rewrite (my_events_run_000 _ _ _ _ c Hc), (my_events_run_001 _ _ _ _ c Hc).
    cbn [fst snd]. split_and!; [done| | |apply find_sublist|].
    + intros Hne. destruct email; [done|]. done.
    + intros ->. cbn. by rewrite find_all.
    + intros d. rewrite find_elem_of. by rewrite matches_email.
  - intros Hc. cbn [serve answered unless_thrown].
    unfold Part000.my_events, Part001.my_events. run. by rewrite !Hc.
Qed.
End listings.

(** ** Accounts: signup followed by login *)

Section accounts.
Context {lib : Platform}.

Lemma findOne_app_None q (c1 c2 : Collection) :
  findOne q c1 = None → findOne q (c1 ++ c2) = findOne q c2.
Proof.
  unfold findOne. induction c1 as [|d c1 IH]; cbn; [done|].
  destruct (matches q d); [done|]. apply IH.
Qed.

Lemma findOne_app_Some q (c1 c2 : Collection) d :
  findOne q c1 = Some d → findOne q (c1 ++ c2) = Some d.
Proof.
  unfold findOne. induction c1 as [|d1 c1 IH]; cbn; [done|].
  destruct (matches q d1); [done|]. apply IH.
Qed.

Lemma new_user_field env req h k :
  k = "username" ∨ k = "email" ∨ k = "photoUrl" →
  get (new_user env req h) k = bson (get (req_body req) k).
Proof.
  intros Hk. unfold get at 1, new_user.
  destruct Hk as [->|[->| ->]]; rewrite lookup_insert_ne by done;
    rewrite lookup_fmap; by simplify_map_eq.
Qed.

Lemma new_user_password env req h : get (new_user env req h) "password" = VStr h.
Proof.
  unfold get, new_user. rewrite lookup_insert_ne by done. rewrite lookup_fmap.
  by simplify_map_eq.
Qed.

Lemma new_user_id env req h : get (new_user env req h) "_id" = VObjectId (fresh env).
Proof. unfold get, new_user. by rewrite lookup_insert_eq. Qed.

Lemma new_user_account rev env req h :
  matches (account_of rev req) (new_user env req h) = true.
Proof.
  unfold matches, account_of. cbn.
  rewrite new_user_field by (destruct rev; cbn; tauto).
  by rewrite bson_idemp, bool_decide_eq_true_2.
Qed.

(** A signup answered 201 found no account with the email, hashed the
    password and appended the new document. *)
Lemma signup_201 rev env req σ r σ' :
  signup rev env req σ = (r, σ') → status r = 201 →
  ∃ c h,
    usersCollection σ = Some c
    ∧ findOne (by_email req) c = None
    ∧ bcrypt_hash (get (req_body req) "password") 10 (salt env) = Returns h
    ∧ σ' = with_users σ (c ++ [new_user env req h]).
Proof.
  unfold by_email.
  destruct rev; cbn [signup]; [unfold Part000.signup | unfold Part001.signup]; run;
    (destruct (usersCollection σ) as [c|] eqn:Hc; [|by intros [= <- <-]]);
    (destruct (findOne _ c) as [u|] eqn:Hu; [by intros [= <- <-]|]);
    (destruct (bcrypt_hash _ _ _) as [h|] eqn:Hh; [|by intros [= <- <-]]);
    rewrite Hc; unfold insertOne;
    (destruct (existsb _ c); [by intros [= <- <-]|]); cbn.
  - destruct (jwt_sign _ _ _); intros [= <- <-]; [|done]. intros _. by exists c, h.
  - intros [= <- <-] _. by exists c, h.
Qed.

(** X9. Signup then login.  After a signup answered 201, when
    [bcrypt.compare] accepts the password against the hash [bcrypt.hash]
    made of it and [jwt.sign] returns, a login with the same body is
    answered 200 with a token and the id and email of the account just
    created.  In [part_001], which looks accounts up by username, this
    needs the username not to have been in the store before. *)
Theorem signup_then_login rev env env' req σ r σ1 :
  signup rev env req σ = (r, σ1) → status r = 201 →
  (rev = part_001 →
   ∀ c, usersCollection σ = Some c → findOne (account_of part_001 req) c = None) →
  (∀ h, bcrypt_hash (get (req_body req) "password") 10 (salt env) = Returns h →
        bcrypt_compare (get (req_body req) "password") (VStr h) = Returns true) →
  (∀ payload, returns (jwt_sign payload (JWT_SECRET rev σ) (now env'))) →
  ∃ token answer account,
    login rev env' req σ1 = (json 200 answer, σ1)
    ∧ member "token" answer = Some (JVal (VStr token))
    ∧ member "user" answer = Some account
    ∧ member "id" account = Some (JVal (VObjectId (fresh env)))
    ∧ member "email" account = Some (JVal (bson (get (req_body req) "email"))).
Proof.
  intros Hrun Hr Hname Hcompare Hsign.
  destruct (signup_201 _ _ _ _ _ _ Hrun Hr) as (c & h & Hc & Hn & Hh & ->).
  assert (findOne (account_of rev req) (c ++ [new_user env req h])
          = Some (new_user env req h)) as Hfound.
  { rewrite findOne_app_None.
    - unfold findOne. cbn [List.find]. by rewrite new_user_account.
    - destruct rev; [exact Hn | by apply Hname]. }
  specialize (Hcompare h Hh). unfold account_of in Hfound.
  destruct rev; cbn [login login_key] in *.
  - destruct (Hsign {[ "userId" := VStr (ToString (VObjectId (fresh env)));
                       "email" := get (new_user env req h) "email" ]}) as [token Htoken].
    exists token. do 2 eexists.
    unfold Part000.login. run. cbn [usersCollection with_users].
    rewrite Hfound, new_user_password, Hcompare. cbn [negb].
    rewrite new_user_id. cbn [toString_method].
    change (Part000.JWT_SECRET (with_users σ (c ++ [new_user env req h])))
      with (JWT_SECRET part_000 σ).
    rewrite Htoken. cbn.
    split_and!; [reflexivity | done | done | done |].
    by rewrite (new_user_field _ _ _ "email") by tauto.
  - destruct (Hsign {[ "userId" := get (new_user env req h) "_id";
                       "username" := get (new_user env req h) "username" ]})
      as [token Htoken].
    exists token. do 2 eexists.
    unfold Part001.login. run. cbn [usersCollection with_users].
    rewrite Hfound, new_user_password, Hcompare. cbn [negb].
    change (Part001.JWT_SECRET (with_users σ (c ++ [new_user env req h])))
      with (JWT_SECRET part_001 σ).
    rewrite Htoken. cbn.
    split_and!; [reflexivity | done | done | by rewrite new_user_id |].
    by rewrite (new_user_field _ _ _ "email") by tauto.
Qed.

(** X10. In [part_001] a username can be taken twice, and the second
    account cannot be reached.  Signup only looks for the email: with a
    new email, a password that can be hashed and a username that an
    account has already, it is answered 201 and stores a second document
    with that username.  A login with the username, served on the state
    the signup leaves, is answered as it was before the signup, from
    the older account. *)
Theorem username_shadowed env req σ c older h :
  usersCollection σ = Some c →
  findOne (account_of part_001 req) c = Some older →
  findOne (by_email req) c = None →
  bcrypt_hash (get (req_body req) "password") 10 (salt env) = Returns h →
  VObjectId (fresh env) ∉ ids c →
  Part001.signup env req σ
  = (json 201 (JObj [("message", JVal (VStr "User registered successfully"));
                     ("userId", JVal (VObjectId (fresh env)))]),
     with_users σ (c ++ [new_user env req h]))
  ∧ ∀ env' req',
      get (req_body req') "username" = get (req_body req) "username" →
      ∃ answer,
        Part001.login env' req' σ = (answer, σ)
        ∧ Part001.login env' req' (with_users σ (c ++ [new_user env req h]))
          = (answer, with_users σ (c ++ [new_user env req h])).
Proof.
  intros Hc Hold Hn Hh Hnew%not_in_ids_existsb. split.
  - unfold Part001.signup. run. unfold by_email in Hn.
    rewrite !Hc, Hn, Hh, ?Hc. unfold insertOne. by rewrite Hnew.
  - intros env' req' Hname. unfold account_of in Hold. cbn [login_key] in Hold.
    unfold Part001.login. run. cbn [usersCollection with_users]. rewrite Hc, Hname.
    rewrite (findOne_app_Some _ _ _ _ Hold), Hold.
    change (Part001.JWT_SECRET (with_users σ (c ++ [new_user env req h])))
      with (Part001.JWT_SECRET σ).
    destruct (bcrypt_compare _ _) as [[]|]; cbn; [|by eexists..].
    destruct (jwt_sign _ _ _); by eexists.
Qed.

(** X11. [part_000] signs the token after it has inserted the account,
    in the same [try]: when [jwt.sign] throws (no secret configured, for
    one) the signup is answered 500 although the account is stored, and
    a signup with the email served on that state is answered 409 "Email
    already in use". *)
Theorem signup_token_failure_keeps_account env req σ c h e :
  usersCollection σ = Some c →
  findOne (by_email req) c = None →
  bcrypt_hash (get (req_body req) "password") 10 (salt env) = Returns h →
  VObjectId (fresh env) ∉ ids c →
  jwt_sign {[ "userId" := VObjectId (fresh env); "email" := get (req_body req) "email" ]}
           (Part000.JWT_SECRET σ) (now env) = Throws e →
  Part000.signup env req σ
  = (json 500 (message "Internal server error"),
     with_users σ (c ++ [new_user env req h]))
  ∧ ∀ env2 req2,
      get (req_body req2) "email" = get (req_body req) "email" →
      Part000.signup env2 req2 (with_users σ (c ++ [new_user env req h]))
      = (DuplicateEmail, with_users σ (c ++ [new_user env req h])).
Proof.
  intros Hc Hn Hh Hfresh Hsign.
  assert (existsb (λ d, bool_decide (get d "_id" = VObjectId (fresh env))) c = false)
    as Hnew.
  { apply not_true_is_false. intros (d & Hd & Heq)%List.existsb_exists.
    apply bool_decide_eq_true in Heq. destruct Hfresh. unfold ids.
    apply list_elem_of_fmap. exists d. split; [done|]. by apply list_elem_of_In. }
  split.
  - unfold Part000.signup. run. unfold by_email in Hn.
    rewrite !Hc, Hn, Hh, ?Hc. unfold insertOne. rewrite Hnew. cbn. by rewrite Hsign.
  - intros env2 req2 Hemail.
    apply (signup_conflict part_000 _ _ _ (c ++ [new_user env req h]) (new_user env req h));
      [done|].
    assert (by_email req2 = by_email req) as -> by (unfold by_email; by rewrite Hemail).
    rewrite findOne_app_None by done. unfold findOne. cbn [List.find].
    by rewrite new_user_matches.
Qed.
End accounts.

(** ** The middleware: what it reads of the header *)

Section header.
Context {lib : Platform}.

Lemma split_on_no_space s : no_space s → split_on " " s = [s].
Proof.
  unfold no_space. induction s as [|a s IH]; [done|].
  intros Hn. cbn [split_on]. destruct (Ascii.eqb_spec a " ") as [->|Hne].
  - destruct Hn. apply list_elem_of_here.
  - rewrite IH; [done|]. intros Hs. apply Hn. by apply list_elem_of_further.
Qed.

Lemma split_on_cons a s :
  split_on " " (String a s)
  = if Ascii.eqb a " " then "" :: split_on " " s
    else match split_on " " s with
         | w :: ws => String a w :: ws
         | [] => [String a ""]
         end.
Proof. done. Qed.

Lemma split_on_scheme scheme rest :
  no_space scheme →
  split_on " " (scheme +:+ " " +:+ rest) = scheme :: split_on " " rest.
Proof.
  unfold no_space. induction scheme as [|a s IH]; [done|].
  intros Hn. change (String a s +:+ " " +:+ rest) with (String a (s +:+ " " +:+ rest)).
  rewrite split_on_cons. destruct (Ascii.eqb_spec a " ") as [->|Hne].
  - destruct Hn. apply list_elem_of_here.
  - rewrite IH; [done|]. intros Hs. apply Hn. by apply list_elem_of_further.
Qed.

Lemma scheme_not_empty scheme rest : scheme +:+ " " +:+ rest ≠ "".
Proof. by destruct scheme. Qed.

(** The middleware reads nothing of the request but the second piece of
    the header. *)
Lemma authenticate_second_piece secret env req1 req2 σ h1 h2 :
  authorization req1 = Some h1 → authorization req2 = Some h2 →
  h1 ≠ "" → h2 ≠ "" →
  split_on " " h1 !! 1%nat = split_on " " h2 !! 1%nat →
  authenticateJWT secret send_user env req1 σ
  = authenticateJWT secret send_user env req2 σ.
Proof.
  intros H1 H2 Hn1 Hn2 Hsplit. unfold authenticateJWT. rewrite H1, H2.
  destruct h1 as [|a1 h1]; [done|]. destruct h2 as [|a2 h2]; [done|].
  rewrite Hsplit. destruct (split_on " " (String a2 h2) !! 1%nat) as [[|b token]|]; done.
Qed.

Lemma authenticate_no_token secret next env req σ h :
  authorization req = Some h → h ≠ "" →
  split_on " " h !! 1%nat = None ∨ split_on " " h !! 1%nat = Some "" →
  authenticateJWT secret next env req σ = (json 401 (message "Token missing"), σ).
Proof.
  intros Hh Hne Hsplit. unfold authenticateJWT. rewrite Hh.
  destruct h as [|a h]; [done|]. by destruct Hsplit as [-> | ->].
Qed.

(** X12. The middleware does not look at the scheme: two headers whose
    first words have no space and are followed by a space and the same
    text get the same answer, whatever the words are. *)
Theorem scheme_ignored rev env req1 req2 σ scheme1 scheme2 rest :
  no_space scheme1 → no_space scheme2 →
  authorization req1 = Some (scheme1 +:+ " " +:+ rest) →
  authorization req2 = Some (scheme2 +:+ " " +:+ rest) →
  user_me rev env req1 σ = user_me rev env req2 σ.
Proof.
  intros Hs1 Hs2 H1 H2. rewrite !user_me_unfold.
  apply (authenticate_second_piece _ _ _ _ _ _ _ H1 H2);
    [apply scheme_not_empty.. |].
  by rewrite !split_on_scheme.
Qed.

(** X13. Headers that carry no token.  An empty header is answered as a
    missing one; a header with no space in it, a header that ends after
    its first space, and a header with two spaces between the scheme and
    the token are all answered 401 "Token missing", the last although a
    token follows. *)
Theorem token_missing rev env req σ h :
  authorization req = Some h →
  (h = "" →
   user_me rev env req σ = (json 401 (message "Authorization header missing"), σ))
  ∧ (h ≠ "" → no_space h →
     user_me rev env req σ = (json 401 (message "Token missing"), σ))
  ∧ (∀ scheme, no_space scheme → h = scheme +:+ " " →
     user_me rev env req σ = (json 401 (message "Token missing"), σ))
  ∧ (∀ scheme rest, no_space scheme → h = scheme +:+ "  " +:+ rest →
     user_me rev env req σ = (json 401 (message "Token missing"), σ)).
Proof.
  intros Hh. rewrite user_me_unfold. split_and!.
  - intros ->. unfold authenticateJWT. by rewrite Hh.
  - intros Hne Hns. apply (authenticate_no_token _ _ _ _ _ h Hh Hne).
    left. by rewrite split_on_no_space.
  - intros scheme Hns ->.
    apply (authenticate_no_token _ _ _ _ _ _ Hh); [apply (scheme_not_empty _ "")|].
    right. change (scheme +:+ " ") with (scheme +:+ " " +:+ "").
    by rewrite split_on_scheme.
  - intros scheme rest Hns ->.
    change (scheme +:+ "  " +:+ rest) with (scheme +:+ " " +:+ (String " " rest)) in *.
    apply (authenticate_no_token _ _ _ _ _ _ Hh); [apply scheme_not_empty|].
    right. by rewrite split_on_scheme.
Qed.

(** X14. A token that verifies is not enough.  When the user it names is
    not in the collection the answer is 401 "User not found"; when the
    users collection is not connected yet the TypeError is caught by the
    middleware's own [catch] and the answer is 403 "Invalid or expired
    token", in both revisions. *)
Theorem verified_token_without_user rev env req σ token decoded :
  bearer req token →
  jwt_verify token (JWT_SECRET rev σ) (now env) = Returns decoded →
  (∀ c oid,
     usersCollection σ = Some c →
     new_ObjectId (get decoded "userId") = Returns oid →
     findOne (by_id oid) c = None →
     user_me rev env req σ = (json 401 (message "User not found"), σ))
  ∧ (usersCollection σ = None → user_me rev env req σ = (InvalidToken, σ)).
Proof.
  intros Hb Hv. rewrite user_me_unfold, (authenticate_bearer _ _ _ _ _ _ Hb).
  split.
  - intros c oid Hc Hid Hn. run. rewrite Hv, Hc, Hid. fold (by_id oid). by rewrite Hn.
  - intros Hc. run. by rewrite Hv, Hc.
Qed.
End header.

(** ** What a request can do to the state *)

Section effects.
Context {lib : Platform}.

Lemma with_users_same σ c : usersCollection σ = Some c → with_users σ c = σ.
Proof. intros H. unfold with_users. rewrite <- H. apply server_eta. Qed.

Lemma fresh_not_in_ids (fresh : ObjectId) c :
  existsb (λ d, bool_decide (get d "_id" = VObjectId fresh)) c = false →
  VObjectId fresh ∉ ids c.
Proof.
  intros Hnew (d & Hd & Hin)%list_elem_of_fmap.
  assert (existsb (λ d, bool_decide (get d "_id" = VObjectId fresh)) c = true); [|congruence].
  apply List.existsb_exists. exists d. split; [by apply list_elem_of_In|].
  by apply bool_decide_eq_true.
Qed.

Lemma login_unchanged rev env req σ : snd (login rev env req σ) = σ.
Proof.
  destruct rev; cbn [login]; [unfold Part000.login | unfold Part001.login]; run;
    (destruct (usersCollection σ) as [c|]; [|done]);
    (destruct (findOne _ c) as [u|]; [|done]);
    (destruct (bcrypt_compare _ _) as [[]|]; cbn; [|done..]).
  - destruct (toString_method _); [|done]. by destruct (jwt_sign _ _ _).
  - by destruct (jwt_sign _ _ _).
Qed.

Lemma user_me_unchanged rev env req σ : snd (user_me rev env req σ) = σ.
Proof.
  rewrite user_me_unfold. unfold authenticateJWT.
  destruct (authorization req) as [[|a h]|]; [done| |done].
  destruct (split_on " " (String a h) !! 1%nat) as [[|b token]|]; [done| |done].
  run. destruct (jwt_verify _ _ _); [|done].
  destruct (usersCollection σ) as [c|]; [|done].
  destruct (new_ObjectId _); [|done]. by destruct (findOne _ c).
Qed.

Lemma get_events_unchanged rev env req σ o σ' :
  serve rev GetEvents env req σ = (o, σ') → σ' = σ.
Proof.
  destruct rev; cbn [serve answered];
    [unfold Part000.get_events | unfold Part001.get_events]; run;
    destruct (eventsCollection σ) eqn:Hc; rewrite ?Hc; by intros [= _ <-].
Qed.

Lemma my_events_unchanged rev email env req σ o σ' :
  serve rev (MyEvents email) env req σ = (o, σ') → σ' = σ.
Proof.
  destruct rev; cbn [serve answered unless_thrown];
    [unfold Part000.my_events | unfold Part001.my_events]; run;
    destruct (eventsCollection σ) eqn:Hc; rewrite ?Hc; by intros [= _ <-].
Qed.

(** What [/signup] does to the state, with the answer it gives. *)
Lemma signup_effect rev env req σ r σ' :
  signup rev env req σ = (r, σ') →
  σ' = σ
  ∨ ((status r = 201 ∨ (rev = part_000 ∧ status r = 500))
     ∧ ∃ c h,
         usersCollection σ = Some c
         ∧ findOne (by_email req) c = None
         ∧ (VObjectId (fresh env) ∉ ids c)
         ∧ σ' = with_users σ (c ++ [new_user env req h])).
Proof.
  unfold by_email.
  destruct rev; cbn [signup]; [unfold Part000.signup | unfold Part001.signup]; run;
    (destruct (usersCollection σ) as [c|] eqn:Hc; [|intros [= <- <-]; by left]);
    (destruct (findOne _ c) as [u|] eqn:Hu; [intros [= <- <-]; by left|]);
    (destruct (bcrypt_hash _ _ _) as [h|] eqn:Hh; [|intros [= <- <-]; by left]);
    rewrite Hc; unfold insertOne;
    (destruct (existsb _ c) eqn:Hnew; [intros [= <- <-]; by left|]); cbn;
    apply fresh_not_in_ids in Hnew.
  - destruct (jwt_sign _ _ _); intros [= <- <-]; right; (split; [cbn; tauto|]);
      by exists c, h.
  - intros [= <- <-]. right. split; [cbn; tauto|]. by exists c, h.
Qed.

Lemma add_event_effect env req σ r σ' :
  Part001.add_event env req σ = (r, σ') →
  (status r ≠ 201 ∧ σ' = σ)
  ∨ (status r = 201
     ∧ ∃ c, eventsCollection σ = Some c ∧ (VObjectId (fresh env) ∉ ids c)
            ∧ σ' = with_events σ (c ++ [new_event env req])).
Proof.
  unfold Part001.add_event.
  destruct (_ || _); [intros [= <- <-]; by left|].
  run. destruct (eventsCollection σ) as [c|] eqn:Hc; [|intros [= <- <-]; by left].
  unfold insertOne. destruct (existsb _ c) eqn:Hnew; [intros [= <- <-]; by left|].
  cbn. intros [= <- <-]. right. split; [done|]. exists c.
  split_and!; [done | by apply fresh_not_in_ids | done].
Qed.

Lemma join_event_effect env req σ r σ' :
  Part001.join_event env req σ = (r, σ') →
  (status r ≠ 200 ∧ σ' = σ)
  ∨ (status r = 200
     ∧ ∃ c1 d c2 d',
         eventsCollection σ = Some (c1 ++ d :: c2)
         ∧ get d' "_id" = get d "_id"
         ∧ σ' = with_events σ (c1 ++ d' :: c2)).
Proof.
  unfold Part001.join_event. run.
  destruct (eventsCollection σ) as [c|] eqn:Hc; [|intros [= <- <-]; by left].
  destruct (new_ObjectId _) as [oid|e] eqn:Hid; [|intros [= <- <-]; by left].
  fold (by_id oid).
  destruct (findOne (by_id oid) c) as [d|] eqn:Hf.
  - apply findOne_split in Hf as (c1 & c2 & -> & Hn & Hm).
    rewrite (updateOne_first _ _ _ _ _ Hn Hm).
    destruct (apply_update _ d) as [d'|] eqn:Hd'; [|intros [= <- <-]; by left]. cbn.
    case_bool_decide as Heq; cbn; intros [= <- <-].
    + left. split; [done|]. rewrite Heq. by apply with_events_same.
    + right. split; [done|]. exists c1, d, c2, d'. split_and!; [done| |done].
      cbn in Hd'. destruct (d !! "attendeeCount") as [[]|]; try done;
        try (destruct (decide (embedded d "attendeeCount")); [done|]);
        injection Hd' as <-; by rewrite get_insert_ne.
  - rewrite (updateOne_no_match _ _ _ Hf). cbn. intros [= <- <-].
    left. split; [done|]. by apply with_events_same.
Qed.

Lemma update_event_effect env req σ r σ' :
  Part001.update_event env req σ = (r, σ') →
  (status r ≠ 200 ∧ σ' = σ)
  ∨ (status r = 200
     ∧ ∃ c1 d c2 d',
         eventsCollection σ = Some (c1 ++ d :: c2)
         ∧ get d' "_id" = get d "_id"
         ∧ σ' = with_events σ (c1 ++ d' :: c2)).
Proof.
  intros Hrun.
  destruct (eventsCollection σ) as [c|] eqn:Hc.
  - destruct (new_ObjectId (VStr (params_id req))) as [oid|e] eqn:Hid.
    + destruct (findOne (by_id oid) c) as [d|] eqn:Hf.
      * apply findOne_split in Hf as (c1 & c2 & -> & Hn & Hm).
        rewrite (update_event_found _ _ _ _ _ _ _ Hc Hid Hn Hm) in Hrun.
        destruct (apply_set_cases (req_body req) d) as [[Hk Ha]|[Hk Ha]];
          rewrite Ha in Hrun.
        -- case_bool_decide as Heq; injection Hrun as <- <-; [by left|].
           right. split; [done|]. exists c1, d, c2, (merged (req_body req) d).
           split_and!; [done | by apply merged_id, Hk | done].
        -- injection Hrun as <- <-. by left.
      * rewrite (update_event_not_found _ _ _ _ _ Hc Hid Hf) in Hrun.
        injection Hrun as <- <-. by left.
    + rewrite (update_event_malformed _ _ _ _ Hid) in Hrun.
      injection Hrun as <- <-. by left.
  - unfold Part001.update_event in Hrun. run. rewrite Hc in Hrun.
    injection Hrun as <- <-. by left.
Qed.

Lemma delete_event_effect env req σ r σ' :
  Part001.delete_event env req σ = (r, σ') →
  (status r ≠ 200 ∧ σ' = σ)
  ∨ (status r = 200
     ∧ ∃ c1 d c2,
         eventsCollection σ = Some (c1 ++ d :: c2) ∧ σ' = with_events σ (c1 ++ c2)).
Proof.
  intros Hrun.
  destruct (eventsCollection σ) as [c|] eqn:Hc.
  - destruct (new_ObjectId (VStr (params_id req))) as [oid|e] eqn:Hid.
    + destruct (findOne (by_id oid) c) as [d|] eqn:Hf.
      * apply findOne_split in Hf as (c1 & c2 & -> & Hn & Hm).
        rewrite (delete_event_found _ _ _ _ _ _ _ Hc Hid Hn Hm) in Hrun.
        injection Hrun as <- <-. right. split; [done|]. by exists c1, d, c2.
      * rewrite (delete_event_not_found _ _ _ _ _ Hc Hid Hf) in Hrun.
        injection Hrun as <- <-. by left.
    + rewrite (delete_event_malformed _ _ _ _ Hid) in Hrun.
      injection Hrun as <- <-. by left.
  - unfold Part001.delete_event, events_deleteOne in Hrun. run. rewrite Hc in Hrun.
    injection Hrun as <- <-. by left.
Qed.

Lemma event_routes_answer rev route env req σ o σ' :
  route = GetEvents ∨ writes_events route →
  serve rev route env req σ = (o, σ') → ∃ r, o = Some r.
Proof.
  intros Hroute.
  destruct rev, Hroute as [->|[->|[->|[->| ->]]]]; cbn [serve answered];
    intros [= <- _]; by eexists.
Qed.

(** Every route leaves the state as it was or makes one of the writes. *)
Lemma serve_effect rev route env req σ o σ' :
  serve rev route env req σ = (o, σ') →
  σ' = σ
  ∨ (route = Signup
     ∧ (∃ r, o = Some r ∧ (status r = 201 ∨ (rev = part_000 ∧ status r = 500)))
     ∧ users_write env req σ σ')
  ∨ ((∃ r, o = Some r ∧ (status r = 200 ∨ status r = 201))
     ∧ events_write route env req σ σ').
Proof.
  intros Hrun.
  assert (writes_events route →
          σ' = σ ∨ ((∃ r, o = Some r ∧ (status r = 200 ∨ status r = 201))
                    ∧ events_write route env req σ σ')) as Hevents.
  { intros Hroute.
    destruct (event_routes_answer _ _ _ _ _ _ _ (or_intror Hroute) Hrun) as [r ->].
    destruct (eventsCollection σ) as [c|] eqn:Hc.
    - rewrite serve_connected in Hrun by (rewrite ?Hc; eauto).
      unfold events_write.
      destruct Hroute as [->|[->|[->| ->]]]; cbn [serve answered] in Hrun;
        injection Hrun as Hr Hσ.
      + destruct (add_event_effect env req σ r σ') as [[_ ->]|[Hs Hw]];
          [rewrite <- Hr, <- Hσ; apply surjective_pairing | by left |].
        right. split; [eauto|]. left. eauto.
      + destruct (join_event_effect env req σ r σ') as [[_ ->]|[Hs Hw]];
          [rewrite <- Hr, <- Hσ; apply surjective_pairing | by left |].
        right. split; [eauto|]. right. left. eauto.
      + destruct (update_event_effect env req σ r σ') as [[_ ->]|[Hs Hw]];
          [rewrite <- Hr, <- Hσ; apply surjective_pairing | by left |].
        right. split; [eauto|]. right. left. eauto.
      + destruct (delete_event_effect env req σ r σ') as [[_ ->]|[Hs Hw]];
          [rewrite <- Hr, <- Hσ; apply surjective_pairing | by left |].
        right. split; [eauto|]. right. right. eauto.
    - left. by destruct (not_connected_status _ _ _ _ _ _ _ Hc (or_intror Hroute) Hrun). }
  destruct route.
  - assert (∃ r, o = Some r ∧ signup rev env req σ = (r, σ')) as (r & -> & Hs).
    { destruct rev; cbn [serve answered signup] in *; injection Hrun as <- <-;
        eexists; (split; [done|]); apply surjective_pairing. }
    destruct (signup_effect _ _ _ _ _ _ Hs) as [->|[Hst Hw]]; [by left|].
    right. left. split_and!; [done|eauto|done].
  - left. destruct rev; cbn [serve answered] in Hrun; injection Hrun as _ <-.
    + apply (login_unchanged part_000). + apply (login_unchanged part_001).
  - left. destruct rev; cbn [serve answered] in Hrun; injection Hrun as _ <-.
    + apply (user_me_unchanged part_000). + apply (user_me_unchanged part_001).
  - destruct Hevents as [?|?]; [unfold writes_events; tauto|tauto..].
  - left. by eapply get_events_unchanged.
  - left. by eapply my_events_unchanged.
  - destruct Hevents as [?|?]; [unfold writes_events; tauto|tauto..].
  - destruct Hevents as [?|?]; [unfold writes_events; tauto|tauto..].
  - destruct Hevents as [?|?]; [unfold writes_events; tauto|tauto..].
Qed.
End effects.

(** ** Invariants of the state *)

Section invariants.
Context {lib : Platform}.

Lemma ids_app c1 c2 : ids (c1 ++ c2) = ids c1 ++ ids c2.
Proof. unfold ids. apply fmap_app. Qed.

Lemma new_event_id env req : get (new_event env req) "_id" = VObjectId (fresh env).
Proof. unfold get, new_event. by rewrite lookup_insert_eq. Qed.

Lemma NoDup_snoc_fresh (l : list Value) x : NoDup l → x ∉ l → NoDup (l ++ [x]).
Proof.
  intros Hl Hx. apply NoDup_app. split_and!; [done| |apply NoDup_singleton].
  intros y Hy ->%list_elem_of_singleton. done.
Qed.

Lemma NoDup_remove_middle (l1 l2 : list Value) x : NoDup (l1 ++ x :: l2) → NoDup (l1 ++ l2).
Proof.
  intros (H1 & H2 & H3)%NoDup_app. apply NoDup_cons in H3 as [_ H3].
  apply NoDup_app. split_and!; [done| |done].
  intros y Hy1 Hy2. apply (H2 y Hy1). by apply list_elem_of_further.
Qed.

Lemma serve_keeps_ids rev route env req σ :
  unique_ids (eventsCollection σ) → unique_ids (usersCollection σ) →
  unique_ids (eventsCollection (snd (serve rev route env req σ)))
  ∧ unique_ids (usersCollection (snd (serve rev route env req σ))).
Proof.
  intros He Hu.
  destruct (serve rev route env req σ) as [o σ'] eqn:Hrun. cbn [snd].
  destruct (serve_effect _ _ _ _ _ _ _ Hrun)
    as [->|[(_ & _ & c & h & Hc & _ & Hfresh & ->)|[_ Hw]]]; [done| |].
  - split; [done|]. unfold unique_ids in *. rewrite Hc in Hu. cbn in *.
    rewrite ids_app. cbn. rewrite new_user_id. by apply NoDup_snoc_fresh.
  - split; [|by destruct Hw as [(_ & c & _ & _ & ->)|[(_ & c1 & d & c2 & d' & _ & _ & ->)
                                 |(_ & c1 & d & c2 & _ & ->)]]].
    unfold unique_ids in *.
    destruct Hw as [(_ & c & Hc & Hfresh & ->)|[(_ & c1 & d & c2 & d' & Hc & Hid & ->)
                                 |(_ & c1 & d & c2 & Hc & ->)]];
      rewrite Hc in He; cbn in *.
    + rewrite ids_app. cbn. rewrite new_event_id. by apply NoDup_snoc_fresh.
    + rewrite ids_app in *. cbn in *. by rewrite Hid.
    + rewrite ids_app in *. cbn in He. by eapply NoDup_remove_middle.
Qed.

(** X15. No two documents of a collection ever share an [_id]: if that
    holds of the events and of the users, it holds after any sequence of
    requests to any routes, in either revision. *)
Theorem ids_stay_unique rev requests σ :
  unique_ids (eventsCollection σ) → unique_ids (usersCollection σ) →
  unique_ids (eventsCollection (serve_all rev requests σ))
  ∧ unique_ids (usersCollection (serve_all rev requests σ)).
Proof.
  revert σ. induction requests as [|[[route env] req] requests IH]; intros σ He Hu.
  - done.
  - unfold serve_all. cbn [foldl fst snd].
    destruct (serve_keeps_ids rev route env req σ He Hu) as [He' Hu'].
    apply (IH _ He' Hu').
Qed.

Lemma matches_email_bson e1 e2 d :
  bson e1 = bson e2 → matches [("email", e1)] d = matches [("email", e2)] d.
Proof. intros Heq. unfold matches. cbn. by rewrite Heq. Qed.

Lemma find_email_bson e1 e2 c :
  bson e1 = bson e2 → find [("email", e1)] c = find [("email", e2)] c.
Proof.
  intros Heq. unfold find. apply List.filter_ext. intros d. by apply matches_email_bson.
Qed.

Lemma serve_keeps_emails rev route env req σ :
  unique_emails (usersCollection σ) →
  unique_emails (usersCollection (snd (serve rev route env req σ))).
Proof.
  intros Hu.
  destruct (serve rev route env req σ) as [o σ'] eqn:Hrun. cbn [snd].
  destruct (serve_effect _ _ _ _ _ _ _ Hrun)
    as [->|[(_ & _ & c & h & Hc & Hnone & _ & ->)|[_ Hw]]]; [done| |].
  - unfold unique_emails in *. rewrite Hc in Hu.
    cbn [from_option usersCollection with_users id] in *. intros email.
    rewrite find_app, length_app. unfold find at 2. cbn [List.filter].
    destruct (matches [("email", email)] (new_user env req h)) eqn:Hm; cbn [length].
    + assert (bson email = bson (get (req_body req) "email")) as Heq.
      { unfold matches in Hm. cbn in Hm. rewrite andb_true_r in Hm.
        apply bool_decide_eq_true in Hm.
        by rewrite (new_user_field _ _ _ "email"), bson_idemp in Hm by tauto. }
      rewrite (find_email_bson _ _ _ Heq).
      apply findOne_None_find in Hnone. unfold by_email in Hnone. by rewrite Hnone.
    + specialize (Hu email). lia.
  - by destruct Hw as [(_ & c & _ & _ & ->)|[(_ & c1 & d & c2 & d' & _ & _ & ->)
                        |(_ & c1 & d & c2 & _ & ->)]].
Qed.

(** X16. One account per email: if no two user documents have the same
    email, that still holds after any sequence of requests served one at
    a time, in either revision. *)
Theorem emails_stay_unique rev requests σ :
  unique_emails (usersCollection σ) →
  unique_emails (usersCollection (serve_all rev requests σ)).
Proof.
  revert σ. induction requests as [|[[route env] req] requests IH]; intros σ Hu.
  - done.
  - unfold serve_all. cbn [foldl fst snd].
    apply IH, (serve_keeps_emails rev route env req σ Hu).
Qed.

(** X17. Each route keeps to its collection.  No request changes the
    secret or whether a collection is connected; only [/signup] changes
    the users collection, and only the add, join, update and delete
    routes change the events collection. *)
Theorem routes_keep_to_their_collection rev route env req σ :
  env_JWT_SECRET (snd (serve rev route env req σ)) = env_JWT_SECRET σ
  ∧ (is_Some (usersCollection (snd (serve rev route env req σ)))
     ↔ is_Some (usersCollection σ))
  ∧ (is_Some (eventsCollection (snd (serve rev route env req σ)))
     ↔ is_Some (eventsCollection σ))
  ∧ (route ≠ Signup →
     usersCollection (snd (serve rev route env req σ)) = usersCollection σ)
  ∧ (¬ writes_events route →
     eventsCollection (snd (serve rev route env req σ)) = eventsCollection σ).
Proof.
  destruct (serve rev route env req σ) as [o σ'] eqn:Hrun. cbn [snd].
  destruct (serve_effect _ _ _ _ _ _ _ Hrun)
    as [->|[(-> & _ & c & h & Hc & _ & _ & ->)|[_ Hw]]]; [done| |].
  - cbn. rewrite Hc. split_and!; try done; try (split; by eauto).
  - destruct Hw as [(-> & c & Hc & _ & ->)|[(Hr & c1 & d & c2 & d' & Hc & _ & ->)
                     |(-> & c1 & d & c2 & Hc & ->)]];
      cbn; rewrite Hc; (split_and!; try done; try (split; by eauto));
      intros Hnw; destruct Hnw; unfold writes_events; tauto.
Qed.

(** X18. A request that is refused changes nothing.  Whatever the route
    and the request, when the answer is not a 200 or a 201, or no answer
    is sent, the state is as it was; the exception is the signup of
    [part_000], which can answer 500 after it has stored the account. *)
Theorem refused_request_changes_nothing rev route env req σ o σ' :
  serve rev route env req σ = (o, σ') →
  (∀ r, o = Some r → status r ≠ 200 ∧ status r ≠ 201) →
  ¬ (rev = part_000 ∧ route = Signup) →
  σ' = σ.
Proof.
  intros Hrun Hrefused Hnot.
  destruct (serve_effect _ _ _ _ _ _ _ Hrun)
    as [->|[(-> & (r & -> & Hs) & _)|[(r & -> & Hs) _]]]; [done| |].
  - destruct (Hrefused r eq_refl) as [_ H201]. destruct Hs as [?|[-> _]]; [done|].
    by destruct Hnot.
  - destruct (Hrefused r eq_refl). tauto.
Qed.

Lemma complete_spec b :
  complete b
  = negb (negb (truthy (get b "title")) || negb (truthy (get b "name"))
          || negb (truthy (get b "dateTime")) || negb (truthy (get b "location"))
          || negb (truthy (get b "description")) || negb (truthy (get b "email"))).
Proof.
  unfold complete, required_fields. cbn [forallb].
  by destruct (truthy (get b "title")), (truthy (get b "name")),
    (truthy (get b "dateTime")), (truthy (get b "location")),
    (truthy (get b "description")), (truthy (get b "email")).
Qed.

(** X19. Before the collections are connected (and for good when the
    connection fails).  Every route of [part_000] but [/api/user/me]
    answers 503, "Try again or reload" on [/login] and "Server not
    ready" elsewhere.  [part_001] has no such check: the TypeError is
    caught and answered 500 with the route's message; creation still
    answers 400 to an incomplete body; the listing by owner, which has no
    [try], sends no answer.  The state is left as it was throughout. *)
Theorem before_connection route env req σ :
  usersCollection σ = None → eventsCollection σ = None → route ≠ UserMe →
  serve part_000 route env req σ
  = (Some (json 503 (message (if route is Login then "Try again or reload"
                              else "Server not ready"))), σ)
  ∧ serve part_001 route env req σ = (unconnected_answer route (req_body req), σ).
Proof.
  intros Hu He Hroute. split.
  - destruct route; try done; cbn [serve answered];
      unfold Part000.signup, Part000.login, Part000.add_event, Part000.get_events,
        Part000.my_events, Part000.join_event, Part000.update_event,
        Part000.delete_event; by rewrite ?Hu, ?He.
  - destruct route; try done; cbn [serve answered unless_thrown unconnected_answer].
    + unfold Part001.signup. run. by rewrite Hu.
    + unfold Part001.login. run. by rewrite Hu.
    + rewrite complete_spec. unfold Part001.add_event.
      destruct (_ || _); [done|]. cbn [negb]. run. by rewrite He.
    + unfold Part001.get_events. run. by rewrite He.
    + unfold Part001.my_events. run. by rewrite He.
    + unfold Part001.join_event. run. by rewrite He.
    + unfold Part001.update_event. run. by rewrite He.
    + unfold Part001.delete_event, events_deleteOne. run. by rewrite He.
Qed.
End invariants.

(** ** The further properties on the sample store *)

Lemma delete_outcomes_witness :
  (∃ c1 c2,
     [picnic; concert] = c1 ++ picnic :: c2
     ∧ findOne (by_id (Oid "aaaaaaaaaaaaaaaaaaaaaaaa")) c1 = None
     ∧ serve (lib:=demo) part_000 DeleteEvent later (about_picnic ∅) sample_server
       = (Some (json 200 (message "Event deleted successfully")),
          with_events sample_server (c1 ++ c2)))
  ∧ serve (lib:=demo) part_000 DeleteEvent later (request None "no-such-id" ∅) sample_server
    = (Some (json 500 (message "Failed to delete event")), sample_server).
Proof.
  split.
  - apply (delete_outcomes (lib:=demo) part_000 later (about_picnic ∅) sample_server
             [picnic; concert] eq_refl); vm_compute; reflexivity.
  - apply (delete_outcomes (lib:=demo) part_000 later (request None "no-such-id" ∅)
             sample_server [picnic; concert] eq_refl) with (e := "BSONError").
    vm_compute; reflexivity.
Defined.

Lemma deleted_event_is_gone_witness :
  serve (lib:=demo) part_001 DeleteEvent later (about_picnic ∅)
    (with_events sample_server [concert])
  = (Some (json 404 (message "Event not found")), with_events sample_server [concert]).
Proof.
  assert (unique_ids (Some [picnic; concert])) as Hu by by_decision.
  destruct (deleted_event_is_gone (lib:=demo) part_001 later (about_picnic ∅)
              sample_server [picnic; concert]
              (json 200 (message "Event deleted successfully"))
              (with_events sample_server [concert]) eq_refl Hu)
    as (oid & c' & _ & _ & _ & _ & H404 & _).
  - vm_compute; reflexivity.
  - reflexivity.
  - exact (H404 later).
Defined.

Lemma joins_add_up_witness :
  fst (replay (Part001.join_event (lib:=demo))
         [(later, about_picnic ∅); (later, about_picnic ∅)] sample_server)
  = [json 200 (message "Joined event successfully");
     json 200 (message "Joined event successfully")].
Proof.
  assert (replay (Part001.join_event (lib:=demo))
            [(later, about_picnic ∅); (later, about_picnic ∅)] sample_server
          = (replicate 2 (json 200 (message "Joined event successfully")),
             with_events sample_server
               ([] ++ <["attendeeCount" := VNum (Fin (3 + 2))]> picnic :: [concert])))
    as ->; [|reflexivity].
  apply (joins_add_up (lib:=demo) [(later, about_picnic ∅); (later, about_picnic ∅)]
           sample_server [] picnic [concert] (Oid "aaaaaaaaaaaaaaaaaaaaaaaa") 3).
  - reflexivity.
  - reflexivity.
  - vm_compute; reflexivity.
  - vm_compute; reflexivity.
  - unfold safe_integer; lia.
  - unfold safe_integer; cbn; lia.
  - intros x Hx. apply elem_of_cons in Hx as [->|Hx]; [vm_compute; reflexivity|].
    apply elem_of_cons in Hx as [->|Hx]; [vm_compute; reflexivity|].
    by apply elem_of_nil in Hx.
Defined.

Lemma repeated_update_refused_witness :
  serve (lib:=demo) part_001 UpdateEvent later (about_picnic {[ "title" := VStr "Lunch" ]})
    (snd (Part001.update_event (lib:=demo) later
            (about_picnic {[ "title" := VStr "Lunch" ]}) sample_server))
  = (Some NotFoundOrUpToDate,
     snd (Part001.update_event (lib:=demo) later
            (about_picnic {[ "title" := VStr "Lunch" ]}) sample_server)).
Proof.
  apply (repeated_update_refused (lib:=demo) part_001 later later
           (about_picnic {[ "title" := VStr "Lunch" ]}) sample_server
           (fst (Part001.update_event (lib:=demo) later
                   (about_picnic {[ "title" := VStr "Lunch" ]}) sample_server))).
  - reflexivity.
  - vm_compute; reflexivity.
Defined.

Lemma join_after_update_fails_witness :
  serve (lib:=demo) part_001 JoinEvent later (about_picnic ∅)
    (snd (Part001.update_event (lib:=demo) later
            (about_picnic {[ "attendeeCount" := VStr "many" ]}) sample_server))
  = (Some (json 500 (message "Internal server error")),
     snd (Part001.update_event (lib:=demo) later
            (about_picnic {[ "attendeeCount" := VStr "many" ]}) sample_server)).
Proof.
  apply (join_after_update_fails (lib:=demo) part_001 later later
           (about_picnic {[ "attendeeCount" := VStr "many" ]}) (about_picnic ∅)
           sample_server
           (fst (Part001.update_event (lib:=demo) later
                   (about_picnic {[ "attendeeCount" := VStr "many" ]}) sample_server))
           _ (VStr "many")).
  - reflexivity.
  - vm_compute; reflexivity.
  - vm_compute; reflexivity.
  - intros n. discriminate.
  - reflexivity.
Defined.

Lemma created_event_listed_first_witness :
  ∃ l,
    serve (lib:=demo) part_001 GetEvents later (request None "" ∅)
      (snd (Part001.add_event later (request None "" shrinking_party) sample_server))
    = (Some (json 200 (JArr (doc_json <$>
               new_event later (request None "" shrinking_party) :: l))),
       snd (Part001.add_event later (request None "" shrinking_party) sample_server))
    ∧ l ≡ₚ [picnic; concert].
Proof.
  apply (created_event_listed_first (lib:=demo) part_001 later
           (request None "" shrinking_party) sample_server
           (fst (Part001.add_event later (request None "" shrinking_party) sample_server))
           _ [picnic; concert]).
  - reflexivity.
  - reflexivity.
  - vm_compute; reflexivity.
  - intros d Hd Hle.
    apply elem_of_cons in Hd as [->|Hd]; [by vm_compute in Hle|].
    apply elem_of_cons in Hd as [->|Hd]; [by vm_compute in Hle|].
    by apply elem_of_nil in Hd.
Defined.

Lemma created_event_in_my_events_witness :
  serve (lib:=demo) part_000 (MyEvents "asha@example.org") later (request None "" ∅)
    (snd (Part000.add_event later (request None "" shrinking_party) sample_server))
  = (Some (json 200 (JArr (doc_json <$>
             find [("email", VStr "asha@example.org")] [picnic; concert]
             ++ [new_event later (request None "" shrinking_party)]))),
     snd (Part000.add_event later (request None "" shrinking_party) sample_server)).
Proof.
  apply (created_event_in_my_events (lib:=demo) part_000 later
           (request None "" shrinking_party) sample_server
           (fst (Part000.add_event later (request None "" shrinking_party) sample_server))).
  - reflexivity.
  - reflexivity.
  - vm_compute; reflexivity.
  - vm_compute; reflexivity.
Defined.

Lemma my_events_outcomes_witness :
  serve (lib:=demo) part_000 (MyEvents "bo@example.org") later (request None "" ∅) unconnected
  = (Some (json 503 (message "Server not ready")), unconnected)
  ∧ serve (lib:=demo) part_001 (MyEvents "bo@example.org") later (request None "" ∅)
      unconnected
    = (None, unconnected).
Proof.
  apply (my_events_outcomes (lib:=demo) later "bo@example.org" (request None "" ∅)
           unconnected).
  reflexivity.
Defined.

Lemma signup_then_login_witness :
  ∃ token answer account,
    login (lib:=demo) part_000 later
      (request None "" (newcomer "cleo" "cleo@example.org" "rosebud"))
      (snd (signup (lib:=demo) part_000 later
              (request None "" (newcomer "cleo" "cleo@example.org" "rosebud"))
              sample_server))
    = (json 200 answer,
       snd (signup (lib:=demo) part_000 later
              (request None "" (newcomer "cleo" "cleo@example.org" "rosebud"))
              sample_server))
    ∧ member "token" answer = Some (JVal (VStr token))
    ∧ member "user" answer = Some account
    ∧ member "id" account = Some (JVal (VObjectId (fresh later)))
    ∧ member "email" account
      = Some (JVal (bson (get (newcomer "cleo" "cleo@example.org" "rosebud") "email"))).
Proof.
  apply (signup_then_login (lib:=demo) part_000 later later
           (request None "" (newcomer "cleo" "cleo@example.org" "rosebud")) sample_server
           (fst (signup (lib:=demo) part_000 later
                   (request None "" (newcomer "cleo" "cleo@example.org" "rosebud"))
                   sample_server))).
  - apply surjective_pairing.
  - vm_compute; reflexivity.
  - discriminate.
  - intros h Hh. vm_compute in Hh. injection Hh as <-. vm_compute; reflexivity.
  - intros payload. eexists. reflexivity.
Defined.

Lemma username_shadowed_witness :
  Part001.signup (lib:=demo) later
    (request None "" (newcomer "alice" "other@example.org" "tulip")) sample_server
  = (json 201 (JObj [("message", JVal (VStr "User registered successfully"));
                     ("userId", JVal (VObjectId (fresh later)))]),
     with_users sample_server
       ([alice] ++ [new_user later
                      (request None "" (newcomer "alice" "other@example.org" "tulip"))
                      "salt$tulip"]))
  ∧ ∃ answer,
      Part001.login (lib:=demo) later
        (request None "" (credentials "username" "alice" "tulip")) sample_server
      = (answer, sample_server)
      ∧ Part001.login (lib:=demo) later
          (request None "" (credentials "username" "alice" "tulip"))
          (with_users sample_server
             ([alice] ++ [new_user later
                            (request None "" (newcomer "alice" "other@example.org" "tulip"))
                            "salt$tulip"]))
        = (answer,
           with_users sample_server
             ([alice] ++ [new_user later
                            (request None "" (newcomer "alice" "other@example.org" "tulip"))
                            "salt$tulip"])).
Proof.
  assert (VObjectId (fresh later) ∉ ids [alice]) as Hfresh by by_decision.
  destruct (username_shadowed (lib:=demo) later
              (request None "" (newcomer "alice" "other@example.org" "tulip"))
              sample_server [alice] alice "salt$tulip" eq_refl) as [Hsignup Hlogin].
  - vm_compute; reflexivity.
  - vm_compute; reflexivity.
  - vm_compute; reflexivity.
  - exact Hfresh.
  - split; [exact Hsignup|].
    apply (Hlogin later (request None "" (credentials "username" "alice" "tulip"))).
    vm_compute; reflexivity.
Defined.

Lemma signup_token_failure_keeps_account_witness :
  Part000.signup (lib:=demo) later
    (request None "" (newcomer "cleo" "cleo@example.org" "rosebud")) no_secret
  = (json 500 (message "Internal server error"),
     with_users no_secret
       ([alice] ++ [new_user later
                      (request None "" (newcomer "cleo" "cleo@example.org" "rosebud"))
                      "salt$rosebud"])).
Proof.
  apply (signup_token_failure_keeps_account (lib:=demo) later
           (request None "" (newcomer "cleo" "cleo@example.org" "rosebud")) no_secret
           [alice] "salt$rosebud" "secretOrPrivateKey must have a value").
  - reflexivity.
  - vm_compute; reflexivity.
  - vm_compute; reflexivity.
  - by_decision.
  - vm_compute; reflexivity.
Defined.

Lemma scheme_ignored_witness :
  user_me (lib:=demo) part_000 later
    (request (Some "Bearer jwt:0123456789abcdef01234567") "" ∅) sample_server
  = user_me (lib:=demo) part_000 later
      (request (Some "Basic jwt:0123456789abcdef01234567") "" ∅) sample_server.
Proof.
  apply (scheme_ignored (lib:=demo) part_000 later
           (request (Some "Bearer jwt:0123456789abcdef01234567") "" ∅)
           (request (Some "Basic jwt:0123456789abcdef01234567") "" ∅)
           sample_server "Bearer" "Basic" "jwt:0123456789abcdef01234567").
  - by_decision.
  - by_decision.
  - reflexivity.
  - reflexivity.
Defined.

Lemma token_missing_witness :
  user_me (lib:=demo) part_001 later
    (request (Some "Bearer  jwt:0123456789abcdef01234567") "" ∅) sample_server
  = (json 401 (message "Token missing"), sample_server).
Proof.
  destruct (token_missing (lib:=demo) part_001 later
              (request (Some "Bearer  jwt:0123456789abcdef01234567") "" ∅) sample_server
              "Bearer  jwt:0123456789abcdef01234567" eq_refl) as (_ & _ & _ & Htwo).
  apply (Htwo "Bearer" "jwt:0123456789abcdef01234567").
  - by_decision.
  - reflexivity.
Defined.

Lemma verified_token_without_user_witness :
  user_me (lib:=demo) part_000 later
    (request (Some "Bearer jwt:cccccccccccccccccccccccc") "" ∅) sample_server
  = (json 401 (message "User not found"), sample_server)
  ∧ user_me (lib:=demo) part_000 later
      (request (Some "Bearer jwt:cccccccccccccccccccccccc") "" ∅) unconnected
    = (InvalidToken, unconnected).
Proof.
  split.
  - destruct (verified_token_without_user (lib:=demo) part_000 later
                (request (Some "Bearer jwt:cccccccccccccccccccccccc") "" ∅) sample_server
                "jwt:cccccccccccccccccccccccc" {[ "userId" := VStr "cccccccccccccccccccccccc" ]})
      as [Hgone _].
    + exists "Bearer jwt:cccccccccccccccccccccccc".
      split_and!; [reflexivity | reflexivity | discriminate].
    + reflexivity.
    + apply (Hgone [alice] (Oid "cccccccccccccccccccccccc") eq_refl);
        vm_compute; reflexivity.
  - destruct (verified_token_without_user (lib:=demo) part_000 later
                (request (Some "Bearer jwt:cccccccccccccccccccccccc") "" ∅) unconnected
                "jwt:cccccccccccccccccccccccc" {[ "userId" := VStr "cccccccccccccccccccccccc" ]})
      as [_ Hnone].
    + exists "Bearer jwt:cccccccccccccccccccccccc".
      split_and!; [reflexivity | reflexivity | discriminate].
    + reflexivity.
    + apply Hnone. reflexivity.
Defined.

Lemma ids_stay_unique_witness :
  unique_ids (eventsCollection
                (serve_all (lib:=demo) part_001
                   [(AddEvent, later, request None "" shrinking_party);
                    (AddEvent, later, request None "" shrinking_party);
                    (DeleteEvent, later, about_picnic ∅)] sample_server))
  ∧ unique_ids (usersCollection
                  (serve_all (lib:=demo) part_001
                     [(AddEvent, later, request None "" shrinking_party);
                      (AddEvent, later, request None "" shrinking_party);
                      (DeleteEvent, later, about_picnic ∅)] sample_server)).
Proof.
  apply (ids_stay_unique (lib:=demo) part_001
           [(AddEvent, later, request None "" shrinking_party);
            (AddEvent, later, request None "" shrinking_party);
            (DeleteEvent, later, about_picnic ∅)] sample_server).
  - by_decision.
  - by_decision.
Defined.

Lemma emails_stay_unique_witness :
  unique_emails (usersCollection
                   (serve_all (lib:=demo) part_000
                      [(Signup, later,
                        request None "" (newcomer "cleo" "cleo@example.org" "rosebud"));
                       (Signup, env_at 6000 "dddddddddddddddddddddddd",
                        request None "" (newcomer "cleo2" "cleo@example.org" "tulip"))]
                      empty_server)).
Proof.
  apply (emails_stay_unique (lib:=demo) part_000
           [(Signup, later, request None "" (newcomer "cleo" "cleo@example.org" "rosebud"));
            (Signup, env_at 6000 "dddddddddddddddddddddddd",
             request None "" (newcomer "cleo2" "cleo@example.org" "tulip"))]
           empty_server).
  intros email. cbn. lia.
Defined.

Lemma refused_request_changes_nothing_witness :
  snd (serve (lib:=demo) part_001 JoinEvent later
         (request None "cccccccccccccccccccccccc" ∅) sample_server)
  = sample_server.
Proof.
  apply (refused_request_changes_nothing (lib:=demo) part_001 JoinEvent later
           (request None "cccccccccccccccccccccccc" ∅) sample_server
           (Some (json 404 (message "Event not found")))).
  - vm_compute; reflexivity.
  - intros r Hr. injection Hr as <-. cbn. lia.
  - intros [Hrev _]. discriminate Hrev.
Defined.

Lemma before_connection_witness :
  serve (lib:=demo) part_000 Login later
    (request None "" (credentials "email" "alice@example.org" "wonderland")) unconnected
  = (Some (json 503 (message "Try again or reload")), unconnected)
  ∧ serve (lib:=demo) part_001 Login later
      (request None "" (credentials "email" "alice@example.org" "wonderland")) unconnected
    = (Some (json 500 (message "Internal server error")), unconnected).
Proof.
  apply (before_connection (lib:=demo) Login later
           (request None "" (credentials "email" "alice@example.org" "wonderland"))
           unconnected); [reflexivity | reflexivity | discriminate].
Defined.
